(** * pixel_factory: sprite-sheet composition and colour variants

    A shallow embedding of the image-composing core of [pixel_factory]
    ([spritesheet.py], [preview.py], and the variant derivation of
    [pipeline.py]) together with the properties its specification states,
    followed by the code around it: the placeholder generator
    ([generator.py]), the saving of frames and sheets and the showcase,
    over a model of paths and of the disk, the themes ([models.py],
    [config.py]), the README ([metadata.py]), the archive name and the
    validation of a pack ([packaging.py]).

    The Python code drives Pillow.  The Pillow operations it calls
    ([Image.new], [convert], [split], [putalpha], [getdata], [putdata],
    [paste], [crop], [resize]) are modelled in [Module PIL]; Python
    exceptions are values of [exn] threaded through the [result] monad. *)

From Stdlib Require Import ZArith String Ascii Bool Lia List.
From Stdlib Require Import Permutation Sorted.
From Stdlib Require Import SpecFloat DecimalString DecimalPos DecimalZ.
Import ListNotations.

Local Open Scope string_scope.
Local Open Scope Z_scope.

(** ** Python exceptions *)

Inductive exn : Type :=
| ValueError (msg : string)
| IndexError
| KeyError
| StopIteration
| ZeroDivisionError
| OverflowError.

Inductive result (A : Type) : Type :=
| Ok (a : A)
| Raise (e : exn).

Arguments Ok {A} a.
Arguments Raise {A} e.

Definition bind {A B : Type} (r : result A) (k : A -> result B) : result B :=
  match r with
  | Ok a => k a
  | Raise e => Raise e
  end.

Declare Scope py_scope.
Delimit Scope py_scope with py.
Notation "x <- c1 ;; c2" := (bind c1 (fun x => c2))
  (at level 100, c1 at next level, right associativity) : py_scope.
Notation "' pat <- c1 ;; c2" := (bind c1 (fun x => match x with pat => c2 end))
  (at level 100, pat pattern, c1 at next level, right associativity) : py_scope.
Local Open Scope py_scope.

(** [for x in l: acc = body(acc, x)], stopping at the first exception. *)
Fixpoint for_each {A S : Type} (l : list A) (body : S -> A -> result S) (s : S)
  : result S :=
  match l with
  | [] => Ok s
  | x :: l' => s' <- body s x ;; for_each l' body s'
  end.

(** A loop that builds a list with [append], one element per iteration. *)
Fixpoint for_append {A B : Type} (l : list A) (body : A -> result B)
  : result (list B) :=
  match l with
  | [] => Ok []
  | x :: l' => y <- body x ;; ys <- for_append l' body ;; Ok (y :: ys)
  end.

Definition is_ok {A : Type} (r : result A) : bool :=
  match r with Ok _ => true | Raise _ => false end.

(** ** IEEE 754 arithmetic

    Python's [float] is binary64; Pillow's C code mixes [float] (binary32)
    and [double] (binary64).  Both are the Standard Library's [spec_float]
    with round-to-nearest-even. *)

Module Float.

Definition flt := spec_float.

Definition of_Z (prec emax : Z) (z : Z) : flt := binary_normalize prec emax z 0 false.

(** Re-round a finite value to the format [(prec, emax)]: exact when the
    value is representable (widening), correctly rounded otherwise. *)
Definition cast (prec emax : Z) (x : flt) : flt :=
  match x with
  | S754_finite s m e => binary_round prec emax s m e
  | _ => x
  end.

Definition is_finite (x : flt) : bool :=
  match x with
  | S754_zero _ | S754_finite _ _ _ => true
  | _ => false
  end.

(** Integer part, rounding toward zero ([(int)x] in C, [int(x)] in Python). *)
Definition trunc (x : flt) : Z :=
  match x with
  | S754_finite s m e => cond_Zopp s (Z.shiftl (Zpos m) e)
  | _ => 0
  end.

(** C's [floor]. *)
Definition floor (x : flt) : Z :=
  match x with
  | S754_finite s m e => Z.shiftl (cond_Zopp s (Zpos m)) e
  | _ => 0
  end.

(** C's [round]: nearest integer, halves away from zero. *)
Definition round (x : flt) : Z :=
  match x with
  | S754_finite s m e =>
      cond_Zopp s (if 0 <=? e then Z.shiftl (Zpos m) e
                   else (Z.shiftl (Zpos m) (e + 1) + 1) / 2)
  | _ => 0
  end.

(** binary32, C's [float]. *)
Module B32.
Definition of_int := of_Z 24 128.
Definition of_double := cast 24 128.
Definition sub := SFsub 24 128.
Definition mul := SFmul 24 128.
Definition div := SFdiv 24 128.
End B32.

(** binary64, C's [double] and Python's [float]. *)
Module B64.
Definition of_int := of_Z 53 1024.
Definition of_float := cast 53 1024.
Definition add := SFadd 53 1024.
Definition sub := SFsub 53 1024.
Definition mul := SFmul 53 1024.
Definition div := SFdiv 53 1024.
(** [fmod(x, 1.0)]: the fractional part, with the sign of [x]; exact. *)
Definition fmod1 (x : flt) : flt := sub x (of_int (trunc x)).
End B64.

End Float.

(** Python's [float(n)], [a * b] on floats and [int(x)]. *)
Definition py_float := Float.flt.

Definition float_of_int (n : Z) : result py_float :=
  let f := Float.B64.of_int n in
  if Float.is_finite f then Ok f
  else Raise OverflowError.

Definition int_of_float (x : py_float) : result Z :=
  match x with
  | S754_nan => Raise (ValueError "cannot convert float NaN to integer")
  | S754_infinity _ => Raise OverflowError
  | _ => Ok (Float.trunc x)
  end.

(** Decimal literals, correctly rounded. *)
Definition lit_0_8 : py_float := Float.B64.div (Float.B64.of_int 8) (Float.B64.of_int 10).
Definition lit_0_2 : py_float := Float.B64.div (Float.B64.of_int 2) (Float.B64.of_int 10).
Definition lit_1_0 : py_float := Float.B64.of_int 1.

(** ** Pillow

    Images carry a mode, a size and a pixel store.  A pixel is four 8-bit
    bands, as Pillow stores the multi-band modes; a three-band mode keeps a
    padding byte in the fourth band and mode [L] uses the first band only. *)

Module PIL.

Import Float.

Inductive Mode : Type := L | RGB | RGBA | HSV.

Definition mode_eqb (a b : Mode) : bool :=
  match a, b with
  | L, L | RGB, RGB | RGBA, RGBA | HSV, HSV => true
  | _, _ => false
  end.

Definition Pixel : Type := Z * Z * Z * Z.

Record Image : Type := mkImage {
  mode : Mode;
  width : Z;
  height : Z;
  load : Z -> Z -> Pixel
}.

Definition size (im : Image) : Z * Z := (width im, height im).

Definition inside (im : Image) (x y : Z) : bool :=
  (0 <=? x) && (x <? width im) && (0 <=? y) && (y <? height im).

Definition band (k : nat) (p : Pixel) : Z :=
  let '(a, b, c, d) := p in
  match k with
  | O => a
  | 1%nat => b
  | 2%nat => c
  | _ => d
  end.

Definition bands (m : Mode) : nat :=
  match m with
  | L => 1
  | RGB | HSV => 3
  | RGBA => 4
  end.

(** *** Colour conversion (libImaging/Convert.c) *)

Definition clip8 (v : Z) : Z :=
  if v <=? 0 then 0 else if v <? 256 then v else 255.

Definition f255 : flt := B64.of_int 255.
Definition f6 : flt := B64.of_int 6.
Definition f1 : flt := B64.of_int 1.

(** [rgb2hsv_row]: [h], [s] and the channel ratios are C [float]s,
    expressions with a [double] constant are evaluated in [double]. *)
Definition rgb2hsv (r g b : Z) : Z * Z * Z :=
  let maxc := Z.max r (Z.max g b) in
  let minc := Z.min r (Z.min g b) in
  let uv := maxc in
  if minc =? maxc then (0, 0, uv)
  else
    let cr := B32.of_int (maxc - minc) in
    let s := B32.div cr (B32.of_int maxc) in
    let rc := B32.div (B32.of_int (maxc - r)) cr in
    let gc := B32.div (B32.of_int (maxc - g)) cr in
    let bc := B32.div (B32.of_int (maxc - b)) cr in
    let h :=
      if r =? maxc then B32.sub bc gc
      else if g =? maxc then
        B32.of_double (B64.sub (B64.add (B64.of_int 2) (B64.of_float rc)) (B64.of_float bc))
      else
        B32.of_double (B64.sub (B64.add (B64.of_int 4) (B64.of_float gc)) (B64.of_float rc)) in
    let h := B32.of_double (B64.fmod1 (B64.add (B64.div (B64.of_float h) f6) f1)) in
    let uh := clip8 (trunc (B64.mul (B64.of_float h) f255)) in
    let us := clip8 (trunc (B64.mul (B64.of_float s) f255)) in
    (uh, us, uv).

(** [hsv2rgb]. *)
Definition hsv2rgb (h s v : Z) : Z * Z * Z :=
  if s =? 0 then (v, v, v)
  else
    let h6 := B64.div (B64.mul (B64.of_int h) f6) f255 in
    let i := floor h6 in
    let f := B32.of_double (B64.sub h6 (B64.of_int i)) in
    let fs := B32.of_double (B64.div (B64.of_int s) f255) in
    let fv := B64.of_int v in
    let p := round (B64.mul fv (B64.sub f1 (B64.of_float fs))) in
    let q := round (B64.mul fv (B64.sub f1 (B64.of_float (B32.mul fs f)))) in
    let t := round (B64.mul fv
               (B64.sub f1 (B64.mul (B64.of_float fs) (B64.sub f1 (B64.of_float f))))) in
    let up := clip8 p in
    let uq := clip8 q in
    let ut := clip8 t in
    match i mod 6 with
    | 0 => (v, ut, up)
    | 1 => (uq, v, up)
    | 2 => (up, v, ut)
    | 3 => (up, uq, v)
    | 4 => (ut, up, v)
    | _ => (v, up, uq)
    end.

(** [rgb2l]: ITU-R 601-2 luma, [L24(rgb) >> 16]. *)
Definition rgb2l (r g b : Z) : Z :=
  Z.shiftr (r * 19595 + g * 38470 + b * 7471 + 32768) 16.

Definition to_rgb (m : Mode) (p : Pixel) : Pixel :=
  let '(a, b, c, d) := p in
  match m with
  | L => (a, a, a, 255)
  | RGB => p
  | RGBA => (a, b, c, 255)
  | HSV => let '(r, g, b') := hsv2rgb a b c in (r, g, b', d)
  end.

Definition from_rgb (m : Mode) (p : Pixel) : Pixel :=
  let '(r, g, b, d) := p in
  match m with
  | L => (rgb2l r g b, 0, 0, 0)
  | RGB => p
  | RGBA => (r, g, b, 255)
  | HSV => let '(h, s, v) := rgb2hsv r g b in (h, s, v, d)
  end.

Definition map_pixels (m : Mode) (f : Pixel -> Pixel) (im : Image) : Image :=
  {| mode := m; width := width im; height := height im;
     load := fun x y => f (load im x y) |}.

(** [Image.convert(mode)].  The same mode is a copy; a pair without a
    converter goes through the source's base mode (RGB for RGBA and HSV);
    L has no base mode other than itself, so L -> HSV is refused. *)
Definition convert (im : Image) (m : Mode) : result Image :=
  if mode_eqb (mode im) m then Ok im
  else
    match mode im, m with
    | L, HSV => Raise (ValueError "conversion not supported")
    | src, _ => Ok (map_pixels m (fun p => from_rgb m (to_rgb src p)) im)
    end.

(** [Image.new(mode, size, color)]. *)
Definition new (m : Mode) (sz : Z * Z) (color : Pixel) : result Image :=
  let '(w, h) := sz in
  if (w <? 0) || (h <? 0) then Raise (ValueError "Width and height must be >= 0")
  else Ok {| mode := m; width := w; height := h; load := fun _ _ => color |}.

(** [Image.split()]: one L image per band. *)
Definition getband (im : Image) (k : nat) : Image :=
  {| mode := L; width := width im; height := height im;
     load := fun x y => (band k (load im x y), 0, 0, 0) |}.

Definition split (im : Image) : list Image :=
  map (getband im) (seq 0 (bands (mode im))).

(** [Image.putalpha(alpha)] with an image argument: the alpha image must
    be of mode L and of the same size; an image without an alpha band is
    first given one. *)
Definition putalpha (im alpha : Image) : result Image :=
  match mode alpha with
  | L =>
      im' <- convert im RGBA ;;
      if (width alpha =? width im') && (height alpha =? height im') then
        Ok {| mode := RGBA; width := width im'; height := height im';
              load := fun x y =>
                let '(r, g, b, _) := load im' x y in
                (r, g, b, band 0 (load alpha x y)) |}
      else Raise (ValueError "images do not match")
  | _ => Raise (ValueError "illegal image mode")
  end.

(** [Image.getdata()] of a three-band image: the pixels in row-major
    order, as 3-tuples. *)
Definition getdata (im : Image) : list (Z * Z * Z) :=
  map (fun i : nat =>
         let '(a, b, c, _) := load im (Z.of_nat i mod width im) (Z.of_nat i / width im) in
         (a, b, c))
      (seq 0 (Z.to_nat (width im * height im))).

(** [Image.putdata(data)] on a three-band image: entry [y*width + x]
    becomes pixel [(x, y)]; pixels beyond the data keep their value. *)
Definition putdata (im : Image) (data : list (Z * Z * Z)) : Image :=
  {| mode := mode im; width := width im; height := height im;
     load := fun x y =>
       if inside im x y then
         match nth_error data (Z.to_nat (y * width im + x)) with
         | Some (a, b, c) => (a, b, c, 255)
         | None => load im x y
         end
       else load im x y |}.

(** *** Paste (libImaging/Paste.c) *)

Definition div255 (a : Z) : Z :=
  let tmp := a + 128 in Z.shiftr (Z.shiftr tmp 8 + tmp) 8.

Definition blend (mask in1 in2 : Z) : Z :=
  div255 (in1 * (255 - mask) + in2 * mask).

Definition blend_pixel (mask : Z) (p1 p2 : Pixel) : Pixel :=
  let '(a1, b1, c1, d1) := p1 in
  let '(a2, b2, c2, d2) := p2 in
  (blend mask a1 a2, blend mask b1 b2, blend mask c1 c2, blend mask d1 d2).

(** [Image.paste(im, (x, y), mask)]: the source is converted to the
    destination's mode, its box is clipped to the destination, and each
    pixel is copied (no mask) or blended by the mask's transparency. *)
Definition paste (dst src : Image) (box : Z * Z) (mask : option Image)
  : result Image :=
  let '(dx, dy) := box in
  src' <- convert src (mode dst) ;;
  match mask with
  | None =>
      Ok {| mode := mode dst; width := width dst; height := height dst;
            load := fun x y =>
              if inside dst x y && inside src' (x - dx) (y - dy)
              then load src' (x - dx) (y - dy)
              else load dst x y |}
  | Some m =>
      match mode m with
      | RGBA | L =>
          if (width m =? width src') && (height m =? height src') then
            Ok {| mode := mode dst; width := width dst; height := height dst;
                  load := fun x y =>
                    if inside dst x y && inside src' (x - dx) (y - dy)
                    then blend_pixel
                           (band (match mode m with RGBA => 3 | _ => 0 end)
                                 (load m (x - dx) (y - dy)))
                           (load dst x y) (load src' (x - dx) (y - dy))
                    else load dst x y |}
          else Raise (ValueError "images do not match")
      | _ => Raise (ValueError "bad transparency mask")
      end
  end.

(** [Image.crop((left, upper, right, lower))]: pixels of the box that lie
    outside the image are zero. *)
Definition crop (im : Image) (box : Z * Z * Z * Z) : result Image :=
  let '(l, t, r, b) := box in
  if r <? l then Raise (ValueError "Coordinate 'right' is less than 'left'")
  else if b <? t then Raise (ValueError "Coordinate 'lower' is less than 'upper'")
  else Ok {| mode := mode im; width := r - l; height := b - t;
             load := fun x y =>
               if inside im (x + l) (y + t) then load im (x + l) (y + t)
               else (0, 0, 0, 0) |}.

(** [Image.resize(size, Image.NEAREST)]: an unchanged size is a copy;
    otherwise both sides must be positive and output pixel [(x, y)] takes
    the source pixel under its centre, [floor((x + 1/2) * W / w)]
    (libImaging/Geometry.c, nearest filter of the scaling transform).  The
    index is computed exactly here; the C code accumulates it in a
    [double], which agrees for every image size Pillow can hold. *)
Definition resize_nearest (im : Image) (sz : Z * Z) : result Image :=
  let '(w, h) := sz in
  if (width im =? w) && (height im =? h) then Ok im
  else if (w <? 1) || (h <? 1) then Raise (ValueError "height and width must be > 0")
  else Ok {| mode := mode im; width := w; height := h;
             load := fun x y =>
               load im (((2 * x + 1) * width im) / (2 * w))
                       (((2 * y + 1) * height im) / (2 * h)) |}.

End PIL.

Import PIL.

(** ** Python built-ins used by the code *)

Definition len {A : Type} (l : list A) : Z := Z.of_nat (length l).

(** [l[i]] for a non-negative index. *)
Definition getitem {A : Type} (l : list A) (i : nat) : result A :=
  match nth_error l i with
  | Some a => Ok a
  | None => Raise IndexError
  end.

(** [a // b] and [a % b]: floor division, the remainder has the sign of [b]. *)
Definition floordiv (a b : Z) : result Z :=
  if b =? 0 then Raise ZeroDivisionError else Ok (a / b).

Definition pymod (a b : Z) : result Z :=
  if b =? 0 then Raise ZeroDivisionError else Ok (a mod b).

(** [enumerate(l)]. *)
Fixpoint enumerate_from {A : Type} (i : Z) (l : list A) : list (Z * A) :=
  match l with
  | [] => []
  | x :: l' => (i, x) :: enumerate_from (i + 1) l'
  end.

Definition enumerate {A : Type} (l : list A) : list (Z * A) := enumerate_from 0 l.

(** [max(xs)] of a sequence of integers. *)
Definition py_max (xs : list Z) : result Z :=
  match xs with
  | [] => Raise (ValueError "max() arg is an empty sequence")
  | x :: xs' => Ok (fold_left Z.max xs' x)
  end.

(** [next(iter(l))]. *)
Definition next_iter {A : Type} (l : list A) : result A :=
  match l with
  | [] => Raise StopIteration
  | x :: _ => Ok x
  end.

(** [not l] for a list or a dict. *)
Definition is_empty {A : Type} (l : list A) : bool :=
  match l with
  | [] => true
  | _ :: _ => false
  end.

(** [sorted(l, key=key)] with string keys: a stable sort that compares keys
    with [<] only. *)
Fixpoint insert_sorted {A : Type} (key : A -> string) (x : A) (l : list A) : list A :=
  match l with
  | [] => [x]
  | y :: l' =>
      if String.ltb (key y) (key x) then y :: insert_sorted key x l'
      else x :: y :: l'
  end.

Definition sorted {A : Type} (key : A -> string) (l : list A) : list A :=
  fold_right (insert_sorted key) [] l.

(** A [dict]: the entries in insertion order, keys pairwise distinct. *)
Section Dict.
Context {K V : Type} (eqb : K -> K -> bool).

Definition dict : Type := list (K * V).

Definition keys (d : dict) : list K := map fst d.
Definition values (d : dict) : list V := map snd d.

Fixpoint dict_get (d : dict) (k : K) : option V :=
  match d with
  | [] => None
  | (k', v) :: d' => if eqb k' k then Some v else dict_get d' k
  end.

(** [d[k]]. *)
Definition dict_getitem (d : dict) (k : K) : result V :=
  match dict_get d k with
  | Some v => Ok v
  | None => Raise KeyError
  end.

(** [d[k] = v]: an existing key keeps its position. *)
Fixpoint dict_set (d : dict) (k : K) (v : V) : dict :=
  match d with
  | [] => [(k, v)]
  | (k', v') :: d' => if eqb k' k then (k', v) :: d' else (k', v') :: dict_set d' k v
  end.
End Dict.

Arguments dict K V : clear implicits.

(** ** models.py *)

Inductive AnimationType : Type := IDLE | WALK | ATTACK.

Definition value (a : AnimationType) : string :=
  match a with
  | IDLE => "idle"
  | WALK => "walk"
  | ATTACK => "attack"
  end.

Definition AnimationType_eqb (a b : AnimationType) : bool :=
  match a, b with
  | IDLE, IDLE | WALK, WALK | ATTACK, ATTACK => true
  | _, _ => false
  end.

(** [PackMetadata], without its list of per-creature records; the field
    [animation_types] is [animation_type_names] here, the name being taken
    by [GenerationConfig.animation_types] below. *)
Record PackMetadata : Type := mkPackMetadata {
  pack_id : string;
  pack_name : string;
  theme_name : string;
  generation_date : string;
  resolution : Z * Z;
  num_creatures : Z;
  num_variants : Z;
  animation_type_names : list string
}.

(** [GenerationConfig.animation_types]. *)
Definition animation_types : list AnimationType := [IDLE; WALK; ATTACK].

(** ** spritesheet.py *)

Definition apply_color_variant (base_image : Image) (hue_shift : Z)
  (saturation_factor : py_float) : result Image :=
  rgb_image <- convert base_image RGB ;;
  hsv_image <- convert rgb_image HSV ;;
  alpha <- (if mode_eqb (mode base_image) RGBA
            then a <- getitem (split base_image) 3 ;; Ok (Some a)
            else Ok None) ;;
  hsv_data <- for_append (getdata hsv_image)
    (fun '(h, s, v) =>
       let new_h := (h + hue_shift) mod 256 in
       fs <- float_of_int s ;;
       si <- int_of_float (Float.B64.mul fs saturation_factor) ;;
       let new_s := Z.min 255 (Z.max 0 si) in
       Ok (new_h, new_s, v)) ;;
  let hsv_image := putdata hsv_image hsv_data in
  result <- convert hsv_image RGB ;;
  match alpha with
  | Some alpha =>
      result <- convert result RGBA ;;
      putalpha result alpha
  | None => convert result RGBA
  end.

(** The mask argument of every paste: [frame if frame.mode == "RGBA" else None]. *)
Definition mask_of (frame : Image) : option Image :=
  if mode_eqb (mode frame) RGBA then Some frame else None.

Definition create_animation_sprite_sheet (frames : list Image) (spacing : Z)
  (background_color : Pixel) : result Image :=
  if is_empty frames then
    Raise (ValueError "Cannot create sprite sheet from empty frame list")
  else
    frame0 <- getitem frames 0 ;;
    let '(frame_width, frame_height) := size frame0 in
    let total_width := len frames * frame_width + (len frames - 1) * spacing in
    sprite_sheet <- new RGBA (total_width, frame_height) background_color ;;
    '(sprite_sheet, _) <-
      for_each frames
        (fun '(sprite_sheet, x_offset) frame =>
           sprite_sheet <- paste sprite_sheet frame (x_offset, 0) (mask_of frame) ;;
           Ok (sprite_sheet, x_offset + (frame_width + spacing)))
        (sprite_sheet, 0) ;;
    Ok sprite_sheet.

Definition create_combined_sprite_sheet
  (animation_frames : dict AnimationType (list Image)) (spacing : Z)
  (background_color : Pixel) : result Image :=
  if is_empty animation_frames then
    Raise (ValueError "Cannot create combined sprite sheet from empty animations")
  else
    let animation_types := sorted value (keys animation_frames) in
    first_frames <- next_iter (values animation_frames) ;;
    frame0 <- getitem first_frames 0 ;;
    let '(frame_width, frame_height) := size frame0 in
    max_frames <- py_max (map len (values animation_frames)) ;;
    let total_width := max_frames * frame_width + (max_frames - 1) * spacing in
    let total_height :=
      len animation_types * frame_height + (len animation_types - 1) * spacing in
    sprite_sheet <- new RGBA (total_width, total_height) background_color ;;
    '(sprite_sheet, _) <-
      for_each animation_types
        (fun '(sprite_sheet, y_offset) anim_type =>
           frames <- dict_getitem AnimationType_eqb animation_frames anim_type ;;
           '(sprite_sheet, _) <-
             for_each frames
               (fun '(sprite_sheet, x_offset) frame =>
                  sprite_sheet <- paste sprite_sheet frame (x_offset, y_offset)
                                    (mask_of frame) ;;
                  Ok (sprite_sheet, x_offset + (frame_width + spacing)))
               (sprite_sheet, 0) ;;
           Ok (sprite_sheet, y_offset + (frame_height + spacing)))
        (sprite_sheet, 0) ;;
    Ok sprite_sheet.

Definition upscale_nearest_neighbor (image : Image) (scale : Z) : result Image :=
  let new_size := (width image * scale, height image * scale) in
  resize_nearest image new_size.

Definition create_grid_layout (images : list Image) (cols spacing : Z)
  (background_color : Pixel) : result Image :=
  if is_empty images then
    Raise (ValueError "Cannot create grid from empty image list")
  else
    img0 <- getitem images 0 ;;
    let '(img_width, img_height) := size img0 in
    rows <- floordiv (len images + cols - 1) cols ;;
    let total_width := cols * img_width + (cols + 1) * spacing in
    let total_height := rows * img_height + (rows + 1) * spacing in
    grid <- new RGBA (total_width, total_height) background_color ;;
    for_each (enumerate images)
      (fun grid '(idx, img) =>
         row <- floordiv idx cols ;;
         col <- pymod idx cols ;;
         let x := spacing + col * (img_width + spacing) in
         let y := spacing + row * (img_height + spacing) in
         paste grid img (x, y) (mask_of img))
      grid.

(** Default arguments. *)
Definition transparent : Pixel := (0, 0, 0, 0).
Definition grid_background : Pixel := (30, 30, 30, 255).

(** ** pipeline.py: the colour variant of a creature's frames

    [generate_creature] asks the generator for the frames of each animation
    type, applies the variant's colour transform when the variant is not
    the base one, and stores them under the type, in the order of
    [GenerationConfig.animation_types]. *)

Definition variant_hue_shift (variant_index : Z) : Z := variant_index * 60.

Definition variant_saturation_factor (variant_index : Z) : result py_float :=
  fv <- float_of_int variant_index ;;
  Ok (Float.B64.add lit_0_8 (Float.B64.mul fv lit_0_2)).

Definition generate_creature
  (generate_animation_frames : AnimationType -> result (list Image))
  (variant_index : Z) : result (dict AnimationType (list Image)) :=
  for_each animation_types
    (fun animation_frames anim_type =>
       frames <- generate_animation_frames anim_type ;;
       frames <- (if variant_index >? 0 then
                    let hue_shift := variant_hue_shift variant_index in
                    saturation_factor <- variant_saturation_factor variant_index ;;
                    for_append frames
                      (fun frame => apply_color_variant frame hue_shift saturation_factor)
                  else Ok frames) ;;
       Ok (dict_set AnimationType_eqb animation_frames anim_type frames))
    [].

(** ** preview.py

    Text rendering is Pillow's [ImageFont] and [ImageDraw]: loading a
    TrueType font may fail with [OSError], measuring a text gives its
    bounding box, and drawing a text rewrites pixels of the image it draws
    on (never its size or mode).  The code is parametric in them. *)

Record TextEngine : Type := mkTextEngine {
  Font : Type;
  truetype : string -> Z -> option Font;
  load_default : Font;
  textbbox : Font -> string -> Z * Z * Z * Z;
  draw_text : Font -> string -> Z * Z -> Pixel -> (Z -> Z -> Pixel) -> Z -> Z -> Pixel
}.

(** [ImageDraw.Draw(im).text(xy, text, fill, font)]. *)
Definition text (te : TextEngine) (im : Image) (xy : Z * Z) (s : string)
  (fill : Pixel) (font : Font te) : Image :=
  {| mode := mode im; width := width im; height := height im;
     load := draw_text te font s xy fill (load im) |}.

(** Files written by [Image.save]: path and content, latest first. *)
Definition Storage : Type := list (string * Image).

Definition save (im : Image) (path : string) (fs : Storage) : Storage :=
  (path, im) :: fs.

(** [str(n)] of an integer, as an f-string formats it. *)
Definition str (n : Z) : string := NilZero.string_of_int (Z.to_int n).

Definition preview_background : Pixel := (26, 26, 26, 255).

Definition create_pack_preview (te : TextEngine) (sprite_sheets : list Image)
  (pack_metadata : PackMetadata) (scale cols : Z) (output_path : option string)
  (fs : Storage) : result Image * Storage :=
  if is_empty sprite_sheets then
    (Raise (ValueError "Cannot create preview from empty sprite sheet list"), fs)
  else
    let body : result Image :=
      preview_sprites <- for_append (firstn 20 sprite_sheets)
        (fun sheet =>
           let frame_height := height sheet in
           let frame_width := frame_height in
           first_frame <- crop sheet (0, 0, frame_width, frame_height) ;;
           upscale_nearest_neighbor first_frame scale) ;;
      let spacing := 8 * scale in
      let bg_color := preview_background in
      grid <- create_grid_layout preview_sprites cols spacing bg_color ;;
      let header_height := 80 * scale in
      let final_width := width grid in
      let final_height := height grid + header_height in
      preview <- new RGBA (final_width, final_height) bg_color ;;
      let '(title_font, info_font) :=
        match truetype te "/usr/share/fonts/truetype/dejavu/DejaVuSans-Bold.ttf"
                (24 * scale / 4),
              truetype te "/usr/share/fonts/truetype/dejavu/DejaVuSans.ttf"
                (16 * scale / 4) with
        | Some title_font, Some info_font => (title_font, info_font)
        | _, _ => (load_default te, load_default te)
        end in
      let title := pack_name pack_metadata in
      let title_bbox := textbbox te title_font title in
      let title_width := snd (fst title_bbox) - fst (fst (fst title_bbox)) in
      let title_x := (final_width - title_width) / 2 in
      let preview := text te preview (title_x, 10 * scale) title (255, 255, 255, 255)
                       title_font in
      let info_text :=
        ("Theme: " ++ theme_name pack_metadata ++ " | "
         ++ str (num_creatures pack_metadata) ++ " Creatures | "
         ++ str (num_variants pack_metadata) ++ " Variants | "
         ++ str (fst (resolution pack_metadata)) ++ "x"
         ++ str (snd (resolution pack_metadata)))%string in
      let info_bbox := textbbox te info_font info_text in
      let info_width := snd (fst info_bbox) - fst (fst (fst info_bbox)) in
      let info_x := (final_width - info_width) / 2 in
      let preview := text te preview (info_x, 40 * scale) info_text (200, 200, 200, 255)
                       info_font in
      paste preview grid (0, header_height) (Some grid) in
    match body with
    | Ok preview =>
        (Ok preview,
         match output_path with
         | Some path => save preview path fs
         | None => fs
         end)
    | Raise e => (Raise e, fs)
    end.

(** ** generator.py *)

(** [ThemeConfig] of models.py. *)
Record ThemeConfig : Type := mkThemeConfig {
  name : string;
  description : string;
  base_description : string;
  mood_adjectives : list string;
  color_palette_hints : list string;
  background_color : string
}.

(** [range(n)]. *)
Definition range (n : Z) : list Z := map Z.of_nat (seq 0 (Z.to_nat n)).

(** [l[i]] for an integer index: a negative index counts from the end. *)
Definition getitem_int {A : Type} (l : list A) (i : Z) : result A :=
  if i <? 0 then
    if i + len l <? 0 then Raise IndexError
    else getitem l (Z.to_nat (i + len l))
  else getitem l (Z.to_nat i).

(** The calls made on an [ImageDraw.Draw] object, in order.  A colour is
    the string given as [fill] or [outline]. *)
Inductive DrawCall : Type :=
| Ellipse (box : Z * Z * Z * Z) (fill : string) (outline : option string)
| Rectangle (box : Z * Z * Z * Z) (fill : string) (outline : option string)
| Polygon (points : list (Z * Z)) (fill : string) (outline : option string).

(** What the generator takes from its environment: the salted [hash] of a
    string, the index [random.Random(seed).choice] draws in a sequence of
    [n] elements, and Pillow's rasterisation of a draw call, which
    rewrites pixels of the image drawn on. *)
Record Backend : Type := mkBackend {
  hash : string -> Z;
  randbelow : Z -> nat -> nat;
  raster : DrawCall -> (Z -> Z -> Pixel) -> Z -> Z -> Pixel
}.

(** [ImageDraw.Draw(img)] followed by the calls [calls]. *)
Definition draw_calls (be : Backend) (calls : list DrawCall) (img : Image) : Image :=
  {| mode := mode img; width := width img; height := height img;
     load := fold_left (fun px call => raster be call px) calls (load img) |}.

Definition color_schemes : list (string * list (string * string * string)) :=
  [("cute_forest",
    [("#8bc34a", "#4caf50", "#cddc39");
     ("#ff9800", "#ff5722", "#ffc107");
     ("#2196f3", "#03a9f4", "#00bcd4");
     ("#e91e63", "#9c27b0", "#f06292");
     ("#795548", "#8d6e63", "#a1887f")]);
   ("dark_dungeon",
    [("#4a148c", "#6a1b9a", "#7b1fa2");
     ("#b71c1c", "#c62828", "#d32f2f");
     ("#1b5e20", "#2e7d32", "#388e3c");
     ("#263238", "#37474f", "#455a64");
     ("#e65100", "#ef6c00", "#f57c00")]);
   ("robot_aliens",
    [("#0277bd", "#0288d1", "#03a9f4");
     ("#f57f17", "#f9a825", "#fbc02d");
     ("#00695c", "#00796b", "#00897b");
     ("#4a148c", "#6a1b9a", "#7b1fa2");
     ("#c2185b", "#d81b60", "#e91e63")]);
   ("ocean_creatures",
    [("#01579b", "#0277bd", "#0288d1");
     ("#e65100", "#ef6c00", "#f57c00");
     ("#4a148c", "#6a1b9a", "#7b1fa2");
     ("#00695c", "#00796b", "#00897b");
     ("#c62828", "#d32f2f", "#e53935")])].

(** [rng.choice(seq)]: [IndexError] on an empty sequence. *)
Definition choice {A : Type} (be : Backend) (seed : Z) (l : list A) : result A :=
  if is_empty l then Raise IndexError
  else getitem l (randbelow be seed (length l)).

Definition _get_creature_colors (be : Backend) (theme : ThemeConfig) (creature_index : Z)
  : result (string * string * string) :=
  let seed := hash be (name theme) + creature_index in
  default <- dict_getitem String.eqb color_schemes "cute_forest" ;;
  let theme_colors :=
    match dict_get String.eqb color_schemes (name theme) with
    | Some colors => colors
    | None => default
    end in
  choice be seed theme_colors.

Definition shapes : list string := ["blob"; "quadruped"; "biped"; "flying"; "serpent"].

Definition _get_creature_shape (creature_index : Z) : result string :=
  i <- pymod creature_index (len shapes) ;;
  getitem_int shapes i.

Definition _get_animation_offset (animation_type : AnimationType) (frame_index : Z)
  : result Z :=
  match animation_type with
  | IDLE => Ok ((frame_index mod 2) * 1)
  | WALK => getitem_int [0; 1; 0; -1] (frame_index mod 4)
  | ATTACK => getitem_int [0; 2; 1; 0] (frame_index mod 4)
  end.

Definition _draw_blob_creature (w h : Z) (colors : string * string * string) (offset : Z)
  : list DrawCall :=
  let '(primary, secondary, accent) := colors in
  let center_x := w / 2 in
  let center_y := h / 2 + offset in
  let body_size := Z.min w h / 3 in
  let eye_y := center_y - body_size / 3 in
  [Ellipse (center_x - body_size, center_y - body_size,
            center_x + body_size, center_y + body_size) primary (Some secondary);
   Rectangle (center_x - body_size / 2, eye_y, center_x - body_size / 3, eye_y + 2)
     accent None;
   Rectangle (center_x + body_size / 3, eye_y, center_x + body_size / 2, eye_y + 2)
     accent None].

Definition _draw_quadruped_creature (w h : Z) (colors : string * string * string)
  (offset : Z) : list DrawCall :=
  let '(primary, secondary, accent) := colors in
  let center_x := w / 2 in
  let center_y := h / 2 + offset in
  let body_w := w / 2 in
  let body_h := h / 3 in
  let leg_h := h / 4 in
  let head_size := body_h in
  [Rectangle (center_x - body_w / 2, center_y - body_h / 2,
              center_x + body_w / 2, center_y + body_h / 2) primary (Some secondary)]
  ++ map (fun leg_x =>
            Rectangle (leg_x, center_y + body_h / 2, leg_x + 2,
                       center_y + body_h / 2 + leg_h) secondary None)
         [center_x - body_w / 2; center_x + body_w / 2 - 2]
  ++ [Ellipse (center_x + body_w / 2 - 2, center_y - head_size,
               center_x + body_w / 2 + head_size, center_y) primary (Some accent)].

Definition _draw_biped_creature (w h : Z) (colors : string * string * string)
  (offset : Z) : list DrawCall :=
  let '(primary, secondary, accent) := colors in
  let center_x := w / 2 in
  let center_y := h / 2 + offset in
  let body_w := w / 4 in
  let body_h := h / 2 in
  let head_size := body_w + 2 in
  let leg_w := 2 in
  let leg_h := h / 4 in
  [Rectangle (center_x - body_w / 2, center_y - body_h / 2,
              center_x + body_w / 2, center_y + body_h / 2) primary (Some secondary);
   Ellipse (center_x - head_size / 2, center_y - body_h / 2 - head_size,
            center_x + head_size / 2, center_y - body_h / 2) primary (Some accent);
   Rectangle (center_x - body_w / 2, center_y + body_h / 2,
              center_x - body_w / 2 + leg_w, center_y + body_h / 2 + leg_h)
     secondary None;
   Rectangle (center_x + body_w / 2 - leg_w, center_y + body_h / 2,
              center_x + body_w / 2, center_y + body_h / 2 + leg_h)
     secondary None].

Definition _draw_flying_creature (w h : Z) (colors : string * string * string)
  (offset : Z) : list DrawCall :=
  let '(primary, secondary, accent) := colors in
  let center_x := w / 2 in
  let center_y := h / 2 + offset in
  let body_size := Z.min w h / 4 in
  let wing_size := body_size + 4 in
  [Ellipse (center_x - body_size, center_y - body_size / 2,
            center_x + body_size, center_y + body_size / 2) primary (Some secondary);
   Polygon [(center_x - body_size, center_y);
            (center_x - body_size - wing_size, center_y - wing_size / 2);
            (center_x - body_size - wing_size, center_y + wing_size / 2)]
     secondary (Some accent);
   Polygon [(center_x + body_size, center_y);
            (center_x + body_size + wing_size, center_y - wing_size / 2);
            (center_x + body_size + wing_size, center_y + wing_size / 2)]
     secondary (Some accent)].

Definition _draw_serpent_creature (w h : Z) (colors : string * string * string)
  (offset : Z) : list DrawCall :=
  let '(primary, secondary, accent) := colors in
  let center_y := h / 2 + offset in
  let segment_size := Z.min w h / 8 in
  let num_segments := 5 in
  map (fun i =>
         let x := w / 4 + (i * w / (num_segments + 2)) in
         let y_wave := center_y + ((i mod 2) * segment_size / 2) in
         Ellipse (x - segment_size, y_wave - segment_size,
                  x + segment_size, y_wave + segment_size)
           (if i mod 2 =? 0 then primary else secondary) (Some accent))
      (range num_segments).

Definition generate_single_creature (be : Backend) (resolution : Z * Z)
  (theme : ThemeConfig) (creature_index : Z) (animation_type : AnimationType)
  (frame_index : Z) : result Image :=
  img <- new RGBA resolution (0, 0, 0, 0) ;;
  let '(width, height) := resolution in
  colors <- _get_creature_colors be theme creature_index ;;
  shape <- _get_creature_shape creature_index ;;
  offset <- _get_animation_offset animation_type frame_index ;;
  let calls :=
    if String.eqb shape "blob" then _draw_blob_creature width height colors offset
    else if String.eqb shape "quadruped" then
      _draw_quadruped_creature width height colors offset
    else if String.eqb shape "biped" then _draw_biped_creature width height colors offset
    else if String.eqb shape "flying" then _draw_flying_creature width height colors offset
    else _draw_serpent_creature width height colors offset in
  Ok (draw_calls be calls img).

Definition generate_animation_frames (be : Backend) (resolution : Z * Z)
  (theme : ThemeConfig) (creature_index : Z) (animation_type : AnimationType)
  (num_frames : Z) : result (list Image) :=
  for_append (range num_frames)
    (fun i => generate_single_creature be resolution theme creature_index animation_type i).



(** ** Strings and formats *)

(** [s.startswith(sub)] and [sub in s]. *)
Fixpoint startswith (s sub : string) : bool :=
  match sub, s with
  | EmptyString, _ => true
  | String a sub', String b s' => Ascii.eqb a b && startswith s' sub'
  | String _ _, EmptyString => false
  end.

Fixpoint contains (sub s : string) : bool :=
  startswith s sub ||
  match s with
  | EmptyString => false
  | String _ s' => contains sub s'
  end.

(** The format specification [0<w>d] of an f-string: the decimal digits,
    padded with zeros after the sign up to [w] characters. *)
Fixpoint zeros (n : nat) : string :=
  match n with
  | O => EmptyString
  | S n' => String "0" (zeros n')
  end.

Definition zfill (w : nat) (digits : string) : string :=
  zeros (w - String.length digits) ++ digits.

Definition format_0d (w : nat) (n : Z) : string :=
  if n <? 0 then "-" ++ zfill (w - 1) (str (- n)) else zfill w (str n).

(** ** pathlib

    A [PurePosixPath]: the root ([/], [//] or none) and the components.
    Joining parses the right operand as the constructor does: empty and
    [.] components are dropped, [..] is kept, and an operand with a root
    replaces the path. *)
Module pathlib.

Record Path : Type := mkPath { root : string; parts : list string }.

Fixpoint split_slash (s : string) : list string :=
  match s with
  | EmptyString => [EmptyString]
  | String c s' =>
      if Ascii.eqb c "/" then EmptyString :: split_slash s'
      else match split_slash s' with
           | h :: t => String c h :: t
           | [] => [String c EmptyString]
           end
  end.

Definition is_part (x : string) : bool := negb (x =? "")%string && negb (x =? ".")%string.

Fixpoint leading_slashes (s : string) : nat :=
  match s with
  | String c s' => if Ascii.eqb c "/" then S (leading_slashes s') else O
  | EmptyString => O
  end.

Definition parse_root (s : string) : string :=
  match leading_slashes s with
  | O => EmptyString
  | 2%nat => "//"
  | _ => "/"
  end.

Definition PurePath (s : string) : Path :=
  {| root := parse_root s; parts := filter is_part (split_slash s) |}.

(** [p / s]. *)
Definition joinpath (p : Path) (s : string) : Path :=
  let q := PurePath s in
  if (root q =? "")%string then {| root := root p; parts := parts p ++ parts q |}
  else q.

(** [p.name] and [p.parent]. *)
Definition name (p : Path) : string := last (parts p) EmptyString.

Definition parent (p : Path) : Path :=
  {| root := root p; parts := removelast (parts p) |}.

Fixpoint parts_eqb (a b : list string) : bool :=
  match a, b with
  | [], [] => true
  | x :: a', y :: b' => (x =? y)%string && parts_eqb a' b'
  | _, _ => false
  end.

Definition eqb (p q : Path) : bool :=
  (root p =? root q)%string && parts_eqb (parts p) (parts q).

(** [str(p)]. *)
Definition to_str (p : Path) : string :=
  match root p, parts p with
  | EmptyString, [] => "."
  | r, ps => r ++ String.concat "/" ps
  end.

(** [p.relative_to(other)]. *)
Definition relative_to (p other : Path) : result Path :=
  if (root p =? root other)%string
     && parts_eqb (firstn (length (parts other)) (parts p)) (parts other)
  then Ok {| root := EmptyString; parts := skipn (length (parts other)) (parts p) |}
  else Raise (ValueError "path is not in the subpath of the other path").

End pathlib.

Infix "</>" := pathlib.joinpath (at level 40, left associativity) : py_scope.


(** ** The file system

    A disk maps paths to directories and files, latest entry first.  The
    empty path and the root are directories.  Code that touches the disk
    runs in a state monad over it; a failure carries the exception and
    says nothing of the disk it leaves. *)

Inductive Node : Type :=
| Directory
| ImageFile (im : Image)
| TextFile (content : string).

Definition Disk : Type := list (pathlib.Path * Node).

Fixpoint lookup_path (d : Disk) (p : pathlib.Path) : option Node :=
  match d with
  | [] => None
  | (q, n) :: d' => if pathlib.eqb q p then Some n else lookup_path d' p
  end.

Definition stat (d : Disk) (p : pathlib.Path) : option Node :=
  match pathlib.parts p with
  | [] => Some Directory
  | _ :: _ => lookup_path d p
  end.

Inductive io_error : Type :=
| FileExistsError
| FileNotFoundError
| NotADirectoryError
| IsADirectoryError
| UnidentifiedImageError
| EncoderError (msg : string).

Inductive failure : Type :=
| Py (e : exn)
| Os (e : io_error).

Inductive outcome (A : Type) : Type :=
| Done (a : A) (d : Disk)
| Failed (e : failure).

Arguments Done {A} a d.
Arguments Failed {A} e.

Definition IO (A : Type) : Type := Disk -> outcome A.

Definition io_ret {A : Type} (a : A) : IO A := fun d => Done a d.

Definition io_bind {A B : Type} (c : IO A) (k : A -> IO B) : IO B :=
  fun d =>
    match c d with
    | Done a d' => k a d'
    | Failed e => Failed e
    end.

Definition lift {A : Type} (r : result A) : IO A :=
  fun d =>
    match r with
    | Ok a => Done a d
    | Raise e => Failed (Py e)
    end.

Declare Scope io_scope.
Delimit Scope io_scope with io.
Notation "x <- c1 ;; c2" := (io_bind c1 (fun x => c2))
  (at level 100, c1 at next level, right associativity) : io_scope.
Notation "' pat <- c1 ;; c2" := (io_bind c1 (fun x => match x with pat => c2 end))
  (at level 100, pat pattern, c1 at next level, right associativity) : io_scope.

Fixpoint io_for_each {A S : Type} (l : list A) (body : S -> A -> IO S) (s : S) : IO S :=
  match l with
  | [] => io_ret s
  | x :: l' => io_bind (body s x) (fun s' => io_for_each l' body s')
  end.

(** The non-empty prefixes of a list, shortest first. *)
Fixpoint prefixes {A : Type} (l : list A) : list (list A) :=
  match l with
  | [] => []
  | x :: l' => [x] :: map (cons x) (prefixes l')
  end.

(** [p.mkdir(parents=True, exist_ok=True)]: the missing ancestors and
    [p] are created; a file in the way is an error. *)
Fixpoint mkdir_each (r : string) (target : list string) (qs : list (list string))
  : IO unit :=
  fun d =>
    match qs with
    | [] => Done tt d
    | q :: qs' =>
        match stat d (pathlib.mkPath r q) with
        | Some Directory => mkdir_each r target qs' d
        | Some _ =>
            Failed (Os (if pathlib.parts_eqb q target then FileExistsError
                        else NotADirectoryError))
        | None => mkdir_each r target qs' ((pathlib.mkPath r q, Directory) :: d)
        end
    end.

Definition mkdir (p : pathlib.Path) : IO unit :=
  mkdir_each (pathlib.root p) (pathlib.parts p) (prefixes (pathlib.parts p)).

(** What Pillow's PNG encoder accepts: a mode PNG can store and at least
    one pixel. *)
Definition png_writable (im : Image) : bool :=
  negb (mode_eqb (mode im) HSV) && (1 <=? width im) && (1 <=? height im).

(** [im.save(p, "PNG")]: the file is opened for writing, then encoded. *)
Definition image_save (im : Image) (p : pathlib.Path) : IO unit :=
  fun d =>
    match stat d (pathlib.parent p) with
    | None => Failed (Os FileNotFoundError)
    | Some Directory =>
        match stat d p with
        | Some Directory => Failed (Os IsADirectoryError)
        | _ =>
            if png_writable im then Done tt ((p, ImageFile im) :: d)
            else Failed (Os (EncoderError "cannot write image as PNG"))
        end
    | Some _ => Failed (Os NotADirectoryError)
    end.

(** [Image.open(p)]: PNG is lossless. *)
Definition image_open (p : pathlib.Path) : IO Image :=
  fun d =>
    match stat d p with
    | Some (ImageFile im) => Done im d
    | Some Directory => Failed (Os IsADirectoryError)
    | Some (TextFile _) => Failed (Os UnidentifiedImageError)
    | None => Failed (Os FileNotFoundError)
    end.

(** [p.exists()]. *)
Definition path_exists (p : pathlib.Path) : IO bool :=
  fun d =>
    match stat d p with
    | Some _ => Done true d
    | None => Done false d
    end.

(** ** spritesheet.py: saving *)

Definition save_frames_to_disk (frames : list Image) (output_dir : pathlib.Path)
  (creature_id : string) (animation_type : AnimationType) (variant_index : Z)
  : IO (list pathlib.Path) :=
  (let creature_dir := output_dir </> creature_id </> value animation_type in
   _ <- mkdir creature_dir ;;
   io_for_each (enumerate_from 1 frames)
     (fun saved_paths '(i, frame) =>
        let filename :=
          if variant_index >? 0 then
            ("frame_" ++ format_0d 2 i ++ "_variant_" ++ str variant_index ++ ".png")%string
          else ("frame_" ++ format_0d 2 i ++ ".png")%string in
        let frame_path := creature_dir </> filename in
        _ <- image_save frame frame_path ;;
        io_ret (saved_paths ++ [frame_path])%list)
     [])%io.

Definition save_sprite_sheet (sprite_sheet : Image) (output_dir : pathlib.Path)
  (creature_id : string) (animation_type : AnimationType) (variant_index : Z)
  (is_combined : bool) : IO pathlib.Path :=
  (let sheets_dir := output_dir </> creature_id </> "sprite_sheets" in
   _ <- mkdir sheets_dir ;;
   let filename :=
     if is_combined then
       if variant_index >? 0 then
         ("combined_variant_" ++ str variant_index ++ ".png")%string
       else "combined.png"
     else
       if variant_index >? 0 then
         (value animation_type ++ "_variant_" ++ str variant_index ++ ".png")%string
       else (value animation_type ++ ".png")%string in
   let sheet_path := sheets_dir </> filename in
   _ <- image_save sprite_sheet sheet_path ;;
   io_ret sheet_path)%io.


(** ** preview.py: the showcase of a creature *)

(** [s.endswith(suffix)] and [sum(xs)]. *)
Definition endswith (s suffix : string) : bool :=
  (String.length suffix <=? String.length s)%nat
  && (substring (String.length s - String.length suffix) (String.length suffix) s
      =? suffix)%string.

Definition py_sum (xs : list Z) : Z := fold_left Z.add xs 0.

(** The entries of a directory: the paths of the disk right under it,
    each once. *)
Fixpoint dedup (seen : list pathlib.Path) (l : list pathlib.Path) : list pathlib.Path :=
  match l with
  | [] => []
  | p :: l' =>
      if existsb (pathlib.eqb p) seen then dedup seen l'
      else p :: dedup (p :: seen) l'
  end.

Definition iterdir (d : Disk) (dir : pathlib.Path) : list pathlib.Path :=
  dedup []
    (filter (fun p => negb (is_empty (pathlib.parts p)) && pathlib.eqb (pathlib.parent p) dir)
            (map fst d)).

(** [dir.glob("*" + suffix)]: the entries whose name ends with the
    suffix, in the order the system lists them. *)
Definition glob_suffix (dir : pathlib.Path) (suffix : string) : IO (list pathlib.Path) :=
  fun d => Done (filter (fun p => endswith (pathlib.name p) suffix) (iterdir d dir)) d.

Definition io_raise {A : Type} (e : exn) : IO A := fun _ => Failed (Py e).

Definition create_creature_showcase (creature_dir output_path : pathlib.Path) (scale : Z)
  : IO Image :=
  (let sprite_sheets_dir := creature_dir </> "sprite_sheets" in
   files <- glob_suffix sprite_sheets_dir ".png" ;;
   sprite_sheets <-
     io_for_each (sorted pathlib.name files)
       (fun sprite_sheets sheet_file =>
          if negb (contains "combined" (pathlib.name sheet_file))
             && negb (contains "variant" (pathlib.name sheet_file))
          then sheet <- image_open sheet_file ;; io_ret (sprite_sheets ++ [sheet])%list
          else io_ret sprite_sheets)
       [] ;;
   if is_empty sprite_sheets then
     io_raise (ValueError ("No sprite sheets found in " ++ pathlib.to_str sprite_sheets_dir))
   else
     upscaled_sheets <-
       lift (for_append sprite_sheets (fun sheet => upscale_nearest_neighbor sheet scale)) ;;
     max_width <- lift (py_max (map width upscaled_sheets)) ;;
     let total_height := py_sum (map height upscaled_sheets) in
     let spacing := 4 * scale in
     let total_height := total_height + spacing * (len upscaled_sheets - 1) in
     showcase <- lift (new RGBA (max_width, total_height) (26, 26, 26, 255)) ;;
     '(showcase, _) <-
       lift (for_each upscaled_sheets
               (fun '(showcase, y_offset) sheet =>
                  (showcase <- paste showcase sheet (0, y_offset) (Some sheet) ;;
                   Ok (showcase, y_offset + (height sheet + spacing)))%py)
               (showcase, 0)) ;;
     _ <- image_save showcase output_path ;;
     io_ret showcase)%io.


(** ** pipeline.py: saving the assets of a creature *)

Module Config.

(** [GenerationConfig] of models.py. *)
Record GenerationConfig : Type := mkGenerationConfig {
  pack_name : string;
  theme_name : string;
  resolution : Z * Z;
  num_creatures : Z;
  num_variants : Z;
  output_dir : pathlib.Path;
  frames_per_animation : Z
}.

End Config.

Definition save_creature_assets (config : Config.GenerationConfig) (creature_id : string)
  (animation_frames : dict AnimationType (list Image)) (variant_index : Z)
  : IO (dict string string) :=
  (let pack_dir := Config.output_dir config </> Config.pack_name config </> "creatures" in
   sprite_sheet_paths <-
     io_for_each animation_frames
       (fun sprite_sheet_paths '(anim_type, frames) =>
          _ <- save_frames_to_disk frames pack_dir creature_id anim_type variant_index ;;
          sprite_sheet <- lift (create_animation_sprite_sheet frames 2 transparent) ;;
          sheet_path <- save_sprite_sheet sprite_sheet pack_dir creature_id anim_type
                          variant_index false ;;
          relative <- lift (pathlib.relative_to sheet_path (Config.output_dir config)) ;;
          io_ret (dict_set String.eqb sprite_sheet_paths (value anim_type)
                    (pathlib.to_str relative)))
       [] ;;
   combined_sheet <- lift (create_combined_sprite_sheet animation_frames 2 transparent) ;;
   combined_path <- save_sprite_sheet combined_sheet pack_dir creature_id IDLE
                      variant_index true ;;
   relative <- lift (pathlib.relative_to combined_path (Config.output_dir config)) ;;
   io_ret (dict_set String.eqb sprite_sheet_paths "combined" (pathlib.to_str relative)))%io.


(** [CreaturePackPipeline.generate_creature]: the identifier of the
    creature and the frames of [generate_creature] for the pipeline's
    generator, theme and configuration. *)
Definition CreaturePackPipeline_generate_creature (be : Backend)
  (config : Config.GenerationConfig) (theme_config : ThemeConfig)
  (creature_index variant_index : Z)
  : result (string * dict AnimationType (list Image)) :=
  let creature_id := "creature_" ++ format_0d 3 (creature_index + 1) in
  animation_frames <-
    generate_creature
      (fun anim_type =>
         generate_animation_frames be (Config.resolution config) theme_config
           creature_index anim_type (Config.frames_per_animation config))
      variant_index ;;
  Ok (creature_id, animation_frames).


(** ** models.py: the prompt of a theme *)

Definition build_prompt (self : ThemeConfig) (creature_index : Z) : result string :=
  i <- pymod creature_index (len (mood_adjectives self)) ;;
  mood <- getitem_int (mood_adjectives self) i ;;
  j <- pymod creature_index (len (color_palette_hints self)) ;;
  color_hint <- getitem_int (color_palette_hints self) j ;;
  Ok (base_description self ++ ", " ++ mood ++ " style, "
      ++ "pixel art, " ++ color_hint ++ " color scheme, "
      ++ "game sprite, transparent background, simple design")%string.

(** ** config.py *)

Definition DEFAULT_THEMES : dict string ThemeConfig :=
  [("cute_forest",
    {| name := "cute_forest";
       description := "Adorable forest creatures";
       base_description := "cute small forest animal creature";
       mood_adjectives := ["friendly"; "cheerful"; "playful"; "curious"; "happy"];
       color_palette_hints := ["green and brown"; "orange and yellow"; "blue and white";
                               "pink and purple"; "red and brown"];
       background_color := "#2d5016" |});
   ("dark_dungeon",
    {| name := "dark_dungeon";
       description := "Menacing dungeon monsters";
       base_description := "dark dungeon monster creature";
       mood_adjectives := ["menacing"; "sinister"; "aggressive"; "fierce"; "intimidating"];
       color_palette_hints := ["dark purple and black"; "red and black"; "green and brown";
                               "gray and dark blue"; "brown and orange"];
       background_color := "#1a0d1a" |});
   ("robot_aliens",
    {| name := "robot_aliens";
       description := "Robotic alien beings";
       base_description := "small robot alien creature";
       mood_adjectives := ["mechanical"; "futuristic"; "sleek"; "advanced"; "technological"];
       color_palette_hints := ["silver and blue"; "gold and red"; "green and black";
                               "cyan and white"; "purple and pink"];
       background_color := "#0d1a26" |});
   ("ocean_creatures",
    {| name := "ocean_creatures";
       description := "Aquatic sea creatures";
       base_description := "small sea creature ocean animal";
       mood_adjectives := ["flowing"; "graceful"; "mysterious"; "colorful"; "peaceful"];
       color_palette_hints := ["blue and cyan"; "orange and yellow"; "purple and pink";
                               "green and teal"; "red and orange"];
       background_color := "#0a2463" |})].

(** [Config.get_theme]; [repr_keys] is Python's [repr] of the list of
    theme names, which the error message shows. *)
Definition get_theme (repr_keys : list string -> string) (themes : dict string ThemeConfig)
  (theme_name : string) : result ThemeConfig :=
  match dict_get String.eqb themes theme_name with
  | None =>
      Raise (ValueError ("Theme '" ++ theme_name ++ "' not found. Available themes: "
                         ++ repr_keys (keys themes)))
  | Some _ => dict_getitem String.eqb themes theme_name
  end.

(** ** metadata.py: the README

    [capitalize] is [str.capitalize].  The second part of the text is a
    plain string in the source, not an f-string. *)

Definition readme_file_structure : string := "
## File Structure

```
{pack_name}/
├── creatures/
│   ├── creature_001/
│   │   ├── idle/
│   │   │   ├── frame_01.png
│   │   │   ├── frame_02.png
│   │   │   ├── frame_03.png
│   │   │   └── frame_04.png
│   │   ├── walk/
│   │   │   └── ...
│   │   ├── attack/
│   │   │   └── ...
│   │   └── sprite_sheets/
│   │       ├── idle.png
│   │       ├── walk.png
│   │       ├── attack.png
│   │       └── combined.png
│   └── creature_002/
│       └── ...
├── previews/
│   └── pack_preview.png
├── metadata.json
└── README.txt
```

## Sprite Sheets

Each creature has individual sprite sheets for each animation type, plus a combined sprite sheet:

- **Individual sheets** (e.g., `idle.png`): Single row of frames for one animation
- **Combined sheet** (`combined.png`): All animations stacked vertically in order: idle, walk, attack

## Color Variants

Color variants are generated programmatically from the base creature. Variant files include `_variant_N` in their filename.

## Usage in Game Engines

### Unity
1. Import sprite sheets into your project
2. Use the Sprite Editor to slice the sprite sheet
3. Set pixels per unit to match your game's scale
4. Create animation clips using the sliced sprites

### Godot
1. Import sprite sheets as Texture
2. Create AnimatedSprite node
3. Add frames from sprite sheet
4. Configure animation speed and looping

### Pygame
```python
sprite_sheet = pygame.image.load('combined.png')
frame_width = {pack_metadata.resolution[0]}
frame_height = {pack_metadata.resolution[1]}
# Extract frames and animate
```

## License

This asset pack was generated using Pixel Factory.
Use these assets freely in your commercial or non-commercial projects.

## Credits

Generated with Pixel Factory - https://github.com/yourusername/pixel-factory
".

Definition generate_readme (capitalize : string -> string) (pack_metadata : PackMetadata)
  : string :=
  let readme :=
    ("# " ++ pack_name pack_metadata ++ "

## Pack Information

- **Theme**: " ++ theme_name pack_metadata ++ "
- **Resolution**: " ++ str (fst (resolution pack_metadata)) ++ "x"
     ++ str (snd (resolution pack_metadata)) ++ " pixels
- **Creatures**: " ++ str (num_creatures pack_metadata) ++ "
- **Color Variants**: " ++ str (num_variants pack_metadata) ++ " per creature
- **Generated**: " ++ generation_date pack_metadata ++ "

## Animations Included

Each creature includes the following animations:
")%string in
  let readme :=
    fold_left
      (fun readme anim_type =>
         (readme ++ ("- **" ++ capitalize anim_type ++ "**: 4 frames
"))%string)
      (animation_type_names pack_metadata) readme in
  (readme ++ readme_file_structure)%string.

(** ** packaging.py: the name of the archive *)

(** [s.replace(old, new)] for one-character strings. *)
Fixpoint replace_char (old new : ascii) (s : string) : string :=
  match s with
  | EmptyString => EmptyString
  | String c s' => String (if Ascii.eqb c old then new else c) (replace_char old new s')
  end.

(** [lower] is [str.lower]. *)
Definition generate_pack_filename (lower : string -> string) (pack_name theme_name : string)
  (resolution : Z * Z) (pack_id : option string) : string :=
  let safe_name := replace_char " " "_" (lower pack_name) in
  let safe_theme := replace_char " " "_" (lower theme_name) in
  let parts := ["pixel_creatures"] in
  let parts :=
    match pack_id with
    | Some id => if (id =? "")%string then parts else (parts ++ [id])%list
    | None => parts
    end in
  let parts :=
    (parts ++ [safe_theme;
               (str (fst resolution) ++ "x" ++ str (snd resolution))%string])%list in
  String.concat "_" parts.


(** ** packaging.py: validation

    The messages sent to the logger are left out. *)

(** [dir.iterdir()], in the order [listing] in which the system lists
    the entries, and [p.is_dir()]. *)
Definition path_iterdir (listing : list pathlib.Path -> list pathlib.Path)
  (dir : pathlib.Path) : IO (list pathlib.Path) :=
  fun d =>
    match stat d dir with
    | Some Directory => Done (listing (iterdir d dir)) d
    | Some _ => Failed (Os NotADirectoryError)
    | None => Failed (Os FileNotFoundError)
    end.

Definition path_is_dir (p : pathlib.Path) : IO bool :=
  fun d =>
    match stat d p with
    | Some Directory => Done true d
    | _ => Done false d
    end.

(** A loop that returns [False] at the first item failing the test, and
    [[x for x in l if test(x)]]. *)
Fixpoint io_all {A : Type} (test : A -> IO bool) (l : list A) : IO bool :=
  match l with
  | [] => io_ret true
  | a :: l' => (ok <- test a ;; if ok then io_all test l' else io_ret false)%io
  end.

Fixpoint io_filter {A : Type} (test : A -> IO bool) (l : list A) : IO (list A) :=
  match l with
  | [] => io_ret []
  | a :: l' =>
      (ok <- test a ;;
       rest <- io_filter test l' ;;
       io_ret (if ok then a :: rest else rest))%io
  end.

Definition validate_pack_structure (listing : list pathlib.Path -> list pathlib.Path)
  (pack_dir : pathlib.Path) : IO bool :=
  (let required_paths :=
     [pack_dir </> "creatures"; pack_dir </> "metadata.json"; pack_dir </> "README.txt"] in
   found <- io_all path_exists required_paths ;;
   if negb found then io_ret false
   else
     let creatures_dir := pack_dir </> "creatures" in
     entries <- path_iterdir listing creatures_dir ;;
     creature_dirs <- io_filter path_is_dir entries ;;
     match creature_dirs with
     | [] => io_ret false
     | first_creature :: _ =>
         let required_subdirs := ["idle"; "walk"; "attack"; "sprite_sheets"] in
         io_all (fun subdir => path_exists (first_creature </> subdir)) required_subdirs
     end)%io.

(** * Vocabulary of the properties *)

(** ** Images and placements *)

(** A Pillow image has a non-negative size. *)
Definition wf (im : Image) : Prop := 0 <= width im /\ 0 <= height im.

(** The image [Image.new] returns for a non-negative size. *)
Definition blank (m : Mode) (w h : Z) (color : Pixel) : Image :=
  {| mode := m; width := w; height := h; load := fun _ _ => color |}.

(** What pasting leaves at a pixel covered by [frame]'s pixel [(u, v)]: an
    RGBA frame is blended over the pixel underneath by its own alpha, any
    other frame is converted to RGBA and copied. *)
Definition paste_pixel (frame : Image) (u v : Z) (under : Pixel) : Pixel :=
  match mode frame with
  | RGBA => blend_pixel (band 3 (load frame u v)) under (load frame u v)
  | m => from_rgb RGBA (to_rgb m (load frame u v))
  end.

(** The sheet after [frame] is pasted at [(dx, dy)] with the composers'
    mask. *)
Definition pasted (dst frame : Image) (dx dy : Z) : Image :=
  {| mode := mode dst; width := width dst; height := height dst;
     load := fun x y =>
       if inside dst x y && inside frame (x - dx) (y - dy)
       then paste_pixel frame (x - dx) (y - dy) (load dst x y)
       else load dst x y |}.

(** A composer's work is a list of placements, pasted in order. *)
Definition placement : Type := Image * (Z * Z).

Definition covers (p : placement) (x y : Z) : bool :=
  inside (fst p) (x - fst (snd p)) (y - snd (snd p)).

Definition paste_all (ps : list placement) (sheet : Image) : Image :=
  fold_left (fun s (p : placement) => pasted s (fst p) (fst (snd p)) (snd (snd p)))
            ps sheet.

(** The placements of the row loop: frame [i] at [(x0 + i*step, y)]. *)
Fixpoint row_layout (frames : list Image) (x0 y step : Z) : list placement :=
  match frames with
  | [] => []
  | f :: fs => (f, (x0, y)) :: row_layout fs (x0 + step) y step
  end.

(** The image [upscale_nearest_neighbor] returns. *)
Definition upscaled (image : Image) (k : Z) : Image :=
  if (width image =? width image * k) && (height image =? height image * k) then image
  else {| mode := mode image; width := width image * k; height := height image * k;
          load := fun x y =>
            load image (((2 * x + 1) * width image) / (2 * (width image * k)))
                       (((2 * y + 1) * height image) / (2 * (height image * k))) |}.

(** ** Colour variants *)

(** The pixel a conversion from mode [src] to mode [dst] produces. *)
Definition conv_pixel (src dst : Mode) (p : Pixel) : Pixel :=
  if mode_eqb src dst then p else from_rgb dst (to_rgb src p).

(** The transform of one HSV triple: hue shifted modulo 256, saturation
    scaled in binary64, truncated and clamped to a byte, value kept. *)
Definition shift_hsv (hue_shift : Z) (saturation_factor : py_float) (hsv : Z * Z * Z)
  : Z * Z * Z :=
  let '(h, s, v) := hsv in
  ((h + hue_shift) mod 256,
   Z.min 255 (Z.max 0 (Float.trunc (Float.B64.mul (Float.B64.of_int s) saturation_factor))),
   v).

(** The alpha of a pixel: the fourth band of an RGBA image, fully opaque
    in a mode without alpha. *)
Definition alpha_of (m : Mode) (p : Pixel) : Z :=
  match m with
  | RGBA => band 3 p
  | _ => 255
  end.

(** What [apply_color_variant] makes of one pixel of an image of mode [m]. *)
Definition variant_pixel (m : Mode) (hue_shift : Z) (saturation_factor : py_float)
  (p : Pixel) : Pixel :=
  let '(r, g, b, _) := conv_pixel m RGB p in
  let '(h', s', v') := shift_hsv hue_shift saturation_factor (rgb2hsv r g b) in
  let '(r', g', b') := hsv2rgb h' s' v' in
  (r', g', b', alpha_of m p).

(** The saturation levels on which scaling by [saturation_factor] gives a
    float that [int] accepts (neither NaN nor infinite). *)
Definition byte_values : list Z := map Z.of_nat (seq 0 256).

Definition sat_defined (saturation_factor : py_float) : bool :=
  forallb (fun s => is_ok (fs <- float_of_int s ;;
                           int_of_float (Float.B64.mul fs saturation_factor)))
          byte_values.

(** ** Concrete inputs and observations *)

(** The pixel of a result, for statements about concrete runs. *)
Definition result_pixel (r : result Image) (x y : Z) : option Pixel :=
  match r with
  | Ok im => Some (load im x y)
  | Raise _ => None
  end.

Definition result_size (r : result Image) : option (Z * Z) :=
  match r with
  | Ok im => Some (size im)
  | Raise _ => None
  end.

(** The literal [1.2]. *)
Definition lit_1_2 : py_float :=
  Float.B64.div (Float.B64.of_int 12) (Float.B64.of_int 10).

Definition one_pixel (p : Pixel) : Image := blank RGBA 1 1 p.

(** RGB to HSV and back, as Pillow converts. *)
Definition round_trip (r g b : Z) : Z * Z * Z :=
  let '(h, s, v) := rgb2hsv r g b in hsv2rgb h s v.

(** The hue shift as the specification words it: [index * 60] degrees
    modulo 360, brought from the 360-degree circle to the 256 levels of the
    hue band. *)
Definition spec_hue_shift (variant_index : Z) : Z :=
  ((variant_index * 60) mod 360) * 256 / 360.

(** [animation_frames[kind][0].getpixel((0, 0))] of a generated creature. *)
Definition first_pixel (r : result (dict AnimationType (list Image)))
  (kind : AnimationType) : option Pixel :=
  match r with
  | Ok d =>
      match dict_get AnimationType_eqb d kind with
      | Some (frame :: _) => Some (load frame 0 0)
      | _ => None
      end
  | Raise _ => None
  end.

Definition red : Image := one_pixel (255, 0, 0, 255).

(** ** Layouts of the combined sheet, the grid and the preview *)

(** The kinds in canonical order. *)
Definition canonical_kinds : list AnimationType := [ATTACK; IDLE; WALK].

Definition has_kind (l : list AnimationType) (k : AnimationType) : bool :=
  existsb (AnimationType_eqb k) l.

(** The placements of the combined sheet: row [r] at [y0 + r*ystep]. *)
Fixpoint rows_layout (rows : list (list Image)) (y0 xstep ystep : Z) : list placement :=
  match rows with
  | [] => []
  | row :: rows' => row_layout row 0 y0 xstep ++ rows_layout rows' (y0 + ystep) xstep ystep
  end.

(** [animation_frames[kind]], for a kind of the mapping. *)
Definition lookup (d : dict AnimationType (list Image)) (k : AnimationType) : list Image :=
  match dict_get AnimationType_eqb d k with
  | Some frames => frames
  | None => []
  end.

(** The placement of grid cell [idx]: column [idx % cols], row [idx // cols]. *)
Definition cell_placement (cols spacing W H : Z) (cell : Z * Image) : placement :=
  (snd cell,
   (spacing + (fst cell mod cols) * (W + spacing),
    spacing + (fst cell / cols) * (H + spacing))).

(** The square crop [sheet.crop((0, 0, h, h))] with [h] the sheet's height. *)
Definition first_frame (sheet : Image) : Image :=
  {| mode := mode sheet; width := height sheet - 0; height := height sheet - 0;
     load := fun x y =>
       if inside sheet (x + 0) (y + 0) then load sheet (x + 0) (y + 0)
       else (0, 0, 0, 0) |}.

(** The preview sprite of a sheet. *)
Definition sprite_of (scale : Z) (sheet : Image) : Image :=
  upscaled (first_frame sheet) scale.

(** The canvas of the preview before the grid is pasted: the background
    colour, with the title and the line of information drawn on it, in the
    two DejaVu fonts or, when one of them cannot be loaded, in the default
    font. *)
Definition header_canvas (te : TextEngine) (pack_metadata : PackMetadata)
  (scale final_width final_height : Z) : Image :=
  let preview := blank RGBA final_width final_height preview_background in
  let '(title_font, info_font) :=
    match truetype te "/usr/share/fonts/truetype/dejavu/DejaVuSans-Bold.ttf"
            (24 * scale / 4),
          truetype te "/usr/share/fonts/truetype/dejavu/DejaVuSans.ttf"
            (16 * scale / 4) with
    | Some title_font, Some info_font => (title_font, info_font)
    | _, _ => (load_default te, load_default te)
    end in
  let title := pack_name pack_metadata in
  let title_bbox := textbbox te title_font title in
  let title_width := snd (fst title_bbox) - fst (fst (fst title_bbox)) in
  let title_x := (final_width - title_width) / 2 in
  let preview := text te preview (title_x, 10 * scale) title (255, 255, 255, 255)
                   title_font in
  let info_text :=
    ("Theme: " ++ theme_name pack_metadata ++ " | "
     ++ str (num_creatures pack_metadata) ++ " Creatures | "
     ++ str (num_variants pack_metadata) ++ " Variants | "
     ++ str (fst (resolution pack_metadata)) ++ "x"
     ++ str (snd (resolution pack_metadata)))%string in
  let info_bbox := textbbox te info_font info_text in
  let info_width := snd (fst info_bbox) - fst (fst (fst info_bbox)) in
  let info_x := (final_width - info_width) / 2 in
  text te preview (info_x, 40 * scale) info_text (200, 200, 200, 255) info_font.

(** ** Sample inputs *)

Definition small_frame : Image := blank RGBA 1 1 (255, 0, 0, 255).
Definition large_frame : Image := blank RGBA 2 2 (0, 255, 0, 255).

(** Two 2x2 frames, one RGBA and one RGB. *)
Definition demo_frames : list Image :=
  [blank RGBA 2 2 (255, 0, 0, 255); blank RGB 2 2 (0, 255, 0, 255)].

(** A 2x1 image with two different pixels. *)
Definition two_pixels : Image :=
  {| mode := RGBA; width := 2; height := 1;
     load := fun x _ => if x =? 0 then (255, 0, 0, 255) else (0, 0, 255, 128) |}.

(** A mapping filled in the order walk, idle, attack. *)
Definition demo_set : dict AnimationType (list Image) :=
  [(WALK, [one_pixel (1, 1, 1, 255)]);
   (IDLE, [one_pixel (2, 2, 2, 255)]);
   (ATTACK, [one_pixel (3, 3, 3, 255)])].



Definition demo_sheet : Image := blank RGBA 5 2 (9, 9, 9, 255).


Definition four_frames : list Image :=
  [blank RGBA 32 32 (255, 0, 0, 255); blank RGBA 32 32 (0, 255, 0, 255);
   blank RGBA 32 32 (0, 0, 255, 255); blank RGBA 32 32 (255, 255, 0, 255)].

Definition three_animations : dict AnimationType (list Image) :=
  [(IDLE, four_frames); (WALK, four_frames); (ATTACK, four_frames)].

Definition three_images : list Image :=
  [blank RGBA 32 32 (255, 0, 0, 255); blank RGBA 32 32 (0, 255, 0, 255);
   blank RGBA 32 32 (0, 0, 255, 255)].

(** ** The placeholder generator *)

(** A box [[x0, y0, x1, y1]] as Pillow's drawing primitives accept it. *)
Definition box_ordered (box : Z * Z * Z * Z) : Prop :=
  let '(x0, y0, x1, y1) := box in x0 <= x1 /\ y0 <= y1.

Definition call_ordered (call : DrawCall) : Prop :=
  match call with
  | Ellipse box _ _ => box_ordered box
  | Rectangle box _ _ => box_ordered box
  | Polygon _ _ _ => True
  end.

(** A backend for examples: it always draws the first element and paints
    the first corner of a box or polygon with an opaque white pixel. *)
Definition demo_backend : Backend :=
  {| hash := fun _ => 7;
     randbelow := fun _ _ => 0%nat;
     raster := fun call px x y =>
       match call with
       | Ellipse (x0, y0, _, _) _ _ | Rectangle (x0, y0, _, _) _ _ =>
           if (x =? x0) && (y =? y0) then (255, 255, 255, 255) else px x y
       | Polygon ((x0, y0) :: _) _ _ =>
           if (x =? x0) && (y =? y0) then (255, 255, 255, 255) else px x y
       | Polygon [] _ _ => px x y
       end |}.

Definition demo_theme : ThemeConfig :=
  {| name := "cute_forest";
     description := "Adorable forest creatures";
     base_description := "cute small forest animal creature";
     mood_adjectives := ["friendly"; "cheerful"; "playful"; "curious"; "happy"];
     color_palette_hints := ["green and brown"; "orange and yellow"; "blue and white";
                             "pink and purple"; "red and brown"];
     background_color := "#2d5016" |}.


(** ** File names *)

Fixpoint all_chars (P : ascii -> bool) (s : string) : bool :=
  match s with
  | EmptyString => true
  | String c s' => P c && all_chars P s'
  end.

(** The characters of a formatted integer. *)
Definition numeric (c : ascii) : bool :=
  Ascii.eqb c "-" || ((48 <=? Z.of_nat (nat_of_ascii c)) && (Z.of_nat (nat_of_ascii c) <=? 57)).

Definition not_slash (c : ascii) : bool := negb (Ascii.eqb c "/").

(** A string that is one path component. *)
Definition plain (s : string) : bool :=
  all_chars not_slash s && negb (s =? "")%string && negb (s =? ".")%string.

(** The integer a string of digits, or a sign and digits, denotes. *)
Definition digits_value (s : string) : option Z :=
  option_map Z.of_uint (NilEmpty.uint_of_string s).

Definition int_value (s : string) : option Z :=
  match s with
  | String c s' =>
      if Ascii.eqb c "-" then option_map Z.opp (digits_value s') else digits_value s
  | EmptyString => None
  end.


(** The file names the two saving functions build. *)
Definition frame_filename (i variant_index : Z) : string :=
  if variant_index >? 0 then
    "frame_" ++ format_0d 2 i ++ "_variant_" ++ str variant_index ++ ".png"
  else "frame_" ++ format_0d 2 i ++ ".png".

Definition sheet_filename (animation_type : AnimationType) (variant_index : Z)
  (is_combined : bool) : string :=
  if is_combined then
    if variant_index >? 0 then "combined_variant_" ++ str variant_index ++ ".png"
    else "combined.png"
  else
    if variant_index >? 0 then
      value animation_type ++ "_variant_" ++ str variant_index ++ ".png"
    else value animation_type ++ ".png".

(** A file that is not a directory. *)
Definition is_file (o : option Node) : bool :=
  match o with
  | Some Directory | None => false
  | Some _ => true
  end.

Definition is_dir (o : option Node) : bool :=
  match o with
  | Some Directory => true
  | _ => false
  end.


(** No file stands where [mkdir] needs a directory. *)
Definition can_mkdir (d : Disk) (p : pathlib.Path) : bool :=
  forallb (fun q => negb (is_file (stat d (pathlib.mkPath (pathlib.root p) q))))
          (prefixes (pathlib.parts p)).

(** The paths of the frames of an animation, numbered from [i], and the
    disk after they are written. *)
Fixpoint frame_paths (dir : pathlib.Path) (v i : Z) (frames : list Image)
  : list pathlib.Path :=
  match frames with
  | [] => []
  | _ :: fs => (dir </> frame_filename i v) :: frame_paths dir v (i + 1) fs
  end.

Fixpoint written (dir : pathlib.Path) (v i : Z) (frames : list Image) (d : Disk) : Disk :=
  match frames with
  | [] => d
  | f :: fs => written dir v (i + 1) fs ((dir </> frame_filename i v, ImageFile f) :: d)
  end.


(** ** The showcase *)

(** The sheet files the showcase loads, in its order. *)
Definition showcase_keeps (file_name : string) : bool :=
  negb (contains "combined" file_name) && negb (contains "variant" file_name).

Definition showcase_files (d : Disk) (creature_dir : pathlib.Path) : list pathlib.Path :=
  filter (fun p => showcase_keeps (pathlib.name p))
    (sorted pathlib.name
       (filter (fun p => endswith (pathlib.name p) ".png")
          (iterdir d (creature_dir </> "sprite_sheets")))).

(** Sheets stacked from [y] downwards with a gap, and the offset of the
    [i]-th of them. *)
Fixpoint column_layout (sheets : list Image) (y spacing : Z) : list placement :=
  match sheets with
  | [] => []
  | s :: ss => (s, (0, y)) :: column_layout ss (y + (height s + spacing)) spacing
  end.

Fixpoint column_offset (sheets : list Image) (spacing : Z) (i : nat) : Z :=
  match i, sheets with
  | S i', s :: ss => height s + spacing + column_offset ss spacing i'
  | _, _ => 0
  end.

Definition showcase_background : Pixel := (26, 26, 26, 255).


(** A disk with the sheets of one creature: three base sheets of
    different sizes, a variant and the combined sheet. *)
Definition demo_sheets_dir : pathlib.Path :=
  pathlib.PurePath "out/creature_001/sprite_sheets".

Definition demo_disk : Disk :=
  [(demo_sheets_dir </> "walk.png", ImageFile (blank RGBA 4 1 (0, 0, 255, 255)));
   (demo_sheets_dir </> "idle_variant_1.png", ImageFile (blank RGBA 2 2 (9, 9, 9, 255)));
   (demo_sheets_dir </> "combined.png", ImageFile (blank RGBA 4 7 (7, 7, 7, 255)));
   (demo_sheets_dir </> "idle.png", ImageFile (blank RGBA 2 2 (0, 255, 0, 255)));
   (demo_sheets_dir </> "attack.png", ImageFile (blank RGBA 3 2 (255, 0, 0, 255)));
   (demo_sheets_dir, Directory);
   (pathlib.PurePath "out/creature_001", Directory);
   (pathlib.PurePath "out", Directory)].

Definition demo_base_sheets : list Image :=
  [blank RGBA 3 2 (255, 0, 0, 255); blank RGBA 2 2 (0, 255, 0, 255);
   blank RGBA 4 1 (0, 0, 255, 255)].


(** ** The assets of a creature *)

(** The directory of a creature is ready for its assets: no file stands
    in the way of the directory or of its sub-directories, and no
    directory stands where a file of a sub-directory goes. *)
Definition assets_ready (d : Disk) (creature_dir : pathlib.Path) : Prop :=
  can_mkdir d creature_dir = true /\
  (forall a, is_file (stat d (pathlib.mkPath (pathlib.root creature_dir)
                               (pathlib.parts creature_dir ++ [a]))) = false) /\
  (forall a b, is_dir (stat d (pathlib.mkPath (pathlib.root creature_dir)
                                 (pathlib.parts creature_dir ++ [a; b]))) = false).

(** A disk grows below depth [n] by the files [files]: entries are
    kept, directories appear where there was nothing, down to depth
    [n + 1], and the image files written are among [files], at depth
    [n + 2]. *)
Definition grows (n : nat) (files : list pathlib.Path) (d d' : Disk) : Prop :=
  forall x,
    stat d' x = stat d x \/
    (stat d x = None /\ stat d' x = Some Directory /\
     (length (pathlib.parts x) <= n + 1)%nat) \/
    (exists im, stat d' x = Some (ImageFile im) /\
                length (pathlib.parts x) = (n + 2)%nat /\ In x files).

(** The files [save_creature_assets] writes for a creature: the frames
    and the sheet of each animation, then the combined sheet. *)
Definition asset_paths (creature_dir : pathlib.Path) (variant_index : Z)
  (animation_frames : dict AnimationType (list Image)) : list pathlib.Path :=
  (flat_map (fun entry : AnimationType * list Image =>
               frame_paths (creature_dir </> value (fst entry)) variant_index 1 (snd entry)
               ++ [creature_dir </> "sprite_sheets"
                     </> sheet_filename (fst entry) variant_index false])
            animation_frames
   ++ [creature_dir </> "sprite_sheets" </> sheet_filename IDLE variant_index true])%list.

(** The relative path of a sheet, as the pipeline reports it. *)
Definition sheet_entry (pack_name creature_id file_name : string) : string :=
  String.concat "/" [pack_name; "creatures"; creature_id; "sprite_sheets"; file_name].

Definition demo_config : Config.GenerationConfig :=
  {| Config.pack_name := "demo"; Config.theme_name := "cute_forest";
     Config.resolution := (32, 32); Config.num_creatures := 1; Config.num_variants := 2;
     Config.output_dir := pathlib.PurePath "out"; Config.frames_per_animation := 4 |}.


(** The dictionary [save_creature_assets] returns: one entry per
    animation, in the order of the mapping, then the combined sheet. *)
Definition sheet_entries (pack_name creature_id : string) (variant_index : Z)
  (animation_frames : dict AnimationType (list Image)) : dict string string :=
  (map (fun entry : AnimationType * list Image =>
          (value (fst entry),
           sheet_entry pack_name creature_id
             (sheet_filename (fst entry) variant_index false)))
       animation_frames
   ++ [("combined",
        sheet_entry pack_name creature_id (sheet_filename IDLE variant_index true))])%list.


(** ** One creature of the pack *)

Definition creature_id_of (creature_index : Z) : string :=
  "creature_" ++ format_0d 3 (creature_index + 1).

(** The variant's colour transform is defined on every saturation. *)
Definition variant_defined (variant_index : Z) : Prop :=
  variant_index <= 0 \/
  exists f, variant_saturation_factor variant_index = Ok f /\ sat_defined f = true.


(** Something stands at the path. *)
Definition present (d : Disk) (p : pathlib.Path) : bool :=
  match stat d p with
  | Some _ => true
  | None => false
  end.

(** The directories listed under [creatures], and those of them that
    have the four directories of a creature. *)
Definition creature_dir_of (d : Disk) (pack_dir c : pathlib.Path) : Prop :=
  In c (iterdir d (pack_dir </> "creatures")) /\ stat d c = Some Directory.

Definition complete_creature (d : Disk) (c : pathlib.Path) : Prop :=
  forall subdir, In subdir ["idle"; "walk"; "attack"; "sprite_sheets"] ->
                 present d (c </> subdir) = true.

Definition demo_pack : Disk :=
  [(pathlib.PurePath "packs/demo/creatures/creature_000/sprite_sheets", Directory);
   (pathlib.PurePath "packs/demo/creatures/creature_000/attack", Directory);
   (pathlib.PurePath "packs/demo/creatures/creature_000/walk", Directory);
   (pathlib.PurePath "packs/demo/creatures/creature_000/idle", Directory);
   (pathlib.PurePath "packs/demo/creatures/creature_000", Directory);
   (pathlib.PurePath "packs/demo/creatures/notes.txt", TextFile "todo");
   (pathlib.PurePath "packs/demo/README.txt", TextFile "# demo");
   (pathlib.PurePath "packs/demo/metadata.json", TextFile "{}");
   (pathlib.PurePath "packs/demo/creatures", Directory);
   (pathlib.PurePath "packs/demo", Directory);
   (pathlib.PurePath "packs", Directory)].

(** * Properties *)

(** ** The error monad *)

Lemma bind_Ok {A B : Type} (r : result A) (k : A -> result B) (b : B) :
  bind r k = Ok b -> exists a, r = Ok a /\ k a = Ok b.
Proof.
  destruct r as [a | e]; simpl; intros H; [eauto | discriminate].
Qed.

Lemma for_append_nth {A B : Type} (f : A -> result B) (l : list A) (ys : list B) :
  for_append l f = Ok ys ->
  length ys = length l /\
  forall i x, nth_error l i = Some x ->
    exists y, nth_error ys i = Some y /\ f x = Ok y.
Proof.
  revert ys. induction l as [| a l IH]; simpl; intros ys H.
  - injection H as <-. split; [reflexivity |]. intros [| i] x Hx; discriminate.
  - apply bind_Ok in H. destruct H as (y & Hy & H).
    apply bind_Ok in H. destruct H as (ys' & Hys & H).
    injection H as <-. destruct (IH ys' Hys) as [Hlen Hnth].
    split; [simpl; congruence |].
    intros [| i] x Hx; simpl in *.
    + injection Hx as <-. eauto.
    + apply Hnth. exact Hx.
Qed.

Lemma for_append_total {A B : Type} (f : A -> result B) (g : A -> B) (l : list A) :
  (forall x, In x l -> f x = Ok (g x)) ->
  for_append l f = Ok (map g l).
Proof.
  induction l as [| a l IH]; simpl; intros H; [reflexivity |].
  rewrite (H a (or_introl eq_refl)). simpl.
  rewrite IH; [reflexivity |]. intros x Hx. apply H. right. exact Hx.
Qed.

(** Decide a goal made of integer comparisons. *)
Ltac zbool :=
  repeat match goal with
    | |- context [?a <=? ?b] => destruct (Z.leb_spec a b)
    | |- context [?a <? ?b] => destruct (Z.ltb_spec a b)
    | |- context [?a =? ?b] => destruct (Z.eqb_spec a b)
    end;
  cbn [andb orb negb]; try reflexivity; try lia; try nia.

(** ** Images and pastes *)

Lemma new_blank (m : Mode) (w h : Z) (color : Pixel) :
  0 <= w -> 0 <= h -> new m (w, h) color = Ok (blank m w h color).
Proof.
  intros Hw Hh. unfold new.
  destruct (w <? 0) eqn:Ew; [apply Z.ltb_lt in Ew; lia |].
  destruct (h <? 0) eqn:Eh; [apply Z.ltb_lt in Eh; lia |].
  reflexivity.
Qed.

Lemma new_inv (m : Mode) (sz : Z * Z) (color : Pixel) (im : Image) :
  new m sz color = Ok im ->
  im = blank m (fst sz) (snd sz) color /\ 0 <= fst sz /\ 0 <= snd sz.
Proof.
  destruct sz as [w h]. unfold new. simpl.
  destruct (w <? 0) eqn:Ew; simpl; [discriminate |].
  destruct (h <? 0) eqn:Eh; simpl; [discriminate |].
  apply Z.ltb_ge in Ew, Eh. intros H. injection H as <-. auto.
Qed.

(** Pasting a frame with the mask the composers give it never fails on an
    RGBA sheet. *)
Lemma paste_mask_of (dst frame : Image) (dx dy : Z) :
  mode dst = RGBA ->
  paste dst frame (dx, dy) (mask_of frame) = Ok (pasted dst frame dx dy).
Proof.
  destruct dst as [md wd hd ld], frame as [mf wf' hf lf]. simpl. intros ->.
  unfold paste, mask_of, pasted, paste_pixel, convert, inside.
  destruct mf; simpl; try reflexivity.
  rewrite !Z.eqb_refl. reflexivity.
Qed.

Lemma in_byte_values (c : Z) : 0 <= c <= 255 -> In c byte_values.
Proof.
  intros Hc. unfold byte_values. apply in_map_iff. exists (Z.to_nat c).
  split; [lia |]. apply in_seq. lia.
Qed.

Lemma div255_exact (c : Z) : 0 <= c <= 255 -> div255 (c * 255) = c.
Proof.
  intros Hc.
  assert (Hall : forallb (fun c => div255 (c * 255) =? c) byte_values = true)
    by (vm_compute; reflexivity).
  rewrite forallb_forall in Hall. apply Z.eqb_eq. apply Hall.
  apply in_byte_values. exact Hc.
Qed.

(** An opaque pixel of an RGBA frame replaces the pixel underneath, a
    fully transparent one leaves it. *)
Lemma blend_opaque (under : Pixel) (r g b : Z) :
  0 <= r <= 255 -> 0 <= g <= 255 -> 0 <= b <= 255 ->
  blend_pixel 255 under (r, g, b, 255) = (r, g, b, 255).
Proof.
  intros Hr Hg Hb. destruct under as [[[r0 g0] b0] a0].
  unfold blend_pixel, blend.
  rewrite !Z.sub_diag, !Z.mul_0_r, !Z.add_0_l, !div255_exact by lia.
  reflexivity.
Qed.

Lemma blend_transparent (r0 g0 b0 a0 r g b : Z) :
  0 <= r0 <= 255 -> 0 <= g0 <= 255 -> 0 <= b0 <= 255 -> 0 <= a0 <= 255 ->
  blend_pixel 0 (r0, g0, b0, a0) (r, g, b, 0) = (r0, g0, b0, a0).
Proof.
  intros Hr Hg Hb Ha. unfold blend_pixel, blend.
  rewrite !Z.sub_0_r, !Z.mul_0_r, !Z.add_0_r, !div255_exact by lia.
  reflexivity.
Qed.

Lemma paste_all_shape (ps : list placement) (sheet : Image) :
  mode (paste_all ps sheet) = mode sheet /\
  width (paste_all ps sheet) = width sheet /\
  height (paste_all ps sheet) = height sheet.
Proof.
  revert sheet. induction ps as [| p ps IH]; intros sheet; simpl; [auto |].
  destruct (IH (pasted sheet (fst p) (fst (snd p)) (snd (snd p)))) as (Hm & Hw & Hh).
  simpl in *. auto.
Qed.

Lemma inside_paste_all (ps : list placement) (sheet : Image) (x y : Z) :
  inside (paste_all ps sheet) x y = inside sheet x y.
Proof.
  unfold inside. destruct (paste_all_shape ps sheet) as (_ & -> & ->). reflexivity.
Qed.

(** A pixel no placement covers keeps the sheet's value. *)
Lemma paste_all_untouched (ps : list placement) (sheet : Image) (x y : Z) :
  (forall p, In p ps -> covers p x y = false) ->
  load (paste_all ps sheet) x y = load sheet x y.
Proof.
  revert sheet. induction ps as [| p ps IH]; intros sheet H; simpl; [reflexivity |].
  rewrite IH by (intros q Hq; apply H; right; exact Hq).
  simpl. specialize (H p (or_introl eq_refl)). unfold covers in H.
  rewrite H, andb_false_r. reflexivity.
Qed.

(** A pixel covered by exactly one placement shows that frame's pixel
    pasted over the sheet's. *)
Lemma paste_all_at (ps : list placement) (sheet : Image) (i : nat) (p : placement)
  (x y : Z) :
  nth_error ps i = Some p ->
  (forall j q, j <> i -> nth_error ps j = Some q -> covers q x y = false) ->
  inside sheet x y = true ->
  covers p x y = true ->
  load (paste_all ps sheet) x y
  = paste_pixel (fst p) (x - fst (snd p)) (y - snd (snd p)) (load sheet x y).
Proof.
  revert sheet i. induction ps as [| q ps IH]; intros sheet i Hi Hother Hin Hcov.
  - destruct i; discriminate.
  - destruct i as [| i]; simpl in Hi |- *.
    + injection Hi as ->.
      rewrite paste_all_untouched.
      * simpl. unfold covers in Hcov. rewrite Hin, Hcov. reflexivity.
      * intros r Hr. apply In_nth_error in Hr. destruct Hr as [j Hj].
        apply (Hother (S j)); [discriminate | exact Hj].
    + rewrite (IH _ i Hi).
      * simpl. pose proof (Hother O q) as Hq.
        unfold covers in Hq. rewrite Hq by (discriminate || reflexivity).
        rewrite andb_false_r. reflexivity.
      * intros j r Hj Hr. apply (Hother (S j)); [congruence | exact Hr].
      * exact Hin.
      * exact Hcov.
Qed.

(** *** The row loop *)

Lemma row_layout_nth (frames : list Image) (x0 y step : Z) (i : nat) :
  nth_error (row_layout frames x0 y step) i
  = option_map (fun f => (f, (x0 + Z.of_nat i * step, y))) (nth_error frames i).
Proof.
  revert x0 i. induction frames as [| f fs IH]; intros x0 [| i]; try reflexivity.
  - cbn [row_layout nth_error option_map]. rewrite Z.add_0_r. reflexivity.
  - cbn [row_layout nth_error]. rewrite IH. destruct (nth_error fs i); [| reflexivity].
    cbn [option_map]. replace (x0 + step + Z.of_nat i * step) with (x0 + Z.of_nat (S i) * step) by lia.
    reflexivity.
Qed.

Lemma row_loop (frames : list Image) (y step x0 : Z) (sheet : Image) :
  mode sheet = RGBA ->
  for_each frames
    (fun '(sheet, x_offset) frame =>
       sheet <- paste sheet frame (x_offset, y) (mask_of frame) ;;
       Ok (sheet, x_offset + step))
    (sheet, x0)
  = Ok (paste_all (row_layout frames x0 y step) sheet, x0 + len frames * step).
Proof.
  revert x0 sheet. induction frames as [| f fs IH]; intros x0 sheet Hm.
  - simpl. unfold len. simpl. do 2 f_equal. lia.
  - cbn [for_each]. rewrite paste_mask_of by exact Hm. cbn [bind].
    rewrite IH by exact Hm. cbn [row_layout paste_all fold_left fst snd].
    do 2 f_equal. unfold len. cbn [length]. lia.
Qed.

(** *** The animation sheet *)

Lemma animation_sheet_eq (f0 : Image) (fs : list Image) (spacing : Z) (bg : Pixel) :
  0 <= len (f0 :: fs) * width f0 + (len (f0 :: fs) - 1) * spacing ->
  0 <= height f0 ->
  create_animation_sprite_sheet (f0 :: fs) spacing bg
  = Ok (paste_all (row_layout (f0 :: fs) 0 0 (width f0 + spacing))
          (blank RGBA (len (f0 :: fs) * width f0 + (len (f0 :: fs) - 1) * spacing)
                 (height f0) bg)).
Proof.
  intros Hw Hh. unfold create_animation_sprite_sheet.
  cbn [is_empty getitem nth_error bind size].
  rewrite new_blank by assumption. cbn [bind].
  rewrite row_loop by reflexivity. reflexivity.
Qed.

(** Frames of one size, laid out with a non-negative gap, do not overlap:
    inside the columns of frame [i] only frame [i] is seen. *)
Lemma row_pixel (frames : list Image) (W H s x0 y0 : Z) (sheet : Image)
  (i : nat) (f : Image) (u v : Z) :
  0 <= s ->
  (forall g, In g frames -> width g = W /\ height g = H) ->
  nth_error frames i = Some f ->
  0 <= u < W -> 0 <= v < H ->
  inside sheet (x0 + Z.of_nat i * (W + s) + u) (y0 + v) = true ->
  load (paste_all (row_layout frames x0 y0 (W + s)) sheet)
       (x0 + Z.of_nat i * (W + s) + u) (y0 + v)
  = paste_pixel f u v (load sheet (x0 + Z.of_nat i * (W + s) + u) (y0 + v)).
Proof.
  intros Hs Hsize Hi Hu Hv Hin.
  destruct (Hsize f (nth_error_In _ _ Hi)) as [Hwf Hhf].
  rewrite (paste_all_at _ _ i (f, (x0 + Z.of_nat i * (W + s), y0))).
  - cbn [fst snd]. f_equal; lia.
  - rewrite row_layout_nth, Hi. reflexivity.
  - intros j q Hj Hq. rewrite row_layout_nth in Hq.
    destruct (nth_error frames j) as [g |] eqn:Eg; [| discriminate].
    injection Hq as <-. destruct (Hsize g (nth_error_In _ _ Eg)) as [Hwg Hhg].
    unfold covers, inside. cbn [fst snd]. rewrite Hwg.
    assert (Hlt : (j < i)%nat \/ (i < j)%nat) by lia.
    destruct Hlt as [Hlt | Hlt].
    + replace (x0 + Z.of_nat i * (W + s) + u - (x0 + Z.of_nat j * (W + s)))
        with (Z.of_nat (i - j) * (W + s) + u) by nia.
      assert (1 <= Z.of_nat (i - j)) by lia.
      destruct (Z.of_nat (i - j) * (W + s) + u <? W) eqn:E; [apply Z.ltb_lt in E; nia |].
      now rewrite andb_false_r.
    + replace (x0 + Z.of_nat i * (W + s) + u - (x0 + Z.of_nat j * (W + s)))
        with (u - Z.of_nat (j - i) * (W + s)) by nia.
      assert (1 <= Z.of_nat (j - i)) by lia.
      destruct (0 <=? u - Z.of_nat (j - i) * (W + s)) eqn:E; [apply Z.leb_le in E; nia |].
      reflexivity.
  - exact Hin.
  - unfold covers, inside. cbn [fst snd]. rewrite Hwf, Hhf.
    replace (x0 + Z.of_nat i * (W + s) + u - (x0 + Z.of_nat i * (W + s))) with u by lia.
    replace (y0 + v - y0) with v by lia.
    destruct (Z.leb_spec 0 u), (Z.ltb_spec u W), (Z.leb_spec 0 v), (Z.ltb_spec v H);
      try lia; reflexivity.
Qed.

Lemma len_cons {A : Type} (a : A) (l : list A) : len (a :: l) = len l + 1.
Proof. unfold len. cbn [length]. lia. Qed.

Lemma len_nonneg {A : Type} (l : list A) : 0 <= len l.
Proof. unfold len. lia. Qed.

Lemma nth_error_len {A : Type} (l : list A) (i : nat) (a : A) :
  nth_error l i = Some a -> Z.of_nat i < len l.
Proof.
  intros H. unfold len. apply Nat2Z.inj_lt. apply nth_error_Some. congruence.
Qed.

(** C6: an animation sheet of [N] frames of size [(W, H)] with gap
    [spacing >= 0] is [N*W + (N-1)*spacing] wide and [H] high; frame [i]
    is pasted, in input order, with its top-left corner at
    [(i*(W+spacing), 0)], and the gaps show the background. *)
Theorem animation_sheet_layout (frames : list Image) (spacing W H : Z) (bg : Pixel) :
  frames <> [] ->
  0 <= spacing -> 0 <= W -> 0 <= H ->
  (forall f, In f frames -> width f = W /\ height f = H) ->
  exists sheet,
    create_animation_sprite_sheet frames spacing bg = Ok sheet /\
    width sheet = len frames * W + (len frames - 1) * spacing /\
    height sheet = H /\
    (forall i f u v,
        nth_error frames i = Some f -> 0 <= u < W -> 0 <= v < H ->
        load sheet (Z.of_nat i * (W + spacing) + u) v = paste_pixel f u v bg) /\
    (forall x y,
        (forall i, (i < length frames)%nat ->
                   ~ (Z.of_nat i * (W + spacing) <= x < Z.of_nat i * (W + spacing) + W)) ->
        load sheet x y = bg).
Proof.
  intros Hne Hs HW HH Hsize.
  destruct frames as [| f0 fs]; [congruence |].
  destruct (Hsize f0 (or_introl eq_refl)) as [Hw0 Hh0].
  assert (Htw : 0 <= len (f0 :: fs) * width f0 + (len (f0 :: fs) - 1) * spacing).
  { rewrite len_cons. pose proof (len_nonneg fs). nia. }
  eexists. split; [apply animation_sheet_eq; [exact Htw | lia] |].
  destruct (paste_all_shape
              (row_layout (f0 :: fs) 0 0 (width f0 + spacing))
              (blank RGBA (len (f0 :: fs) * width f0 + (len (f0 :: fs) - 1) * spacing)
                     (height f0) bg)) as (_ & Hw & Hh).
  rewrite Hw, Hh, Hw0, Hh0. cbn [blank width height].
  split; [reflexivity |]. split; [reflexivity |]. split.
  - intros i f u v Hi Hu Hv.
    pose proof (row_pixel (f0 :: fs) W H spacing 0 0
                  (blank RGBA (len (f0 :: fs) * W + (len (f0 :: fs) - 1) * spacing) H bg)
                  i f u v Hs Hsize Hi Hu Hv) as Hpx.
    cbn [Z.add] in Hpx. apply Hpx.
    pose proof (nth_error_len _ _ _ Hi) as Hlen.
    unfold inside. cbn [blank width height].
    destruct (Z.leb_spec 0 (Z.of_nat i * (W + spacing) + u)); [| nia].
    destruct (Z.ltb_spec (Z.of_nat i * (W + spacing) + u)
                (len (f0 :: fs) * W + (len (f0 :: fs) - 1) * spacing)); [| nia].
    destruct (Z.leb_spec 0 v), (Z.ltb_spec v H); try lia; reflexivity.
  - intros x y Hgap. rewrite paste_all_untouched; [reflexivity |].
    intros p Hp. apply In_nth_error in Hp. destruct Hp as [i Hi].
    rewrite row_layout_nth in Hi.
    destruct (nth_error (f0 :: fs) i) as [g |] eqn:Eg; [| discriminate].
    injection Hi as <-. destruct (Hsize g (nth_error_In _ _ Eg)) as [Hwg Hhg].
    assert (Hil : (i < length (f0 :: fs))%nat) by (apply nth_error_Some; congruence).
    specialize (Hgap i Hil).
    unfold covers, inside. cbn [fst snd]. rewrite Hwg.
    assert (Hx : ~ (0 <= x - (0 + Z.of_nat i * (W + spacing)) < W)) by lia.
    revert Hx. generalize (x - (0 + Z.of_nat i * (W + spacing))). intros z Hz. zbool.
Qed.

(** ** Upscaling *)

(** The source column under the centre of output column [i*k + u]. *)
Lemma nearest_index (n k i u : Z) :
  1 <= n -> 1 <= k -> 0 <= u < k ->
  ((2 * (i * k + u) + 1) * n) / (2 * (n * k)) = i.
Proof.
  intros Hn Hk Hu. symmetry.
  apply (Z.div_unique_pos _ _ i (n * (2 * u + 1))); nia.
Qed.

Lemma upscale_eq (image : Image) (k : Z) :
  1 <= k ->
  (1 <= width image /\ 1 <= height image) \/ (width image = 0 /\ height image = 0) ->
  upscale_nearest_neighbor image k = Ok (upscaled image k).
Proof.
  intros Hk Hsz. unfold upscale_nearest_neighbor, resize_nearest, upscaled.
  destruct ((width image =? width image * k) && (height image =? height image * k)) eqn:E;
    [reflexivity |].
  destruct ((width image * k <? 1) || (height image * k <? 1)) eqn:E'; [| reflexivity].
  exfalso. destruct Hsz as [[HW HH] | [HW HH]].
  - apply orb_true_iff in E'. destruct E' as [E' | E']; apply Z.ltb_lt in E'; nia.
  - rewrite HW, HH in E. discriminate.
Qed.

Lemma upscaled_spec (image : Image) (k : Z) :
  1 <= k ->
  mode (upscaled image k) = mode image /\
  width (upscaled image k) = width image * k /\
  height (upscaled image k) = height image * k /\
  forall i j u v,
    0 <= i < width image -> 0 <= j < height image ->
    0 <= u < k -> 0 <= v < k ->
    load (upscaled image k) (i * k + u) (j * k + v) = load image i j.
Proof.
  intros Hk. unfold upscaled.
  destruct ((width image =? width image * k) && (height image =? height image * k)) eqn:E.
  - apply andb_true_iff in E. destruct E as [E1 E2].
    apply Z.eqb_eq in E1, E2.
    repeat split; try assumption.
    intros i j u v Hi Hj Hu Hv.
    assert (k = 1) by nia. subst k. f_equal; lia.
  - cbn [mode width height load]. repeat split.
    intros i j u v Hi Hj Hu Hv.
    rewrite !nearest_index by lia. reflexivity.
Qed.

(** C7: upscaling a [W x H] image by an integer factor [k >= 1] gives a
    [W*k x H*k] image of the same mode in which the [k x k] block of source
    pixel [(i, j)] is constant and equal to that pixel. *)
Theorem upscale_blocks (image : Image) (k : Z) :
  1 <= k -> 1 <= width image -> 1 <= height image ->
  exists out,
    upscale_nearest_neighbor image k = Ok out /\
    width out = width image * k /\
    height out = height image * k /\
    mode out = mode image /\
    forall i j u v,
      0 <= i < width image -> 0 <= j < height image ->
      0 <= u < k -> 0 <= v < k ->
      load out (i * k + u) (j * k + v) = load image i j.
Proof.
  intros Hk HW HH. exists (upscaled image k).
  split; [apply upscale_eq; [exact Hk | left; split; assumption] |].
  destruct (upscaled_spec image k Hk) as (Hm & Hw & Hh & Hpx).
  repeat split; assumption.
Qed.

(** ** Empty inputs *)

(** C8: on an empty list (or mapping) every composer raises [ValueError]
    at once; the preview builder moreover leaves the storage untouched. *)
Theorem empty_inputs_raise :
  (forall spacing bg,
      create_animation_sprite_sheet [] spacing bg
      = Raise (ValueError "Cannot create sprite sheet from empty frame list")) /\
  (forall spacing bg,
      create_combined_sprite_sheet [] spacing bg
      = Raise (ValueError "Cannot create combined sprite sheet from empty animations")) /\
  (forall cols spacing bg,
      create_grid_layout [] cols spacing bg
      = Raise (ValueError "Cannot create grid from empty image list")) /\
  (forall te meta scale cols output_path fs,
      create_pack_preview te [] meta scale cols output_path fs
      = (Raise (ValueError "Cannot create preview from empty sprite sheet list"), fs)).
Proof.
  repeat split.
Qed.

(** ** Colour variants *)

Lemma mode_eqb_eq (a b : Mode) : mode_eqb a b = true <-> a = b.
Proof. destruct a, b; simpl; split; intros H; congruence. Qed.

Lemma convert_spec (im : Image) (m : Mode) (out : Image) :
  convert im m = Ok out ->
  mode out = m /\ width out = width im /\ height out = height im /\
  forall x y, load out x y = conv_pixel (mode im) m (load im x y).
Proof.
  unfold convert, conv_pixel. destruct (mode_eqb (mode im) m) eqn:E.
  - intros H. injection H as <-. apply mode_eqb_eq in E. auto.
  - destruct (mode im), m; try discriminate; intros H; injection H as <-;
      simpl; auto.
Qed.

Lemma convert_defined (im : Image) (m : Mode) :
  m <> HSV \/ mode im <> L ->
  exists out, convert im m = Ok out.
Proof.
  unfold convert. intros H. destruct (mode_eqb (mode im) m); [eauto |].
  destruct (mode im), m; eauto; destruct H; congruence.
Qed.

Lemma clip8_range (v : Z) : 0 <= clip8 v <= 255.
Proof. unfold clip8. zbool. Qed.

Lemma rgb2hsv_range (r g b : Z) :
  0 <= fst (fst (rgb2hsv r g b)) <= 255 /\ 0 <= snd (fst (rgb2hsv r g b)) <= 255.
Proof.
  unfold rgb2hsv. destruct (Z.min r (Z.min g b) =? Z.max r (Z.max g b)).
  - simpl. lia.
  - cbv zeta. cbn [fst snd]. split; apply clip8_range.
Qed.

Lemma getdata_nth (im : Image) (x y : Z) :
  inside im x y = true ->
  nth_error (getdata im) (Z.to_nat (y * width im + x))
  = Some (let '(a, b, c, _) := load im x y in (a, b, c)).
Proof.
  unfold inside, getdata. intros H.
  apply andb_true_iff in H. destruct H as [H Hy2].
  apply andb_true_iff in H. destruct H as [H Hy1].
  apply andb_true_iff in H. destruct H as [Hx1 Hx2].
  apply Z.leb_le in Hx1, Hy1. apply Z.ltb_lt in Hx2, Hy2.
  rewrite nth_error_map, nth_error_seq.
  destruct (Nat.ltb_spec (Z.to_nat (y * width im + x)) (Z.to_nat (width im * height im)))
    as [Hlt | Hge]; [| exfalso; nia].
  cbn [option_map Nat.add]. rewrite Z2Nat.id by nia.
  replace ((y * width im + x) mod width im) with x
    by (apply (Z.mod_unique_pos _ _ y); lia).
  replace ((y * width im + x) / width im) with y
    by (apply (Z.div_unique_pos _ _ y x); lia).
  reflexivity.
Qed.

Lemma float_of_int_inv (n : Z) (f : py_float) :
  float_of_int n = Ok f -> f = Float.B64.of_int n.
Proof.
  unfold float_of_int. destruct (Float.is_finite (Float.B64.of_int n)); congruence.
Qed.

Lemma int_of_float_inv (x : py_float) (z : Z) :
  int_of_float x = Ok z -> z = Float.trunc x.
Proof.
  destruct x; simpl; congruence.
Qed.

Lemma sat_defined_at (f : py_float) (s : Z) :
  sat_defined f = true -> 0 <= s <= 255 ->
  (fs <- float_of_int s ;; int_of_float (Float.B64.mul fs f))
  = Ok (Float.trunc (Float.B64.mul (Float.B64.of_int s) f)).
Proof.
  intros Hd Hs. unfold sat_defined in Hd. rewrite forallb_forall in Hd.
  specialize (Hd s (in_byte_values s Hs)).
  destruct (float_of_int s) as [fs | e] eqn:E1; [| discriminate].
  apply float_of_int_inv in E1. subst fs. cbn [bind] in *.
  destruct (int_of_float (Float.B64.mul (Float.B64.of_int s) f)) as [z | e] eqn:E2;
    [| discriminate].
  apply int_of_float_inv in E2. congruence.
Qed.

Lemma variant_body_inv (hue : Z) (f : py_float) (hsv new : Z * Z * Z) :
  (let '(h, s, v) := hsv in
   bind (float_of_int s) (fun fs =>
   bind (int_of_float (Float.B64.mul fs f)) (fun si =>
   Ok ((h + hue) mod 256, Z.min 255 (Z.max 0 si), v)))) = Ok new ->
  new = shift_hsv hue f hsv.
Proof.
  destruct hsv as [[h s] v]. intros H.
  apply bind_Ok in H. destruct H as (fs & Hfs & H).
  apply bind_Ok in H. destruct H as (si & Hsi & H).
  apply float_of_int_inv in Hfs. subst fs.
  apply int_of_float_inv in Hsi. subst si.
  injection H as <-. reflexivity.
Qed.

Lemma split_alpha (im : Image) :
  mode im = RGBA -> getitem (split im) 3 = Ok (getband im 3).
Proof.
  intros H. unfold split. rewrite H. reflexivity.
Qed.

Lemma apply_color_variant_spec (im : Image) (hue : Z) (f : py_float) (out : Image) :
  apply_color_variant im hue f = Ok out ->
  mode out = RGBA /\ width out = width im /\ height out = height im /\
  forall x y, inside im x y = true ->
    load out x y = variant_pixel (mode im) hue f (load im x y).
Proof.
  unfold apply_color_variant. intros H.
  apply bind_Ok in H. destruct H as (rgb & Hrgb & H).
  apply bind_Ok in H. destruct H as (hsv & Hhsv & H).
  apply bind_Ok in H. destruct H as (alpha & Halpha & H).
  apply bind_Ok in H. destruct H as (data & Hdata & H).
  apply bind_Ok in H. destruct H as (res & Hres & H).
  apply convert_spec in Hrgb. destruct Hrgb as (Mrgb & Wrgb & Hgtrgb & Lrgb).
  apply convert_spec in Hhsv. destruct Hhsv as (Mhsv & Whsv & Hgthsv & Lhsv).
  apply convert_spec in Hres. destruct Hres as (Mres & Wres & Hgtres & Lres).
  cbn [putdata mode width height] in Mres, Wres, Hgtres, Lres.
  rewrite Mrgb in Lhsv. rewrite Mhsv in Lres.
  apply for_append_nth in Hdata. destruct Hdata as [_ Hdata].
  assert (Hpix : forall x y, inside im x y = true ->
            load res x y =
            let '(r, g, b, _) := conv_pixel (mode im) RGB (load im x y) in
            let '(h', s', v') := shift_hsv hue f (rgb2hsv r g b) in
            let '(r', g', b') := hsv2rgb h' s' v' in (r', g', b', 255)).
  { intros x y Hin.
    assert (Hin' : inside hsv x y = true).
    { unfold inside in *. rewrite Whsv, Hgthsv, Wrgb, Hgtrgb. exact Hin. }
    rewrite Lres. cbn [load putdata]. rewrite Hin'.
    pose proof (getdata_nth hsv x y Hin') as Hg.
    destruct (Hdata _ _ Hg) as (new & Hnew & Hbody).
    rewrite Hnew. rewrite Lhsv, Lrgb in Hbody.
    destruct (conv_pixel (mode im) RGB (load im x y)) as [[[r g] b] d].
    unfold conv_pixel in Hbody. cbn [mode_eqb from_rgb to_rgb] in Hbody.
    destruct (rgb2hsv r g b) as [[h s] v] eqn:Ehsv.
    apply (variant_body_inv hue f (h, s, v)) in Hbody. subst new.
    cbn [shift_hsv]. unfold conv_pixel. cbn [mode_eqb from_rgb to_rgb].
    destruct (hsv2rgb _ _ _) as [[r' g'] b']. reflexivity. }
  destruct (mode_eqb (mode im) RGBA) eqn:Em.
  - apply mode_eqb_eq in Em.
    rewrite split_alpha in Halpha by exact Em. cbn [bind] in Halpha.
    injection Halpha as <-.
    apply bind_Ok in H. destruct H as (res2 & Hres2 & H).
    apply convert_spec in Hres2. destruct Hres2 as (M2 & W2 & Hgt2 & L2).
    rewrite Mres in L2.
    unfold putalpha in H. cbn [getband mode width height load] in H.
    unfold convert in H. rewrite M2 in H. cbn [mode_eqb bind] in H.
    rewrite W2, Hgt2, Wres, Hgtres, Whsv, Hgthsv, Wrgb, Hgtrgb, !Z.eqb_refl in H.
    cbn [andb] in H. injection H as <-. cbn [mode width height load].
    repeat split; try congruence.
    intros x y Hin. rewrite L2, (Hpix x y Hin).
    unfold variant_pixel. rewrite Em.
    destruct (conv_pixel RGBA RGB (load im x y)) as [[[r g] b] d].
    destruct (shift_hsv hue f (rgb2hsv r g b)) as [[h' s'] v'].
    destruct (hsv2rgb h' s' v') as [[r' g'] b'].
    reflexivity.
  - injection Halpha as <-.
    apply convert_spec in H. destruct H as (M2 & W2 & Hgt2 & L2).
    rewrite Mres in L2.
    repeat split; try congruence.
    intros x y Hin. rewrite L2, (Hpix x y Hin).
    unfold variant_pixel.
    destruct (conv_pixel (mode im) RGB (load im x y)) as [[[r g] b] d].
    destruct (shift_hsv hue f (rgb2hsv r g b)) as [[h' s'] v'].
    destruct (hsv2rgb h' s' v') as [[r' g'] b'].
    destruct (mode im); try reflexivity. discriminate.
Qed.

Lemma variant_body_defined (hue : Z) (f : py_float) (r g b : Z) :
  sat_defined f = true ->
  (let '(h, s, v) := rgb2hsv r g b in
   bind (float_of_int s) (fun fs =>
   bind (int_of_float (Float.B64.mul fs f)) (fun si =>
   Ok ((h + hue) mod 256, Z.min 255 (Z.max 0 si), v))))
  = Ok (shift_hsv hue f (rgb2hsv r g b)).
Proof.
  intros Hd. pose proof (rgb2hsv_range r g b) as [_ Hs].
  destruct (rgb2hsv r g b) as [[h s] v]. cbn [fst snd] in Hs.
  pose proof (sat_defined_at f s Hd Hs) as E.
  destruct (float_of_int s) as [fs | e]; [| discriminate].
  cbn [bind] in *. rewrite E. reflexivity.
Qed.

Lemma apply_color_variant_defined (im : Image) (hue : Z) (f : py_float) :
  sat_defined f = true ->
  exists out, apply_color_variant im hue f = Ok out.
Proof.
  intros Hd. unfold apply_color_variant.
  destruct (convert_defined im RGB) as [rgb Hrgb]; [left; discriminate |].
  rewrite Hrgb. cbn [bind].
  apply convert_spec in Hrgb. destruct Hrgb as (Mrgb & Wrgb & Hgtrgb & Lrgb).
  destruct (convert_defined rgb HSV) as [hsv Hhsv]; [right; congruence |].
  rewrite Hhsv. cbn [bind].
  apply convert_spec in Hhsv. destruct Hhsv as (Mhsv & Whsv & Hgthsv & Lhsv).
  rewrite Mrgb in Lhsv.
  rewrite (for_append_total _ (shift_hsv hue f)).
  2:{ intros t Ht. unfold getdata in Ht. apply in_map_iff in Ht.
      destruct Ht as (i & <- & _). rewrite Lhsv.
      destruct (load rgb _ _) as [[[r g] b] d].
      unfold conv_pixel. cbn [mode_eqb from_rgb to_rgb].
      pose proof (variant_body_defined hue f r g b Hd) as E.
      destruct (rgb2hsv r g b) as [[h s] v]. exact E. }
  destruct (convert_defined (putdata hsv (map (shift_hsv hue f) (getdata hsv))) RGB)
    as [res Hres]; [left; discriminate |].
  destruct (convert_defined res RGBA) as [res2 Hres2]; [left; discriminate |].
  pose proof Hres as Hres'. pose proof Hres2 as Hres2'.
  apply convert_spec in Hres'. destruct Hres' as (Mres & Wres & Hgtres & _).
  apply convert_spec in Hres2'. destruct Hres2' as (M2 & W2 & Hgt2 & _).
  cbn [putdata mode width height] in Wres, Hgtres.
  destruct (mode_eqb (mode im) RGBA) eqn:Em.
  - apply mode_eqb_eq in Em. rewrite split_alpha by exact Em.
    cbn [bind]. rewrite Hres. cbn [bind]. rewrite Hres2. cbn [bind].
    unfold putalpha. cbn [getband mode width height load].
    unfold convert. rewrite M2. cbn [mode_eqb bind].
    rewrite W2, Hgt2, Wres, Hgtres, Whsv, Hgthsv, Wrgb, Hgtrgb, !Z.eqb_refl.
    cbn [andb]. eauto.
  - cbn [bind]. rewrite Hres. cbn [bind]. rewrite Hres2. eauto.
Qed.

Lemma shift_hsv_value (hue_shift : Z) (f : py_float) (hsv : Z * Z * Z) :
  snd (shift_hsv hue_shift f hsv) = snd hsv.
Proof. destruct hsv as [[h s] v]. reflexivity. Qed.

Lemma variant_pixel_alpha (m : Mode) (hue_shift : Z) (f : py_float) (p : Pixel) :
  band 3 (variant_pixel m hue_shift f p) = alpha_of m p.
Proof.
  unfold variant_pixel.
  destruct (conv_pixel m RGB p) as [[[r g] b] d].
  destruct (shift_hsv hue_shift f (rgb2hsv r g b)) as [[h' s'] v'].
  destruct (hsv2rgb h' s' v') as [[r' g'] b']. reflexivity.
Qed.

(** C4: whatever the hue shift and the saturation factor, the image
    [apply_color_variant] returns has the input's size and, pixel for
    pixel, the input's alpha (fully opaque for a mode without alpha); the
    colour of a pixel is its HSV value with the hue shifted, the saturation
    scaled and the value band kept.  It returns for every factor whose
    products with the saturation levels 0..255 are finite floats. *)
Theorem variant_preserves_size_and_alpha (base_image : Image) (hue_shift : Z)
  (saturation_factor : py_float) :
  (sat_defined saturation_factor = true ->
   exists out, apply_color_variant base_image hue_shift saturation_factor = Ok out) /\
  (forall out,
      apply_color_variant base_image hue_shift saturation_factor = Ok out ->
      width out = width base_image /\
      height out = height base_image /\
      forall x y, inside base_image x y = true ->
        band 3 (load out x y) = alpha_of (mode base_image) (load base_image x y) /\
        load out x y
        = variant_pixel (mode base_image) hue_shift saturation_factor
            (load base_image x y)) /\
  (forall hsv, snd (shift_hsv hue_shift saturation_factor hsv) = snd hsv).
Proof.
  split; [apply apply_color_variant_defined |].
  split; [| apply shift_hsv_value].
  intros out H. apply apply_color_variant_spec in H.
  destruct H as (_ & Hw & Hh & Hpx).
  split; [exact Hw |]. split; [exact Hh |].
  intros x y Hin. rewrite (Hpx x y Hin).
  split; [apply variant_pixel_alpha | reflexivity].
Qed.

(** C4 on a half-transparent pixel, hue shift 60, factor 1.2. *)
Lemma variant_preserves_size_and_alpha_witness :
  exists out,
    apply_color_variant (one_pixel (200, 40, 10, 77)) 60 lit_1_2 = Ok out /\
    width out = 1 /\ height out = 1 /\ band 3 (load out 0 0) = 77.
Proof.
  destruct (variant_preserves_size_and_alpha (one_pixel (200, 40, 10, 77)) 60 lit_1_2)
    as (Hdef & Hspec & _).
  destruct (Hdef eq_refl) as [out Hout].
  exists out. split; [exact Hout |].
  destruct (Hspec out Hout) as (Hw & Hh & Hpx).
  split; [exact Hw |]. split; [exact Hh |].
  destruct (Hpx 0 0 eq_refl) as [Ha _]. exact Ha.
Defined.

(** *** Hue 0 and factor 1.0 *)

Lemma scale_by_one (s : Z) :
  0 <= s <= 255 ->
  Float.trunc (Float.B64.mul (Float.B64.of_int s) lit_1_0) = s.
Proof.
  intros Hs.
  assert (Hall : forallb
            (fun s => Float.trunc (Float.B64.mul (Float.B64.of_int s) lit_1_0) =? s)
            byte_values = true) by (vm_compute; reflexivity).
  rewrite forallb_forall in Hall. apply Z.eqb_eq. apply Hall.
  apply in_byte_values. exact Hs.
Qed.

Lemma shift_hsv_neutral (r g b : Z) :
  shift_hsv 0 lit_1_0 (rgb2hsv r g b) = rgb2hsv r g b.
Proof.
  pose proof (rgb2hsv_range r g b) as [Hh Hs].
  destruct (rgb2hsv r g b) as [[h s] v]. cbn [fst snd] in Hh, Hs.
  unfold shift_hsv. rewrite scale_by_one by exact Hs.
  rewrite Z.add_0_r, Z.mod_small by lia.
  repeat f_equal. lia.
Qed.

Lemma round_trip_grey (v : Z) : round_trip v v v = (v, v, v).
Proof.
  unfold round_trip, rgb2hsv.
  rewrite !Z.max_id, !Z.min_id, Z.eqb_refl. reflexivity.
Qed.

(** C3, as the code has it: with hue shift 0 and factor 1.0 the transform
    in HSV space is neutral, so the output is the input taken through
    Pillow's RGB -> HSV -> RGB conversions, with its alpha; a pixel is
    unchanged exactly when its colour survives that round trip, as every
    grey does. *)
Theorem variant_neutral_up_to_round_trip (base_image : Image) :
  exists out,
    apply_color_variant base_image 0 lit_1_0 = Ok out /\
    mode out = RGBA /\
    width out = width base_image /\
    height out = height base_image /\
    (forall x y, inside base_image x y = true ->
       load out x y
       = let '(r, g, b, _) := conv_pixel (mode base_image) RGB (load base_image x y) in
         let '(r', g', b') := round_trip r g b in
         (r', g', b', alpha_of (mode base_image) (load base_image x y))) /\
    (forall x y r g b a,
       mode base_image = RGBA -> inside base_image x y = true ->
       load base_image x y = (r, g, b, a) ->
       (round_trip r g b = (r, g, b) <-> load out x y = load base_image x y)) /\
    (forall v, round_trip v v v = (v, v, v)).
Proof.
  destruct (apply_color_variant_defined base_image 0 lit_1_0) as [out Hout];
    [vm_compute; reflexivity |].
  exists out. split; [exact Hout |].
  apply apply_color_variant_spec in Hout. destruct Hout as (Hm & Hw & Hh & Hpx).
  assert (Hrt : forall x y, inside base_image x y = true ->
     load out x y
     = let '(r, g, b, _) := conv_pixel (mode base_image) RGB (load base_image x y) in
       let '(r', g', b') := round_trip r g b in
       (r', g', b', alpha_of (mode base_image) (load base_image x y))).
  { intros x y Hin. rewrite (Hpx x y Hin). unfold variant_pixel, round_trip.
    destruct (conv_pixel (mode base_image) RGB (load base_image x y)) as [[[r g] b] d].
    rewrite shift_hsv_neutral.
    destruct (rgb2hsv r g b) as [[h s] v]. reflexivity. }
  split; [exact Hm |]. split; [exact Hw |]. split; [exact Hh |].
  split; [exact Hrt |]. split; [| apply round_trip_grey].
  intros x y r g b a Hrgba Hin Hload. rewrite (Hrt x y Hin), Hrgba, Hload.
  unfold conv_pixel. cbn [mode_eqb from_rgb to_rgb alpha_of band].
  destruct (round_trip r g b) as [[r' g'] b']. split; congruence.
Qed.

(** C3 as stated fails: an opaque orange pixel comes back with another
    green level. *)
Lemma variant_identity_counterexample :
  result_pixel (Ok (one_pixel (255, 128, 0, 255))) 0 0 = Some (255, 128, 0, 255) /\
  result_pixel (apply_color_variant (one_pixel (255, 128, 0, 255)) 0 lit_1_0) 0 0
  = Some (255, 126, 0, 255).
Proof.
  split; vm_compute; reflexivity.
Qed.

(** *** The variant of a creature *)

(** C2 on the code: [generate_creature] hands [variant_index * 60] to
    [apply_color_variant], which adds it to the 0..255 hue band modulo 256.
    Variant 6 (360 degrees, no shift on the hue circle) turns red into a
    green, and variant 1 turns red into a yellow-green where a shift of 60
    degrees (42 levels) gives yellow; the saturation factor is
    [0.8 + index * 0.2] as stated. *)
Theorem variant_hue_shift_in_band_levels :
  first_pixel (generate_creature (fun _ => Ok [red]) 6) IDLE = Some (0, 255, 114, 255) /\
  (variant_hue_shift 6 = 360 /\ 360 mod 256 = 104 /\ spec_hue_shift 6 = 0) /\
  (exists f, variant_saturation_factor 6 = Ok f /\
             result_pixel (apply_color_variant red (spec_hue_shift 6) f) 0 0
             = Some (255, 0, 0, 255)) /\
  first_pixel (generate_creature (fun _ => Ok [red]) 1) IDLE = Some (150, 255, 0, 255) /\
  (variant_hue_shift 1 = 60 /\ spec_hue_shift 1 = 42) /\
  (exists f, variant_saturation_factor 1 = Ok f /\
             result_pixel (apply_color_variant red (spec_hue_shift 1) f) 0 0
             = Some (255, 252, 0, 255)).
Proof.
  split; [vm_compute; reflexivity |].
  split; [repeat split |].
  split; [eexists; split; [vm_compute; reflexivity | vm_compute; reflexivity] |].
  split; [vm_compute; reflexivity |].
  split; [repeat split |].
  eexists; split; [vm_compute; reflexivity | vm_compute; reflexivity].
Qed.

(** ** Sorting animation kinds *)

Lemma AnimationType_eqb_eq (a b : AnimationType) : AnimationType_eqb a b = true <-> a = b.
Proof. destruct a, b; simpl; split; intros H; congruence. Qed.

Lemma insert_sorted_perm {A : Type} (key : A -> string) (x : A) (l : list A) :
  Permutation (insert_sorted key x l) (x :: l).
Proof.
  induction l as [| y l IH]; simpl; [apply Permutation_refl |].
  destruct (String.ltb (key y) (key x)).
  - apply Permutation_trans with (y :: x :: l).
    + apply perm_skip. exact IH.
    + apply perm_swap.
  - apply Permutation_refl.
Qed.

Lemma sorted_perm {A : Type} (key : A -> string) (l : list A) :
  Permutation (sorted key l) l.
Proof.
  induction l as [| x l IH]; simpl; [apply perm_nil |].
  apply Permutation_trans with (x :: sorted key l).
  - apply insert_sorted_perm.
  - apply perm_skip. exact IH.
Qed.

Ltac nodup_contra :=
  exfalso;
  repeat match goal with
    | H : NoDup (_ :: _) |- _ => inversion H; clear H; subst
    end;
  simpl in *; intuition congruence.

(** Sorting the distinct kinds of a mapping by their identifier lists the
    kinds present in the order attack, idle, walk. *)
Lemma sorted_kinds (l : list AnimationType) :
  NoDup l -> sorted value l = filter (has_kind l) canonical_kinds.
Proof.
  intros H.
  destruct l as [| a [| b [| c [| e l]]]].
  - reflexivity.
  - destruct a; reflexivity.
  - destruct a, b; try reflexivity; nodup_contra.
  - destruct a, b, c; try reflexivity; nodup_contra.
  - destruct a, b, c, e; nodup_contra.
Qed.

Lemma has_kind_In (l : list AnimationType) (k : AnimationType) :
  has_kind l k = true <-> In k l.
Proof.
  unfold has_kind. rewrite existsb_exists. split.
  - intros (x & Hx & E). apply AnimationType_eqb_eq in E. congruence.
  - intros H. exists k. split; [exact H | apply AnimationType_eqb_eq; reflexivity].
Qed.

Lemma sorted_kinds_perm (l l' : list AnimationType) :
  NoDup l -> Permutation l l' -> sorted value l = sorted value l'.
Proof.
  intros Hnd Hp.
  rewrite (sorted_kinds l Hnd), (sorted_kinds l' (Permutation_NoDup Hp Hnd)).
  apply filter_ext. intros k.
  destruct (has_kind l k) eqn:E1, (has_kind l' k) eqn:E2; try reflexivity.
  - apply has_kind_In in E1. apply (Permutation_in _ Hp) in E1.
    apply has_kind_In in E1. congruence.
  - apply has_kind_In in E2. apply (Permutation_in _ (Permutation_sym Hp)) in E2.
    apply has_kind_In in E2. congruence.
Qed.

(** ** Dictionaries *)

Lemma dict_get_In (d : dict AnimationType (list Image)) (k : AnimationType) :
  In k (keys d) -> exists v, dict_get AnimationType_eqb d k = Some v.
Proof.
  induction d as [| [k' v'] d IH]; simpl; intros H; [contradiction |].
  destruct (AnimationType_eqb k' k) eqn:E; [eauto |].
  destruct H as [H | H]; [| auto].
  apply AnimationType_eqb_eq in H. congruence.
Qed.

Lemma dict_get_Some (d : dict AnimationType (list Image)) (k : AnimationType)
  (v : list Image) :
  NoDup (keys d) ->
  (dict_get AnimationType_eqb d k = Some v <-> In (k, v) d).
Proof.
  induction d as [| [k' v'] d IH]; simpl; intros Hnd.
  - split; [discriminate | contradiction].
  - inversion Hnd as [| ? ? Hnotin Hnd']; subst.
    destruct (AnimationType_eqb k' k) eqn:E.
    + apply AnimationType_eqb_eq in E. subst k'. split.
      * intros H. injection H as ->. left. reflexivity.
      * intros [H | H]; [congruence |].
        exfalso. apply Hnotin. apply (in_map fst) in H. exact H.
    + rewrite (IH Hnd'). split; [auto |].
      intros [H | H]; [| exact H].
      injection H as -> ->. destruct k; discriminate.
Qed.

Lemma dict_get_perm (d d' : dict AnimationType (list Image)) (k : AnimationType) :
  NoDup (keys d) -> Permutation d d' ->
  dict_get AnimationType_eqb d k = dict_get AnimationType_eqb d' k.
Proof.
  intros Hnd Hp.
  assert (Hnd' : NoDup (keys d'))
    by (apply (Permutation_NoDup (Permutation_map fst Hp) Hnd)).
  destruct (dict_get AnimationType_eqb d k) as [v |] eqn:E.
  - symmetry. apply (dict_get_Some d' k v Hnd').
    apply (Permutation_in _ Hp). apply (dict_get_Some d k v Hnd). exact E.
  - destruct (dict_get AnimationType_eqb d' k) as [v' |] eqn:E'; [| reflexivity].
    apply (dict_get_Some d' k v' Hnd') in E'.
    apply (Permutation_in _ (Permutation_sym Hp)) in E'.
    apply (dict_get_Some d k v' Hnd) in E'. congruence.
Qed.

(** [max] of a non-empty sequence is its greatest element. *)
Lemma fold_max_spec (xs : list Z) (x : Z) :
  let m := fold_left Z.max xs x in
  (m = x \/ In m xs) /\ x <= m /\ Forall (fun y => y <= m) xs.
Proof.
  revert x. induction xs as [| y xs IH]; intros x; simpl.
  - split; [left; reflexivity |]. split; [lia | constructor].
  - destruct (IH (Z.max x y)) as (Hin & Hle & Hall).
    split; [| split].
    + destruct Hin as [Hin | Hin]; [| right; right; exact Hin].
      destruct (Z.max_spec x y) as [[_ E] | [_ E]].
      * right. left. congruence.
      * left. congruence.
    + lia.
    + constructor; [lia | exact Hall].
Qed.

Lemma py_max_perm (l l' : list Z) :
  Permutation l l' -> py_max l = py_max l'.
Proof.
  intros Hp. destruct l as [| x xs], l' as [| x' xs'].
  - reflexivity.
  - apply Permutation_nil in Hp. discriminate.
  - apply Permutation_sym, Permutation_nil in Hp. discriminate.
  - simpl. f_equal.
    destruct (fold_max_spec xs x) as (Hin & Hle & Hall).
    destruct (fold_max_spec xs' x') as (Hin' & Hle' & Hall').
    cbv zeta in *. rewrite Forall_forall in Hall, Hall'.
    assert (H1 : In (fold_left Z.max xs x) (x' :: xs')).
    { apply (Permutation_in _ Hp). destruct Hin as [-> | H]; [left | right]; auto. }
    assert (H2 : In (fold_left Z.max xs' x') (x :: xs)).
    { apply (Permutation_in _ (Permutation_sym Hp)).
      destruct Hin' as [-> | H]; [left | right]; auto. }
    assert (fold_left Z.max xs x <= fold_left Z.max xs' x').
    { destruct H1 as [<- | H1]; [exact Hle' | apply Hall'; exact H1]. }
    assert (fold_left Z.max xs' x' <= fold_left Z.max xs x).
    { destruct H2 as [<- | H2]; [exact Hle | apply Hall; exact H2]. }
    lia.
Qed.

(** ** The combined sheet *)

Lemma paste_all_app (ps qs : list placement) (sheet : Image) :
  paste_all (ps ++ qs) sheet = paste_all qs (paste_all ps sheet).
Proof. apply fold_left_app. Qed.

Lemma rows_loop (d : dict AnimationType (list Image)) (kinds : list AnimationType)
  (xstep ystep y0 : Z) (sheet : Image) :
  mode sheet = RGBA ->
  (forall k, In k kinds -> In k (keys d)) ->
  for_each kinds
    (fun '(sheet, y_offset) anim_type =>
       frames <- dict_getitem AnimationType_eqb d anim_type ;;
       '(sheet, _) <-
         for_each frames
           (fun '(sheet, x_offset) frame =>
              sheet <- paste sheet frame (x_offset, y_offset) (mask_of frame) ;;
              Ok (sheet, x_offset + xstep))
           (sheet, 0) ;;
       Ok (sheet, y_offset + ystep))
    (sheet, y0)
  = Ok (paste_all (rows_layout (map (lookup d) kinds) y0 xstep ystep) sheet,
        y0 + len kinds * ystep).
Proof.
  revert y0 sheet. induction kinds as [| k kinds IH]; intros y0 sheet Hm Hin.
  - simpl. unfold len. simpl. do 2 f_equal. lia.
  - destruct (dict_get_In d k (Hin k (or_introl eq_refl))) as [frames Hk].
    assert (Hf : dict_getitem AnimationType_eqb d k = Ok frames)
      by (unfold dict_getitem; rewrite Hk; reflexivity).
    assert (Hl : lookup d k = frames) by (unfold lookup; rewrite Hk; reflexivity).
    cbn [for_each map rows_layout]. rewrite Hf, Hl. cbn [bind].
    rewrite row_loop by exact Hm. cbn [bind].
    rewrite IH.
    + rewrite paste_all_app, len_cons. do 2 f_equal. lia.
    + destruct (paste_all_shape (row_layout frames 0 y0 xstep) sheet) as (-> & _).
      exact Hm.
    + intros k' Hk'. apply Hin. right. exact Hk'.
Qed.

Lemma len_sorted {A : Type} (key : A -> string) (l : list A) :
  len (sorted key l) = len l.
Proof.
  unfold len. rewrite (Permutation_length (sorted_perm key l)). reflexivity.
Qed.

Lemma combined_sheet_eq (d : dict AnimationType (list Image)) (k0 : AnimationType)
  (f0 : Image) (fs0 : list Image) (rest : dict AnimationType (list Image))
  (spacing M : Z) (bg : Pixel) :
  d = (k0, f0 :: fs0) :: rest ->
  py_max (map len (values d)) = Ok M ->
  0 <= M * width f0 + (M - 1) * spacing ->
  0 <= len d * height f0 + (len d - 1) * spacing ->
  create_combined_sprite_sheet d spacing bg
  = Ok (paste_all
          (rows_layout (map (lookup d) (sorted value (keys d))) 0
             (width f0 + spacing) (height f0 + spacing))
          (blank RGBA (M * width f0 + (M - 1) * spacing)
             (len d * height f0 + (len d - 1) * spacing) bg)).
Proof.
  intros Hd HM Hw Hh. unfold create_combined_sprite_sheet.
  rewrite HM. rewrite len_sorted.
  replace (len (keys d)) with (len d) by (unfold len, keys; rewrite length_map; reflexivity).
  subst d. cbn [is_empty values map next_iter bind getitem nth_error size snd].
  rewrite new_blank by assumption. cbn [bind].
  rewrite rows_loop.
  - reflexivity.
  - reflexivity.
  - intros k Hk. apply (Permutation_in _ (sorted_perm value _)). exact Hk.
Qed.

Lemma row_layout_In (frames : list Image) (x0 y step : Z) (p : placement) :
  In p (row_layout frames x0 y step) -> In (fst p) frames /\ snd (snd p) = y.
Proof.
  revert x0. induction frames as [| f fs IH]; intros x0; simpl; [contradiction |].
  intros [<- | H]; [simpl; auto |].
  destruct (IH _ H). auto.
Qed.

Lemma row_misses (frames : list Image) (H x0 y0 step x y : Z) (p : placement) :
  (forall g, In g frames -> height g = H) ->
  ~ (0 <= y - y0 < H) ->
  In p (row_layout frames x0 y0 step) -> covers p x y = false.
Proof.
  intros Hh Hy Hp. apply row_layout_In in Hp. destruct Hp as [Hf Hy0].
  unfold covers, inside. rewrite Hy0, (Hh _ Hf).
  revert Hy. generalize (y - y0). intros z Hz. zbool.
Qed.

Lemma rows_below_miss (rows : list (list Image)) (y0 xstep ystep x y : Z) (p : placement) :
  0 <= ystep -> y < y0 ->
  In p (rows_layout rows y0 xstep ystep) -> covers p x y = false.
Proof.
  intros Hstep. revert y0. induction rows as [| row rows IH]; intros y0 Hy; simpl;
    [contradiction |].
  intros Hp. apply in_app_or in Hp. destruct Hp as [Hp | Hp].
  - apply row_layout_In in Hp. destruct Hp as [_ Hy0].
    unfold covers, inside. rewrite Hy0.
    assert (Hneg : y - y0 < 0) by lia.
    revert Hneg. generalize (y - y0). intros z Hz. zbool.
  - apply (IH (y0 + ystep)); [lia | exact Hp].
Qed.

(** Rows of frames of one size, stacked with a non-negative gap, do not
    overlap: row [r], frame [j] is alone on its rectangle. *)
Lemma rows_pixel (rows : list (list Image)) (W H s y0 : Z) (sheet : Image)
  (r j : nat) (row : list Image) (f : Image) (u v : Z) :
  0 <= s -> 0 <= H ->
  (forall row', In row' rows -> forall g, In g row' -> width g = W /\ height g = H) ->
  nth_error rows r = Some row ->
  nth_error row j = Some f ->
  0 <= u < W -> 0 <= v < H ->
  inside sheet (Z.of_nat j * (W + s) + u) (y0 + Z.of_nat r * (H + s) + v) = true ->
  load (paste_all (rows_layout rows y0 (W + s) (H + s)) sheet)
       (Z.of_nat j * (W + s) + u) (y0 + Z.of_nat r * (H + s) + v)
  = paste_pixel f u v
      (load sheet (Z.of_nat j * (W + s) + u) (y0 + Z.of_nat r * (H + s) + v)).
Proof.
  intros Hs HH. revert y0 sheet r.
  induction rows as [| row0 rows IH]; intros y0 sheet r Hsize Hr Hj Hu Hv Hin.
  - destruct r; discriminate.
  - cbn [rows_layout]. rewrite paste_all_app.
    destruct r as [| r]; cbn [nth_error] in Hr.
    + injection Hr as ->.
      rewrite paste_all_untouched.
      2:{ intros p Hp. apply (rows_below_miss rows (y0 + (H + s)) (W + s) (H + s));
          [lia | lia | exact Hp]. }
      replace (y0 + Z.of_nat 0 * (H + s) + v) with (y0 + v) in * by lia.
      pose proof (row_pixel row W H s 0 y0 sheet j f u v Hs
                    (Hsize row (or_introl eq_refl)) Hj Hu Hv) as Hpx.
      cbn [Z.add] in Hpx. apply Hpx. exact Hin.
    + replace (y0 + Z.of_nat (S r) * (H + s) + v)
        with (y0 + (H + s) + Z.of_nat r * (H + s) + v) in * by lia.
      rewrite (IH (y0 + (H + s)) _ r).
      * f_equal. apply paste_all_untouched. intros p Hp.
        apply (row_misses row0 H 0 y0 (W + s)); [| nia | exact Hp].
        intros g Hg. apply (Hsize row0 (or_introl eq_refl) g Hg).
      * intros row' Hrow'. apply Hsize. right. exact Hrow'.
      * exact Hr.
      * exact Hj.
      * exact Hu.
      * exact Hv.
      * rewrite inside_paste_all. exact Hin.
Qed.

Lemma py_max_spec (x : Z) (xs : list Z) :
  exists M, py_max (x :: xs) = Ok M /\ In M (x :: xs) /\ Forall (fun y => y <= M) (x :: xs).
Proof.
  exists (fold_left Z.max xs x). split; [reflexivity |].
  destruct (fold_max_spec xs x) as (Hin & Hle & Hall). cbv zeta in *.
  split.
  - destruct Hin as [-> | Hin]; [left; reflexivity | right; exact Hin].
  - constructor; assumption.
Qed.

Lemma lookup_perm (d d' : dict AnimationType (list Image)) (k : AnimationType) :
  NoDup (keys d) -> Permutation d d' -> lookup d k = lookup d' k.
Proof.
  intros Hnd Hp. unfold lookup. rewrite (dict_get_perm d d' k Hnd Hp). reflexivity.
Qed.

Lemma len_perm {A : Type} (l l' : list A) : Permutation l l' -> len l = len l'.
Proof. intros Hp. unfold len. rewrite (Permutation_length Hp). reflexivity. Qed.

(** The closed form of the combined sheet of a well-formed animation set:
    every animation non-empty, every frame of size [(W, H)]. *)
Lemma combined_sheet_uniform (d : dict AnimationType (list Image)) (spacing W H M : Z)
  (bg : Pixel) :
  d <> [] ->
  (forall k frames, In (k, frames) d ->
     frames <> [] /\ forall f, In f frames -> width f = W /\ height f = H) ->
  0 <= spacing -> 0 <= W -> 0 <= H ->
  py_max (map len (values d)) = Ok M ->
  1 <= M /\
  create_combined_sprite_sheet d spacing bg
  = Ok (paste_all
          (rows_layout (map (lookup d) (sorted value (keys d))) 0
             (W + spacing) (H + spacing))
          (blank RGBA (M * W + (M - 1) * spacing)
             (len d * H + (len d - 1) * spacing) bg)).
Proof.
  intros Hne Huni Hs HW HH HM.
  destruct d as [| [k0 fr0] rest]; [congruence |].
  destruct (Huni k0 fr0 (or_introl eq_refl)) as [Hfr0 Hsz0].
  destruct fr0 as [| f0 fs0]; [congruence |].
  destruct (Hsz0 f0 (or_introl eq_refl)) as [Hw0 Hh0].
  assert (HM1 : 1 <= M).
  { cbn [values map snd] in HM.
    destruct (py_max_spec (len (f0 :: fs0)) (map len (map snd rest)))
      as (M' & HM' & _ & Hall).
    unfold values in HM. rewrite HM in HM'. injection HM' as <-.
    inversion Hall as [| ? ? Hle _]; subst.
    rewrite len_cons in Hle. pose proof (len_nonneg fs0). lia. }
  split; [exact HM1 |].
  rewrite (combined_sheet_eq _ k0 f0 fs0 rest spacing M bg eq_refl HM).
  - rewrite Hw0, Hh0. reflexivity.
  - rewrite Hw0. nia.
  - rewrite Hh0, len_cons. pose proof (len_nonneg rest). nia.
Qed.

(** C1: the combined sheet of a non-empty animation set visits the kinds
    in the order attack, idle, walk (those present), row [r] of the sheet
    holding the frames of the [r]-th kind in that order, whatever the
    order in which the kinds were inserted into the mapping. *)
Theorem combined_sheet_canonical_order (d : dict AnimationType (list Image))
  (spacing W H : Z) (bg : Pixel) :
  d <> [] ->
  NoDup (keys d) ->
  (forall k frames, In (k, frames) d ->
     frames <> [] /\ forall f, In f frames -> width f = W /\ height f = H) ->
  0 <= spacing -> 0 <= W -> 0 <= H ->
  sorted value (keys d) = filter (has_kind (keys d)) canonical_kinds /\
  exists sheet,
    create_combined_sprite_sheet d spacing bg = Ok sheet /\
    (forall r k frames j f u v,
       nth_error (sorted value (keys d)) r = Some k ->
       dict_get AnimationType_eqb d k = Some frames ->
       nth_error frames j = Some f ->
       0 <= u < W -> 0 <= v < H ->
       load sheet (Z.of_nat j * (W + spacing) + u) (Z.of_nat r * (H + spacing) + v)
       = paste_pixel f u v bg) /\
    (forall d', Permutation d d' ->
       sorted value (keys d') = sorted value (keys d) /\
       create_combined_sprite_sheet d' spacing bg = Ok sheet).
Proof.
  intros Hne Hnd Huni Hs HW HH.
  split; [apply sorted_kinds; exact Hnd |].
  assert (HexM : exists M, py_max (map len (values d)) = Ok M /\
                           Forall (fun y => y <= M) (map len (values d))).
  { destruct d as [| [k0 fr0] rest]; [congruence |].
    destruct (py_max_spec (len fr0) (map len (values rest))) as (M & HM & _ & Hall).
    exists M. split; [exact HM | exact Hall]. }
  destruct HexM as (M & HM & Hall).
  destruct (combined_sheet_uniform d spacing W H M bg Hne Huni Hs HW HH HM) as [HM1 Heq].
  eexists. split; [exact Heq |]. split.
  - intros r k frames j f u v Hr Hk Hj Hu Hv.
    assert (Hlk : lookup d k = frames) by (unfold lookup; rewrite Hk; reflexivity).
    assert (Hin : In (k, frames) d) by (apply (proj1 (dict_get_Some d k frames Hnd) Hk)).
    pose proof (rows_pixel (map (lookup d) (sorted value (keys d))) W H spacing 0
                  (blank RGBA (M * W + (M - 1) * spacing)
                     (len d * H + (len d - 1) * spacing) bg)
                  r j frames f u v Hs HH) as Hpx.
    cbn [Z.add] in Hpx. apply Hpx; clear Hpx; try assumption.
    + intros row' Hrow' g Hg. apply in_map_iff in Hrow'.
      destruct Hrow' as (k' & <- & _). unfold lookup in Hg.
      destruct (dict_get AnimationType_eqb d k') as [fr |] eqn:E; [| contradiction].
      apply (proj1 (dict_get_Some d k' fr Hnd)) in E.
      apply (proj2 (Huni k' fr E) g Hg).
    + rewrite <- Hlk. apply map_nth_error. exact Hr.
    + pose proof (nth_error_len _ _ _ Hj) as Hjl.
      pose proof (nth_error_len _ _ _ Hr) as Hrl.
      rewrite len_sorted in Hrl.
      replace (len (keys d)) with (len d) in Hrl
        by (unfold len, keys; rewrite length_map; reflexivity).
      assert (HlM : len frames <= M).
      { rewrite Forall_forall in Hall. apply Hall.
        apply in_map. apply (in_map snd) in Hin. exact Hin. }
      unfold inside. cbn [blank width height].
      destruct (Z.leb_spec 0 (Z.of_nat j * (W + spacing) + u)); [| nia].
      destruct (Z.ltb_spec (Z.of_nat j * (W + spacing) + u) (M * W + (M - 1) * spacing));
        [| nia].
      destruct (Z.leb_spec 0 (Z.of_nat r * (H + spacing) + v)); [| nia].
      destruct (Z.ltb_spec (Z.of_nat r * (H + spacing) + v)
                  (len d * H + (len d - 1) * spacing)); [| nia].
      reflexivity.
  - intros d' Hp.
    assert (Hkeys : Permutation (keys d) (keys d')) by (apply Permutation_map; exact Hp).
    split; [symmetry; apply sorted_kinds_perm; assumption |].
    assert (Hne' : d' <> []).
    { intros ->. apply Permutation_sym, Permutation_nil in Hp. congruence. }
    assert (Huni' : forall k frames, In (k, frames) d' ->
              frames <> [] /\ forall f, In f frames -> width f = W /\ height f = H).
    { intros k frames Hin. apply (Huni k frames).
      apply (Permutation_in _ (Permutation_sym Hp)). exact Hin. }
    assert (HM' : py_max (map len (values d')) = Ok M).
    { rewrite <- HM. symmetry. apply py_max_perm.
      apply Permutation_map. apply Permutation_map. exact Hp. }
    destruct (combined_sheet_uniform d' spacing W H M bg Hne' Huni' Hs HW HH HM')
      as [_ Heq'].
    rewrite Heq'. rewrite <- (len_perm d d' Hp).
    rewrite <- (sorted_kinds_perm (keys d) (keys d') Hnd Hkeys).
    rewrite (map_ext (lookup d') (lookup d)); [reflexivity |].
    intros k. symmetry. apply lookup_perm; assumption.
Qed.

(** ** Frames of unequal sizes *)

(** C5 as stated fails: a 1x1 frame followed by a 2x2 frame is accepted
    by both composers, the sheet is sized for the first frame and the
    second frame is pasted over it, clipped. *)
Lemma mismatched_frames_counterexample :
  size small_frame = (1, 1) /\ size large_frame = (2, 2) /\
  result_size (create_animation_sprite_sheet [small_frame; large_frame] 0 transparent)
  = Some (2, 1) /\
  result_pixel (create_animation_sprite_sheet [small_frame; large_frame] 0 transparent) 1 0
  = Some (0, 255, 0, 255) /\
  result_size (create_combined_sprite_sheet
                 [(IDLE, [small_frame]); (WALK, [large_frame])] 0 transparent)
  = Some (1, 2) /\
  result_pixel (create_combined_sprite_sheet
                  [(IDLE, [small_frame]); (WALK, [large_frame])] 0 transparent) 0 1
  = Some (0, 255, 0, 255).
Proof.
  repeat split; vm_compute; reflexivity.
Qed.

(** C5, as the code has it: the sheet composers never compare frame
    sizes.  For a non-empty input and a non-negative spacing they return a
    sheet sized from the first frame (of the first inserted animation, for
    the combined sheet) and paste every frame, whatever its size, at the
    offsets computed from that first frame. *)
Theorem composers_take_first_frame_size :
  (forall f0 fs spacing bg,
      0 <= spacing -> wf f0 ->
      exists sheet,
        create_animation_sprite_sheet (f0 :: fs) spacing bg = Ok sheet /\
        width sheet = len (f0 :: fs) * width f0 + (len (f0 :: fs) - 1) * spacing /\
        height sheet = height f0 /\
        sheet = paste_all (row_layout (f0 :: fs) 0 0 (width f0 + spacing))
                  (blank RGBA (width sheet) (height sheet) bg)) /\
  (forall k0 f0 fs0 rest spacing bg,
      0 <= spacing -> wf f0 ->
      exists sheet M,
        py_max (map len (values ((k0, f0 :: fs0) :: rest))) = Ok M /\
        create_combined_sprite_sheet ((k0, f0 :: fs0) :: rest) spacing bg = Ok sheet /\
        width sheet = M * width f0 + (M - 1) * spacing /\
        height sheet = (len rest + 1) * height f0 + len rest * spacing /\
        sheet = paste_all
                  (rows_layout
                     (map (lookup ((k0, f0 :: fs0) :: rest))
                        (sorted value (keys ((k0, f0 :: fs0) :: rest))))
                     0 (width f0 + spacing) (height f0 + spacing))
                  (blank RGBA (width sheet) (height sheet) bg)).
Proof.
  split.
  - intros f0 fs spacing bg Hs [Hw Hh].
    assert (Htw : 0 <= len (f0 :: fs) * width f0 + (len (f0 :: fs) - 1) * spacing).
    { rewrite len_cons. pose proof (len_nonneg fs). nia. }
    eexists. split; [apply animation_sheet_eq; assumption |].
    match goal with |- context [paste_all ?ps ?b] =>
      destruct (paste_all_shape ps b) as (_ & Hws & Hhs) end.
    rewrite Hws, Hhs. cbn [blank width height]. repeat split.
  - intros k0 f0 fs0 rest spacing bg Hs [Hw Hh].
    destruct (py_max_spec (len (f0 :: fs0)) (map len (values rest)))
      as (M & HM & _ & Hall).
    assert (HM1 : 1 <= M).
    { inversion Hall as [| ? ? Hle _]; subst. rewrite len_cons in Hle.
      pose proof (len_nonneg fs0). lia. }
    pose proof (len_nonneg rest) as Hrest.
    eexists. exists M. split; [exact HM |].
    split.
    + apply (combined_sheet_eq _ k0 f0 fs0 rest spacing M bg eq_refl HM).
      * nia.
      * rewrite len_cons. nia.
    + match goal with |- context [paste_all ?ps ?b] =>
        destruct (paste_all_shape ps b) as (_ & Hws & Hhs) end.
      rewrite Hws, Hhs. cbn [blank width height]. rewrite len_cons.
      repeat split. lia.
Qed.

(** ** The grid *)

Lemma floordiv_nz (a b : Z) : b <> 0 -> floordiv a b = Ok (a / b).
Proof. intros H. unfold floordiv. destruct (Z.eqb_spec b 0); [contradiction | reflexivity]. Qed.

Lemma pymod_nz (a b : Z) : b <> 0 -> pymod a b = Ok (a mod b).
Proof. intros H. unfold pymod. destruct (Z.eqb_spec b 0); [contradiction | reflexivity]. Qed.

Lemma grid_loop (cells : list (Z * Image)) (cols spacing W H : Z) (grid : Image) :
  cols <> 0 ->
  mode grid = RGBA ->
  for_each cells
    (fun grid '(idx, img) =>
       row <- floordiv idx cols ;;
       col <- pymod idx cols ;;
       let x := spacing + col * (W + spacing) in
       let y := spacing + row * (H + spacing) in
       paste grid img (x, y) (mask_of img))
    grid
  = Ok (paste_all (map (cell_placement cols spacing W H) cells) grid).
Proof.
  intros Hc. revert grid. induction cells as [| [idx img] cells IH]; intros grid Hm.
  - reflexivity.
  - cbn [for_each]. rewrite floordiv_nz, pymod_nz by exact Hc.
    cbn [bind]. rewrite paste_mask_of by exact Hm. cbn [bind].
    rewrite IH by exact Hm. reflexivity.
Qed.

Lemma grid_eq (img0 : Image) (imgs : list Image) (cols spacing : Z) (bg : Pixel) :
  1 <= cols -> 0 <= spacing -> wf img0 ->
  create_grid_layout (img0 :: imgs) cols spacing bg
  = Ok (paste_all
          (map (cell_placement cols spacing (width img0) (height img0))
               (enumerate (img0 :: imgs)))
          (blank RGBA
             (cols * width img0 + (cols + 1) * spacing)
             ((len (img0 :: imgs) + cols - 1) / cols * height img0
              + ((len (img0 :: imgs) + cols - 1) / cols + 1) * spacing)
             bg)).
Proof.
  intros Hc Hs [Hw Hh]. unfold create_grid_layout.
  cbn [is_empty getitem nth_error bind size]. rewrite floordiv_nz by lia. cbn [bind].
  assert (Hrows : 0 <= (len (img0 :: imgs) + cols - 1) / cols).
  { apply Z.div_pos; [| lia]. pose proof (len_nonneg (img0 :: imgs)). lia. }
  rewrite new_blank by nia. cbn [bind].
  apply grid_loop; [lia | reflexivity].
Qed.

Lemma enumerate_from_nth {A : Type} (k : Z) (l : list A) (i : nat) :
  nth_error (enumerate_from k l) i
  = option_map (fun x => (k + Z.of_nat i, x)) (nth_error l i).
Proof.
  revert k i. induction l as [| a l IH]; intros k [| i]; try reflexivity.
  - cbn [enumerate_from nth_error option_map]. rewrite Z.add_0_r. reflexivity.
  - cbn [enumerate_from nth_error]. rewrite IH. destruct (nth_error l i); [| reflexivity].
    cbn [option_map]. do 2 f_equal. lia.
Qed.

Lemma grid_cells_nth (images : list Image) (cols spacing W H : Z) (i : nat) :
  nth_error (map (cell_placement cols spacing W H) (enumerate images)) i
  = option_map
      (fun img => (img, (spacing + (Z.of_nat i mod cols) * (W + spacing),
                         spacing + (Z.of_nat i / cols) * (H + spacing))))
      (nth_error images i).
Proof.
  rewrite nth_error_map. unfold enumerate. rewrite enumerate_from_nth.
  destruct (nth_error images i); reflexivity.
Qed.

(** Cells of a grid of equally sized images do not overlap. *)
Lemma cells_disjoint (s W ci cj u : Z) :
  0 <= s -> 0 <= u < W -> ci <> cj ->
  ~ (0 <= ci * (W + s) + u - cj * (W + s) < W).
Proof.
  intros Hs Hu Hne.
  assert (Hlt : ci < cj \/ cj < ci) by lia.
  destruct Hlt; nia.
Qed.


Lemma self_mask (dst src : Image) (dx dy : Z) :
  mode dst = RGBA -> mode src = RGBA ->
  paste dst src (dx, dy) (Some src) = Ok (pasted dst src dx dy).
Proof.
  intros Hd Hs. rewrite <- (paste_mask_of dst src dx dy Hd).
  unfold mask_of. rewrite Hs. reflexivity.
Qed.

(** ** The preview *)

Lemma sprite_eq (scale : Z) (sheet : Image) :
  1 <= scale -> wf sheet ->
  (first_frame <- crop sheet (0, 0, height sheet, height sheet) ;;
   upscale_nearest_neighbor first_frame scale)
  = Ok (sprite_of scale sheet).
Proof.
  intros Hk [Hw Hh]. unfold crop.
  destruct (Z.ltb_spec (height sheet) 0) as [E | _]; [lia |].
  cbn [bind]. fold (first_frame sheet). apply upscale_eq; [exact Hk |].
  cbn [first_frame width height].
  destruct (Z.eq_dec (height sheet) 0) as [E | E]; [right | left]; lia.
Qed.

Lemma sprite_spec (scale : Z) (sheet : Image) :
  1 <= scale -> wf sheet ->
  mode (sprite_of scale sheet) = mode sheet /\
  width (sprite_of scale sheet) = height sheet * scale /\
  height (sprite_of scale sheet) = height sheet * scale /\
  forall i j u v,
    0 <= i < height sheet -> 0 <= j < height sheet ->
    0 <= u < scale -> 0 <= v < scale ->
    load (sprite_of scale sheet) (i * scale + u) (j * scale + v)
    = if i <? width sheet then load sheet i j else (0, 0, 0, 0).
Proof.
  intros Hk [Hw Hh]. unfold sprite_of.
  destruct (upscaled_spec (first_frame sheet) scale Hk) as (Hm & Hws & Hhs & Hpx).
  cbn [first_frame mode width height] in Hm, Hws, Hhs.
  rewrite Hm, Hws, Hhs, !Z.sub_0_r. repeat split.
  intros i j u v Hi Hj Hu Hv.
  rewrite Hpx by (cbn [first_frame width height]; lia).
  cbn [first_frame load]. rewrite !Z.add_0_r. unfold inside.
  destruct (Z.leb_spec 0 i); [| lia]. destruct (Z.leb_spec 0 j); [| lia].
  destruct (Z.ltb_spec j (height sheet)); [| lia].
  destruct (i <? width sheet); reflexivity.
Qed.

Lemma firstn_In {A : Type} (n : nat) (l : list A) (x : A) :
  In x (firstn n l) -> In x l.
Proof.
  intros H. rewrite <- (firstn_skipn n l). apply in_or_app. left. exact H.
Qed.

(** The preview in closed form: the grid of the sprites, pasted through
    its own alpha at [(0, 80 * scale)] on the canvas of the header. *)
Lemma preview_closed_form (te : TextEngine) (s0 : Image) (rest : list Image)
  (meta : PackMetadata) (scale cols : Z) (output_path : option string) (fs : Storage) :
  Forall wf (s0 :: rest) -> 1 <= scale -> 1 <= cols ->
  exists grid,
    create_grid_layout (map (sprite_of scale) (firstn 20 (s0 :: rest))) cols (8 * scale)
      preview_background = Ok grid /\
    grid
    = paste_all
        (map (cell_placement cols (8 * scale) (width (sprite_of scale s0))
                (height (sprite_of scale s0)))
             (enumerate (map (sprite_of scale) (firstn 20 (s0 :: rest)))))
        (blank RGBA
           (cols * width (sprite_of scale s0) + (cols + 1) * (8 * scale))
           ((len (map (sprite_of scale) (firstn 20 (s0 :: rest))) + cols - 1) / cols
            * height (sprite_of scale s0)
            + ((len (map (sprite_of scale) (firstn 20 (s0 :: rest))) + cols - 1) / cols + 1)
              * (8 * scale))
           preview_background) /\
    mode grid = RGBA /\ 0 <= width grid /\ 0 <= height grid /\
    create_pack_preview te (s0 :: rest) meta scale cols output_path fs
    = (Ok (pasted (header_canvas te meta scale (width grid) (height grid + 80 * scale))
             grid 0 (80 * scale)),
       match output_path with
       | Some path =>
           save (pasted (header_canvas te meta scale (width grid)
                           (height grid + 80 * scale)) grid 0 (80 * scale)) path fs
       | None => fs
       end).
Proof.
  intros Hwf Hk Hc. rewrite Forall_forall in Hwf.
  assert (Hsprites :
    for_append (firstn 20 (s0 :: rest))
      (fun sheet =>
         let frame_height := height sheet in
         let frame_width := frame_height in
         first_frame <- crop sheet (0, 0, frame_width, frame_height) ;;
         upscale_nearest_neighbor first_frame scale)
    = Ok (map (sprite_of scale) (firstn 20 (s0 :: rest)))).
  { apply for_append_total. intros sheet Hin. cbv zeta.
    apply sprite_eq; [exact Hk |]. apply Hwf. apply (firstn_In _ _ _ Hin). }
  assert (Hwf0 : wf (sprite_of scale s0)).
  { destruct (sprite_spec scale s0 Hk (Hwf s0 (or_introl eq_refl))) as (_ & Hw & Hh & _).
    destruct (Hwf s0 (or_introl eq_refl)) as [_ Hh0].
    unfold wf. rewrite Hw, Hh. nia. }
  pose proof (grid_eq (sprite_of scale s0) (map (sprite_of scale) (firstn 19 rest))
                cols (8 * scale) preview_background Hc ltac:(lia) Hwf0) as Hgrid.
  unfold create_pack_preview. cbn [is_empty]. cbv zeta in Hsprites. rewrite Hsprites. cbn [bind].
  change (firstn 20 (s0 :: rest)) with (s0 :: firstn 19 rest) in *.
  cbn [map]. rewrite Hgrid. cbn [bind].
  match type of Hgrid with _ = Ok ?g => set (grid := g) in * end.
  assert (Hgm : mode grid = RGBA /\ 0 <= width grid /\ 0 <= height grid).
  { unfold grid.
    match goal with |- context [paste_all ?ps ?b] =>
      destruct (paste_all_shape ps b) as (-> & -> & ->) end.
    cbn [blank mode width height]. destruct Hwf0 as [Hw0 Hh0].
    assert (0 <= (len (sprite_of scale s0 :: map (sprite_of scale) (firstn 19 rest))
                  + cols - 1) / cols).
    { apply Z.div_pos; [| lia]. rewrite len_cons.
      pose proof (len_nonneg (map (sprite_of scale) (firstn 19 rest))). lia. }
    repeat split; nia. }
  destruct Hgm as (Hgm & Hgw & Hgh).
  rewrite new_blank by lia. cbn [bind].
  unfold header_canvas.
  destruct (truetype te _ _) as [title_font |];
    [destruct (truetype te _ _) as [info_font |] |];
    (rewrite self_mask by (reflexivity || exact Hgm);
     eexists;
     split; [reflexivity |];
     split; [reflexivity |];
     split; [exact Hgm |];
     split; [exact Hgw |];
     split; [exact Hgh |]; reflexivity).
Qed.

Lemma header_canvas_shape (te : TextEngine) (meta : PackMetadata) (scale w h : Z) :
  mode (header_canvas te meta scale w h) = RGBA /\
  width (header_canvas te meta scale w h) = w /\
  height (header_canvas te meta scale w h) = h.
Proof.
  unfold header_canvas.
  destruct (truetype te _ _) as [title_font |];
    [destruct (truetype te _ _) as [info_font |] |]; repeat split.
Qed.

(** The preview is the grid pasted, through its own alpha, below a header
    band drawn on a canvas of the grid's width. *)
Lemma preview_eq (te : TextEngine) (s0 : Image) (rest : list Image)
  (meta : PackMetadata) (scale cols : Z) (output_path : option string) (fs : Storage) :
  Forall wf (s0 :: rest) -> 1 <= scale -> 1 <= cols ->
  exists grid canvas,
    create_grid_layout (map (sprite_of scale) (firstn 20 (s0 :: rest))) cols (8 * scale)
      preview_background = Ok grid /\
    mode grid = RGBA /\
    mode canvas = RGBA /\
    width canvas = width grid /\
    height canvas = height grid + 80 * scale /\
    create_pack_preview te (s0 :: rest) meta scale cols output_path fs
    = (Ok (pasted canvas grid 0 (80 * scale)),
       match output_path with
       | Some path => save (pasted canvas grid 0 (80 * scale)) path fs
       | None => fs
       end).
Proof.
  intros Hwf Hk Hc.
  destruct (preview_closed_form te s0 rest meta scale cols output_path fs Hwf Hk Hc)
    as (grid & Hgrid & _ & Hgm & _ & _ & Heq).
  destruct (header_canvas_shape te meta scale (width grid) (height grid + 80 * scale))
    as (Hcm & Hcw & Hch).
  exists grid, (header_canvas te meta scale (width grid) (height grid + 80 * scale)).
  repeat split; assumption.
Qed.


(** ** Modes *)

Lemma paste_shape (dst src : Image) (box : Z * Z) (mask : option Image) (out : Image) :
  paste dst src box mask = Ok out ->
  mode out = mode dst /\ width out = width dst /\ height out = height dst.
Proof.
  destruct box as [dx dy]. unfold paste. intros H.
  apply bind_Ok in H. destruct H as (src' & _ & H).
  destruct mask as [m |].
  - destruct (mode m); try discriminate;
      destruct ((width m =? width src') && (height m =? height src')); try discriminate;
      injection H as <-; repeat split.
  - injection H as <-. repeat split.
Qed.

Lemma animation_sheet_mode (frames : list Image) (spacing : Z) (bg : Pixel)
  (sheet : Image) :
  create_animation_sprite_sheet frames spacing bg = Ok sheet -> mode sheet = RGBA.
Proof.
  unfold create_animation_sprite_sheet. destruct (is_empty frames); [discriminate |].
  intros H. apply bind_Ok in H. destruct H as (frame0 & _ & H).
  cbn [size] in H.
  apply bind_Ok in H. destruct H as (sheet0 & Hnew & H).
  apply new_inv in Hnew. destruct Hnew as [-> _].
  rewrite row_loop in H by reflexivity. cbn [bind] in H.
  injection H as <-.
  match goal with |- context [paste_all ?ps ?b] =>
    destruct (paste_all_shape ps b) as (-> & _) end.
  reflexivity.
Qed.

Lemma combined_sheet_mode (d : dict AnimationType (list Image)) (spacing : Z)
  (bg : Pixel) (sheet : Image) :
  create_combined_sprite_sheet d spacing bg = Ok sheet -> mode sheet = RGBA.
Proof.
  unfold create_combined_sprite_sheet. destruct (is_empty d); [discriminate |].
  intros H. apply bind_Ok in H. destruct H as (first_frames & _ & H).
  apply bind_Ok in H. destruct H as (frame0 & _ & H).
  cbn [size] in H.
  apply bind_Ok in H. destruct H as (M & _ & H).
  apply bind_Ok in H. destruct H as (sheet0 & Hnew & H).
  apply new_inv in Hnew. destruct Hnew as [-> _].
  rewrite rows_loop in H.
  - cbn [bind] in H. injection H as <-.
    match goal with |- context [paste_all ?ps ?b] =>
      destruct (paste_all_shape ps b) as (-> & _) end.
    reflexivity.
  - reflexivity.
  - intros k Hk. apply (Permutation_in _ (sorted_perm value _)). exact Hk.
Qed.

Lemma grid_mode (images : list Image) (cols spacing : Z) (bg : Pixel) (grid : Image) :
  create_grid_layout images cols spacing bg = Ok grid -> mode grid = RGBA.
Proof.
  unfold create_grid_layout. destruct (is_empty images); [discriminate |].
  intros H. apply bind_Ok in H. destruct H as (img0 & _ & H).
  cbn [size] in H.
  apply bind_Ok in H. destruct H as (rows & Hrows & H).
  apply bind_Ok in H. destruct H as (grid0 & Hnew & H).
  apply new_inv in Hnew. destruct Hnew as [-> _].
  assert (Hc : cols <> 0).
  { unfold floordiv in Hrows. destruct (Z.eqb_spec cols 0); [discriminate | assumption]. }
  rewrite grid_loop in H by (exact Hc || reflexivity).
  injection H as <-.
  match goal with |- context [paste_all ?ps ?b] =>
    destruct (paste_all_shape ps b) as (-> & _) end.
  reflexivity.
Qed.

Lemma preview_mode (te : TextEngine) (sprite_sheets : list Image) (meta : PackMetadata)
  (scale cols : Z) (output_path : option string) (fs fs' : Storage) (preview : Image) :
  create_pack_preview te sprite_sheets meta scale cols output_path fs = (Ok preview, fs') ->
  mode preview = RGBA.
Proof.
  unfold create_pack_preview. destruct (is_empty sprite_sheets); [discriminate |].
  match goal with |- (match ?b with _ => _ end) = _ -> _ => destruct b as [p |] eqn:E end;
    [| discriminate].
  intros H. injection H as -> _.
  apply bind_Ok in E. destruct E as (sprites & _ & E).
  apply bind_Ok in E. destruct E as (grid & _ & E).
  apply bind_Ok in E. destruct E as (preview0 & Hnew & E).
  apply new_inv in Hnew. destruct Hnew as [-> _].
  destruct (truetype te _ _) as [title_font |];
    [destruct (truetype te _ _) as [info_font |] |];
    apply paste_shape in E; destruct E as (-> & _); reflexivity.
Qed.

Lemma variant_opaque (m : Mode) (hue_shift : Z) (f : py_float) (p : Pixel) :
  m <> RGBA -> band 3 (variant_pixel m hue_shift f p) = 255.
Proof.
  intros Hm. rewrite variant_pixel_alpha. destruct m; try reflexivity. congruence.
Qed.

(** C10: whatever the modes of their inputs, the images returned by
    [apply_color_variant], the two sheet composers, the grid composer and
    the preview builder are RGBA; the colour variant of an image without
    alpha is fully opaque.  Each of them returns on well-formed input. *)
Theorem outputs_are_rgba :
  (forall base_image hue_shift saturation_factor,
      (sat_defined saturation_factor = true ->
       exists out, apply_color_variant base_image hue_shift saturation_factor = Ok out) /\
      (forall out,
          apply_color_variant base_image hue_shift saturation_factor = Ok out ->
          mode out = RGBA /\
          (mode base_image <> RGBA ->
           forall x y, inside base_image x y = true -> band 3 (load out x y) = 255))) /\
  (forall frames spacing bg,
      (frames <> [] -> 0 <= spacing -> Forall wf frames ->
       exists sheet, create_animation_sprite_sheet frames spacing bg = Ok sheet) /\
      (forall sheet,
          create_animation_sprite_sheet frames spacing bg = Ok sheet -> mode sheet = RGBA)) /\
  (forall k0 f0 fs0 rest spacing bg,
      (0 <= spacing -> wf f0 ->
       exists sheet,
         create_combined_sprite_sheet ((k0, f0 :: fs0) :: rest) spacing bg = Ok sheet) /\
      (forall d sheet,
          create_combined_sprite_sheet d spacing bg = Ok sheet -> mode sheet = RGBA)) /\
  (forall images cols spacing bg,
      (images <> [] -> 1 <= cols -> 0 <= spacing -> Forall wf images ->
       exists grid, create_grid_layout images cols spacing bg = Ok grid) /\
      (forall grid,
          create_grid_layout images cols spacing bg = Ok grid -> mode grid = RGBA)) /\
  (forall te sprite_sheets meta scale cols output_path fs,
      (sprite_sheets <> [] -> Forall wf sprite_sheets -> 1 <= scale -> 1 <= cols ->
       exists preview fs',
         create_pack_preview te sprite_sheets meta scale cols output_path fs
         = (Ok preview, fs')) /\
      (forall preview fs',
          create_pack_preview te sprite_sheets meta scale cols output_path fs
          = (Ok preview, fs') ->
          mode preview = RGBA)).
Proof.
  split; [| split; [| split; [| split]]].
  - intros base_image hue_shift f. split; [apply apply_color_variant_defined |].
    intros out H. apply apply_color_variant_spec in H.
    destruct H as (Hm & _ & _ & Hpx). split; [exact Hm |].
    intros Hnot x y Hin. rewrite (Hpx x y Hin). apply variant_opaque. exact Hnot.
  - intros frames spacing bg. split; [| apply animation_sheet_mode].
    intros Hne Hs Hwf. destruct frames as [| f0 fs]; [congruence |].
    inversion Hwf as [| ? ? [Hw Hh] _]; subst.
    eexists. apply animation_sheet_eq; [| exact Hh].
    rewrite len_cons. pose proof (len_nonneg fs). nia.
  - intros k0 f0 fs0 rest spacing bg. split; [| intros d; apply combined_sheet_mode].
    intros Hs [Hw Hh].
    destruct (py_max_spec (len (f0 :: fs0)) (map len (values rest)))
      as (M & HM & _ & Hall).
    assert (HM1 : 1 <= M).
    { inversion Hall as [| ? ? Hle _]; subst. rewrite len_cons in Hle.
      pose proof (len_nonneg fs0). lia. }
    pose proof (len_nonneg rest) as Hrest.
    eexists. apply (combined_sheet_eq _ k0 f0 fs0 rest spacing M bg eq_refl HM).
    + nia.
    + rewrite len_cons. nia.
  - intros images cols spacing bg. split; [| apply grid_mode].
    intros Hne Hc Hs Hwf. destruct images as [| img0 imgs]; [congruence |].
    inversion Hwf as [| ? ? Hwf0 _]; subst.
    eexists. apply grid_eq; assumption.
  - intros te sprite_sheets meta scale cols output_path fs.
    split; [| intros preview fs' H; exact (preview_mode _ _ _ _ _ _ _ _ _ H)].
    intros Hne Hwf Hk Hc. destruct sprite_sheets as [| s0 rest]; [congruence |].
    destruct (preview_eq te s0 rest meta scale cols output_path fs Hwf Hk Hc)
      as (grid & canvas & _ & _ & _ & _ & _ & Heq).
    eexists. eexists. exact Heq.
Qed.

(** ** Concrete runs *)

(** C6 on two 2x2 frames with a gap of one pixel. *)
Lemma animation_sheet_layout_witness :
  exists sheet,
    create_animation_sprite_sheet demo_frames 1 transparent = Ok sheet /\
    width sheet = 5 /\ height sheet = 2 /\
    load sheet 0 0 = (255, 0, 0, 255) /\
    load sheet 2 1 = transparent /\
    load sheet 4 1 = (0, 255, 0, 255).
Proof.
  destruct (animation_sheet_layout demo_frames 1 2 2 transparent)
    as (sheet & Heq & Hw & Hh & Hpx & Hgap).
  - discriminate.
  - lia.
  - lia.
  - lia.
  - intros f [<- | [<- | []]]; split; reflexivity.
  - exists sheet. split; [exact Heq |]. split; [exact Hw |]. split; [exact Hh |].
    split; [| split].
    + apply (Hpx 0%nat _ 0 0 eq_refl); lia.
    + apply Hgap. intros i Hi. cbn [demo_frames length] in Hi.
      assert (Hc : i = 0%nat \/ i = 1%nat) by lia.
      destruct Hc as [-> | ->]; cbn; lia.
    + apply (Hpx 1%nat _ 1 1 eq_refl); lia.
Defined.

(** C7 on a 2x1 image, factor 3. *)
Lemma upscale_blocks_witness :
  exists out,
    upscale_nearest_neighbor two_pixels 3 = Ok out /\
    width out = 6 /\ height out = 3 /\
    load out 2 2 = (255, 0, 0, 255) /\ load out 3 0 = (0, 0, 255, 128).
Proof.
  destruct (upscale_blocks two_pixels 3) as (out & Heq & Hw & Hh & _ & Hpx).
  - lia.
  - cbn. lia.
  - cbn. lia.
  - exists out. split; [exact Heq |]. split; [exact Hw |]. split; [exact Hh |].
    split.
    + apply (Hpx 0 0 2 2); cbn; lia.
    + apply (Hpx 1 0 0 0); cbn; lia.
Defined.

Lemma demo_set_uniform (k : AnimationType) (frames : list Image) :
  In (k, frames) demo_set ->
  frames <> [] /\ forall f, In f frames -> width f = 1 /\ height f = 1.
Proof.
  intros [H | [H | [H | []]]]; injection H as <- <-;
    (split; [discriminate | intros f [<- | []]; split; reflexivity]).
Defined.

Lemma demo_set_keys : NoDup (keys demo_set).
Proof.
  repeat constructor; cbn; intuition discriminate.
Defined.

(** C1 on a mapping filled in the order walk, idle, attack, and on the
    same mapping filled in the reverse order. *)
Lemma combined_sheet_canonical_order_witness :
  sorted value (keys demo_set) = [ATTACK; IDLE; WALK] /\
  exists sheet,
    create_combined_sprite_sheet demo_set 2 transparent = Ok sheet /\
    load sheet 0 0 = (3, 3, 3, 255) /\
    load sheet 0 3 = (2, 2, 2, 255) /\
    load sheet 0 6 = (1, 1, 1, 255) /\
    create_combined_sprite_sheet (rev demo_set) 2 transparent = Ok sheet.
Proof.
  destruct (combined_sheet_canonical_order demo_set 2 1 1 transparent)
    as (Hsorted & sheet & Heq & Hpx & Hperm).
  - discriminate.
  - exact demo_set_keys.
  - exact demo_set_uniform.
  - lia.
  - lia.
  - lia.
  - split; [exact Hsorted |]. exists sheet. split; [exact Heq |].
    split; [| split; [| split]].
    + apply (Hpx 0%nat ATTACK _ 0%nat _ 0 0 eq_refl eq_refl eq_refl); lia.
    + apply (Hpx 1%nat IDLE _ 0%nat _ 0 0 eq_refl eq_refl eq_refl); lia.
    + apply (Hpx 2%nat WALK _ 0%nat _ 0 0 eq_refl eq_refl eq_refl); lia.
    + apply (Hperm (rev demo_set)). apply Permutation_rev.
Defined.


(** ** Further properties of the composers *)

(** X1: the combined sheet of an animation set with [K] kinds, frames of size
    [(W, H)] and at most [M] frames per animation is
    [M*W + (M-1)*spacing] wide and [K*H + (K-1)*spacing] high. *)
Theorem combined_sheet_size (d : dict AnimationType (list Image))
  (spacing W H : Z) (bg : Pixel) :
  d <> [] ->
  (forall k frames, In (k, frames) d ->
     frames <> [] /\ forall f, In f frames -> width f = W /\ height f = H) ->
  0 <= spacing -> 0 <= W -> 0 <= H ->
  exists sheet M,
    py_max (map len (values d)) = Ok M /\
    create_combined_sprite_sheet d spacing bg = Ok sheet /\
    width sheet = M * W + (M - 1) * spacing /\
    height sheet = len d * H + (len d - 1) * spacing.
Proof.
  intros Hne Huni Hs HW HH.
  assert (HexM : exists M, py_max (map len (values d)) = Ok M).
  { destruct d as [| [k0 fr0] rest]; [congruence |].
    destruct (py_max_spec (len fr0) (map len (values rest))) as (M & HM & _).
    exists M. exact HM. }
  destruct HexM as [M HM].
  destruct (combined_sheet_uniform d spacing W H M bg Hne Huni Hs HW HH HM) as [_ Heq].
  eexists. exists M. split; [exact HM |]. split; [exact Heq |].
  match goal with |- context [paste_all ?ps ?b] =>
    destruct (paste_all_shape ps b) as (_ & -> & ->) end.
  split; reflexivity.
Qed.

(** Four 32x32 frames reused for idle, walk and attack, spacing 2: the
    combined sheet is 134 by 100. *)
Lemma combined_sheet_size_witness :
  exists sheet,
    create_combined_sprite_sheet three_animations 2 transparent = Ok sheet /\
    width sheet = 134 /\ height sheet = 100.
Proof.
  destruct (combined_sheet_size three_animations 2 32 32 transparent)
    as (sheet & M & HM & Heq & Hw & Hh).
  - discriminate.
  - intros k frames [H | [H | [H | []]]]; injection H as <- <-;
      (split; [discriminate |]);
      intros f [<- | [<- | [<- | [<- | []]]]]; split; reflexivity.
  - lia.
  - lia.
  - lia.
  - exists sheet. split; [exact Heq |].
    injection HM as <-. split; [exact Hw | exact Hh].
Defined.

(** X3: the base variant is left as generated: for variant index 0 the
    pipeline does not call the colour transform. *)
Theorem base_variant_untouched (gen : AnimationType -> result (list Image))
  (idle walk attack : list Image) :
  gen IDLE = Ok idle -> gen WALK = Ok walk -> gen ATTACK = Ok attack ->
  generate_creature gen 0 = Ok [(IDLE, idle); (WALK, walk); (ATTACK, attack)].
Proof.
  intros H1 H2 H3. unfold generate_creature, animation_types.
  cbn [for_each]. rewrite H1. cbn [bind Z.gtb Z.compare dict_set AnimationType_eqb].
  rewrite H2. cbn [bind Z.gtb Z.compare dict_set AnimationType_eqb].
  rewrite H3. reflexivity.
Qed.

Lemma base_variant_untouched_witness :
  generate_creature (fun _ => Ok [one_pixel (255, 128, 0, 255)]) 0
  = Ok [(IDLE, [one_pixel (255, 128, 0, 255)]);
        (WALK, [one_pixel (255, 128, 0, 255)]);
        (ATTACK, [one_pixel (255, 128, 0, 255)])].
Proof.
  apply (base_variant_untouched (fun _ => Ok [one_pixel (255, 128, 0, 255)]));
    reflexivity.
Defined.

(** X2: the grid of [N] images of size [(W, H)] in [cols] columns has
    [R = ceil(N / cols)] rows, is [cols*W + (cols+1)*spacing] wide and
    [R*H + (R+1)*spacing] high, and shows image [i] in column [i % cols] of
    row [i // cols], with [spacing] around every cell. *)
Theorem grid_layout_cells (images : list Image) (cols spacing W H : Z) (bg : Pixel) :
  images <> [] -> 1 <= cols -> 0 <= spacing -> 0 <= W -> 0 <= H ->
  (forall img, In img images -> width img = W /\ height img = H) ->
  exists grid R,
    create_grid_layout images cols spacing bg = Ok grid /\
    (R - 1) * cols < len images <= R * cols /\
    width grid = cols * W + (cols + 1) * spacing /\
    height grid = R * H + (R + 1) * spacing /\
    forall i img u v,
      nth_error images i = Some img -> 0 <= u < W -> 0 <= v < H ->
      load grid (spacing + (Z.of_nat i mod cols) * (W + spacing) + u)
                (spacing + (Z.of_nat i / cols) * (H + spacing) + v)
      = paste_pixel img u v bg.
Proof.
  intros Hne Hc Hs HW HH Hsize.
  destruct images as [| img0 imgs]; [congruence |].
  destruct (Hsize img0 (or_introl eq_refl)) as [Hw0 Hh0].
  set (N := len (img0 :: imgs)).
  set (R := (N + cols - 1) / cols).
  assert (HR : (R - 1) * cols < N <= R * cols).
  { pose proof (Z.div_mod (N + cols - 1) cols ltac:(lia)) as Hdm.
    pose proof (Z.mod_pos_bound (N + cols - 1) cols ltac:(lia)) as Hmod.
    fold R in Hdm. nia. }
  eexists. exists R. split.
  { apply grid_eq; [exact Hc | exact Hs | split; lia]. }
  split; [exact HR |].
  match goal with |- context [paste_all ?ps ?b] =>
    destruct (paste_all_shape ps b) as (_ & Hgw & Hgh) end.
  rewrite Hgw, Hgh, Hw0, Hh0. cbn [blank width height]. fold N. fold R.
  split; [reflexivity |]. split; [reflexivity |].
  intros i img u v Hi Hu Hv.
  pose proof (nth_error_len _ _ _ Hi) as HiN. fold N in HiN.
  pose proof (Z.mod_pos_bound (Z.of_nat i) cols ltac:(lia)) as Hci.
  assert (Hri : 0 <= Z.of_nat i / cols < R).
  { split; [apply Z.div_pos; lia |]. apply Z.div_lt_upper_bound; nia. }
  rewrite (paste_all_at _ _ i
             (img, (spacing + (Z.of_nat i mod cols) * (W + spacing),
                    spacing + (Z.of_nat i / cols) * (H + spacing)))).
  - cbn [fst snd blank load]. f_equal; lia.
  - rewrite grid_cells_nth, Hi. reflexivity.
  - intros j q Hj Hq. rewrite grid_cells_nth in Hq.
    destruct (nth_error (img0 :: imgs) j) as [g |] eqn:Eg; [| discriminate].
    injection Hq as <-. destruct (Hsize g (nth_error_In _ _ Eg)) as [Hwg Hhg].
    unfold covers, inside. cbn [fst snd]. rewrite Hwg, Hhg.
    pose proof (Z.mod_pos_bound (Z.of_nat j) cols ltac:(lia)) as Hcj.
    pose proof (Z.div_mod (Z.of_nat i) cols ltac:(lia)) as Hdi.
    pose proof (Z.div_mod (Z.of_nat j) cols ltac:(lia)) as Hdj.
    destruct (Z.eq_dec (Z.of_nat i mod cols) (Z.of_nat j mod cols)) as [Ec | Ec].
    + assert (Hr : Z.of_nat i / cols <> Z.of_nat j / cols) by (intros E; apply Hj; nia).
      assert (Hy : ~ (0 <= spacing + Z.of_nat i / cols * (H + spacing) + v
                          - (spacing + Z.of_nat j / cols * (H + spacing)) < H)).
      { pose proof (cells_disjoint spacing H (Z.of_nat i / cols) (Z.of_nat j / cols) v
                      Hs Hv Hr). lia. }
      revert Hy.
      generalize (spacing + Z.of_nat i / cols * (H + spacing) + v
                  - (spacing + Z.of_nat j / cols * (H + spacing))).
      intros z Hz.
      destruct (Z.leb_spec 0 z), (Z.ltb_spec z H); try lia;
        rewrite ?andb_false_r; reflexivity.
    + assert (Hx : ~ (0 <= spacing + Z.of_nat i mod cols * (W + spacing) + u
                          - (spacing + Z.of_nat j mod cols * (W + spacing)) < W)).
      { pose proof (cells_disjoint spacing W (Z.of_nat i mod cols) (Z.of_nat j mod cols) u
                      Hs Hu Ec). lia. }
      revert Hx.
      generalize (spacing + Z.of_nat i mod cols * (W + spacing) + u
                  - (spacing + Z.of_nat j mod cols * (W + spacing))).
      intros z Hz.
      destruct (Z.leb_spec 0 z), (Z.ltb_spec z W); try lia; reflexivity.
  - unfold inside. cbn [blank width height].
    destruct (Z.leb_spec 0 (spacing + Z.of_nat i mod cols * (W + spacing) + u)); [| nia].
    destruct (Z.ltb_spec (spacing + Z.of_nat i mod cols * (W + spacing) + u)
                (cols * W + (cols + 1) * spacing)); [| nia].
    destruct (Z.leb_spec 0 (spacing + Z.of_nat i / cols * (H + spacing) + v)); [| nia].
    destruct (Z.ltb_spec (spacing + Z.of_nat i / cols * (H + spacing) + v)
                (R * H + (R + 1) * spacing)); [| nia].
    reflexivity.
  - unfold covers, inside. cbn [fst snd]. rewrite (proj1 (Hsize img (nth_error_In _ _ Hi))),
      (proj2 (Hsize img (nth_error_In _ _ Hi))).
    replace (spacing + Z.of_nat i mod cols * (W + spacing) + u
             - (spacing + Z.of_nat i mod cols * (W + spacing))) with u by lia.
    replace (spacing + Z.of_nat i / cols * (H + spacing) + v
             - (spacing + Z.of_nat i / cols * (H + spacing))) with v by lia.
    destruct (Z.leb_spec 0 u), (Z.ltb_spec u W), (Z.leb_spec 0 v), (Z.ltb_spec v H);
      try lia; reflexivity.
Qed.

(** Three 32x32 images in two columns with spacing 4: a 76 by 76 grid with
    the images at (4, 4), (40, 4) and (4, 40). *)
Lemma grid_layout_cells_witness :
  exists grid,
    create_grid_layout three_images 2 4 grid_background = Ok grid /\
    width grid = 76 /\ height grid = 76 /\
    load grid 4 4 = (255, 0, 0, 255) /\
    load grid 40 4 = (0, 255, 0, 255) /\
    load grid 4 40 = (0, 0, 255, 255).
Proof.
  destruct (grid_layout_cells three_images 2 4 32 32 grid_background)
    as (grid & R & Heq & HR & Hw & Hh & Hpx).
  - discriminate.
  - lia.
  - lia.
  - lia.
  - lia.
  - intros img [<- | [<- | [<- | []]]]; split; reflexivity.
  - exists grid. split; [exact Heq |].
    assert (R = 2) by (cbn in HR; lia). subst R.
    split; [exact Hw |]. split; [exact Hh |].
    split; [| split].
    + apply (Hpx 0%nat _ 0 0 eq_refl); lia.
    + apply (Hpx 1%nat _ 0 0 eq_refl); lia.
    + apply (Hpx 2%nat _ 0 0 eq_refl); lia.
Defined.

(** ** The placeholder generator *)

Lemma getitem_int_nat {A : Type} (l : list A) (i : Z) :
  0 <= i -> getitem_int l i = getitem l (Z.to_nat i).
Proof.
  intros H. unfold getitem_int.
  destruct (i <? 0) eqn:E; [apply Z.ltb_lt in E; lia | reflexivity].
Qed.

Lemma mod4_cases (i : Z) : i mod 4 = 0 \/ i mod 4 = 1 \/ i mod 4 = 2 \/ i mod 4 = 3.
Proof. pose proof (Z.mod_pos_bound i 4 ltac:(lia)). lia. Qed.

Lemma mod5_cases (i : Z) :
  i mod 5 = 0 \/ i mod 5 = 1 \/ i mod 5 = 2 \/ i mod 5 = 3 \/ i mod 5 = 4.
Proof. pose proof (Z.mod_pos_bound i 5 ltac:(lia)). lia. Qed.

Lemma creature_shape_eq (i : Z) :
  _get_creature_shape i = getitem shapes (Z.to_nat (i mod 5)).
Proof.
  unfold _get_creature_shape, pymod. change (len shapes) with 5.
  change (5 =? 0) with false. cbv iota. unfold bind.
  apply getitem_int_nat. pose proof (Z.mod_pos_bound i 5 ltac:(lia)). lia.
Qed.

Lemma creature_shape_total (i : Z) :
  exists s, _get_creature_shape i = Ok s /\ In s shapes.
Proof.
  rewrite creature_shape_eq.
  destruct (mod5_cases i) as [E | [E | [E | [E | E]]]]; rewrite E;
    eexists; (split; [reflexivity | cbn; tauto]).
Qed.

Lemma animation_offset_period (animation_type : AnimationType) (frame_index : Z) :
  _get_animation_offset animation_type (frame_index + 4)
  = _get_animation_offset animation_type frame_index.
Proof.
  unfold _get_animation_offset.
  replace ((frame_index + 4) mod 4) with (frame_index mod 4)
    by (symmetry; apply (Z_mod_plus_full frame_index 1 4)).
  replace ((frame_index + 4) mod 2) with (frame_index mod 2)
    by (symmetry; apply (Z_mod_plus_full frame_index 2 2)).
  reflexivity.
Qed.

Lemma animation_offset_total (animation_type : AnimationType) (frame_index : Z) :
  exists o, _get_animation_offset animation_type frame_index = Ok o /\ -1 <= o <= 2.
Proof.
  destruct animation_type; unfold _get_animation_offset.
  - eexists; split; [reflexivity |].
    pose proof (Z.mod_pos_bound frame_index 2 ltac:(lia)). lia.
  - destruct (mod4_cases frame_index) as [E | [E | [E | E]]]; rewrite E;
      eexists; (split; [reflexivity | lia]).
  - destruct (mod4_cases frame_index) as [E | [E | [E | E]]]; rewrite E;
      eexists; (split; [reflexivity | lia]).
Qed.

Lemma choice_total {A : Type} (be : Backend) (seed : Z) (l : list A) :
  (forall s n, (0 < n)%nat -> (randbelow be s n < n)%nat) ->
  l <> [] ->
  exists x, choice be seed l = Ok x /\ In x l.
Proof.
  intros Hr Hl. unfold choice. destruct l as [| a l]; [congruence |].
  cbn [is_empty]. unfold getitem.
  destruct (nth_error (a :: l) (randbelow be seed (length (a :: l)))) eqn:E.
  - eexists; split; [reflexivity | eapply nth_error_In; eassumption].
  - apply nth_error_None in E. specialize (Hr seed (length (a :: l))).
    cbn [length] in *. lia.
Qed.

Lemma creature_colors_total (be : Backend) (theme : ThemeConfig) (creature_index : Z) :
  (forall s n, (0 < n)%nat -> (randbelow be s n < n)%nat) ->
  exists c scheme,
    _get_creature_colors be theme creature_index = Ok c /\ In c scheme /\
    In scheme (map snd color_schemes).
Proof.
  intros Hr. unfold _get_creature_colors.
  change (dict_getitem String.eqb color_schemes "cute_forest")
    with (Ok (A := list (string * string * string))
            [("#8bc34a", "#4caf50", "#cddc39");
             ("#ff9800", "#ff5722", "#ffc107");
             ("#2196f3", "#03a9f4", "#00bcd4");
             ("#e91e63", "#9c27b0", "#f06292");
             ("#795548", "#8d6e63", "#a1887f")]).
  cbn [bind].
  destruct (dict_get String.eqb color_schemes (name theme)) as [colors |] eqn:E.
  - assert (Hin : In colors (map snd color_schemes)).
    { unfold dict_get in E. cbn in E.
      repeat match type of E with
             | (if ?b then _ else _) = _ => destruct b
             end; inversion E; cbn; tauto. }
    assert (Hne : colors <> []).
    { cbn in Hin. intuition (subst; discriminate). }
    destruct (choice_total be (hash be (name theme) + creature_index) colors Hr Hne)
      as [c [Hc Hm]].
    exists c, colors. auto.
  - match goal with
    | |- context [choice be ?seed ?l] =>
        destruct (choice_total be seed l Hr ltac:(discriminate)) as [c [Hc Hm]];
        exists c, l
    end.
    split; [exact Hc | split; [exact Hm | cbn; tauto]].
Qed.

Lemma range_length (n : Z) : length (range n) = Z.to_nat n.
Proof. unfold range. now rewrite length_map, length_seq. Qed.

Lemma range_nth (n : Z) (i : nat) :
  (i < Z.to_nat n)%nat -> nth_error (range n) i = Some (Z.of_nat i).
Proof.
  intros H. unfold range. rewrite nth_error_map.
  rewrite nth_error_seq. destruct (Nat.ltb_spec i (Z.to_nat n)); [| lia].
  reflexivity.
Qed.

Lemma range_In (n i : Z) : In i (range n) -> 0 <= i < n.
Proof.
  unfold range. intros H. apply in_map_iff in H. destruct H as [k [<- Hk]].
  apply in_seq in Hk. lia.
Qed.

Lemma for_append_defined {A B : Type} (f : A -> result B) (l : list A) :
  (forall x, In x l -> exists y, f x = Ok y) ->
  exists ys, for_append l f = Ok ys.
Proof.
  induction l as [| x l IH]; intros H; cbn [for_append].
  - eexists; reflexivity.
  - destruct (H x (or_introl eq_refl)) as [y Hy]. rewrite Hy. cbn [bind].
    destruct IH as [ys Hys]; [intros z Hz; apply H; now right |].
    rewrite Hys. cbn [bind]. eexists; reflexivity.
Qed.

Lemma single_creature_defined (be : Backend) (w h : Z) (theme : ThemeConfig)
  (creature_index : Z) (animation_type : AnimationType) (frame_index : Z) :
  (forall s n, (0 < n)%nat -> (randbelow be s n < n)%nat) ->
  0 <= w -> 0 <= h ->
  exists calls,
    generate_single_creature be (w, h) theme creature_index animation_type frame_index
    = Ok (draw_calls be calls (blank RGBA w h (0, 0, 0, 0))).
Proof.
  intros Hr Hw Hh. unfold generate_single_creature.
  rewrite new_blank by assumption. cbn [bind].
  destruct (creature_colors_total be theme creature_index Hr) as (c & _ & Hc & _).
  rewrite Hc. cbn [bind].
  destruct (creature_shape_total creature_index) as (s & Hs & _).
  rewrite Hs. cbn [bind].
  destruct (animation_offset_total animation_type frame_index) as (o & Ho & _).
  rewrite Ho. cbn [bind].
  eexists. reflexivity.
Qed.

Lemma single_creature_shape (be : Backend) (resolution : Z * Z) (theme : ThemeConfig)
  (creature_index : Z) (animation_type : AnimationType) (frame_index : Z) (img : Image) :
  generate_single_creature be resolution theme creature_index animation_type frame_index
  = Ok img ->
  mode img = RGBA /\ size img = resolution /\ 0 <= fst resolution /\ 0 <= snd resolution.
Proof.
  unfold generate_single_creature. intros H.
  destruct (new RGBA resolution (0, 0, 0, 0)) as [im | e] eqn:En; [| discriminate].
  apply new_inv in En. destruct En as (-> & Hw & Hh).
  destruct resolution as [w h]. cbn [bind fst snd] in *.
  destruct (_get_creature_colors be theme creature_index); [| discriminate].
  cbn [bind] in H.
  destruct (_get_creature_shape creature_index); [| discriminate].
  cbn [bind] in H.
  destruct (_get_animation_offset animation_type frame_index); [| discriminate].
  cbn [bind] in H. injection H as <-. cbn. auto.
Qed.

(** X4: for a non-negative resolution the placeholder generator never
    raises, whatever the theme name (known or not), the creature index
    (negative too), the animation and the frame index; the frame is an
    RGBA image of the resolution. *)
Theorem placeholder_creature_total (be : Backend) (w h : Z) (theme : ThemeConfig)
  (creature_index : Z) (animation_type : AnimationType) (frame_index : Z) :
  (forall s n, (0 < n)%nat -> (randbelow be s n < n)%nat) ->
  0 <= w -> 0 <= h ->
  exists img,
    generate_single_creature be (w, h) theme creature_index animation_type frame_index
    = Ok img /\
    mode img = RGBA /\ size img = (w, h).
Proof.
  intros Hr Hw Hh.
  destruct (single_creature_defined be w h theme creature_index animation_type
              frame_index Hr Hw Hh) as [calls Hc].
  eexists. split; [exact Hc |]. split; reflexivity.
Qed.

Lemma placeholder_creature_total_witness :
  exists img,
    generate_single_creature demo_backend (8, 8) demo_theme (-3) WALK 7 = Ok img /\
    mode img = RGBA /\ size img = (8, 8).
Proof.
  apply (placeholder_creature_total demo_backend 8 8 demo_theme (-3) WALK 7).
  - intros s n H. exact H.
  - lia.
  - lia.
Defined.

(** X5: the vertical offset of a frame is defined for every frame index,
    lies between -1 and 2 pixels (0 or 1 for the idle animation), and
    repeats every four frames. *)
Theorem animation_offset_range (animation_type : AnimationType) (frame_index : Z) :
  exists o,
    _get_animation_offset animation_type frame_index = Ok o /\
    -1 <= o <= 2 /\
    (animation_type = IDLE -> 0 <= o <= 1) /\
    _get_animation_offset animation_type (frame_index + 4) = Ok o.
Proof.
  destruct (animation_offset_total animation_type frame_index) as (o & Ho & Hb).
  exists o. split; [exact Ho |]. split; [exact Hb |]. split.
  - intros ->. unfold _get_animation_offset in Ho. injection Ho as <-.
    pose proof (Z.mod_pos_bound frame_index 2 ltac:(lia)). lia.
  - rewrite animation_offset_period. exact Ho.
Qed.

(** X6: the generated animations loop: frame [i + 4] is the same image
    as frame [i] for every animation, and the idle animation already
    repeats after two frames. *)
Theorem animation_frames_loop (be : Backend) (resolution : Z * Z) (theme : ThemeConfig)
  (creature_index : Z) (animation_type : AnimationType) (frame_index : Z) :
  generate_single_creature be resolution theme creature_index animation_type
    (frame_index + 4)
  = generate_single_creature be resolution theme creature_index animation_type
      frame_index /\
  generate_single_creature be resolution theme creature_index IDLE (frame_index + 2)
  = generate_single_creature be resolution theme creature_index IDLE frame_index.
Proof.
  unfold generate_single_creature.
  rewrite animation_offset_period. split; [reflexivity |].
  unfold _get_animation_offset.
  replace ((frame_index + 2) mod 2) with (frame_index mod 2)
    by (symmetry; apply (Z_mod_plus_full frame_index 1 2)).
  reflexivity.
Qed.

Lemma animation_frames_helper (be : Backend) (w h : Z) (theme : ThemeConfig)
  (creature_index : Z) (animation_type : AnimationType) (num_frames : Z) :
  (forall s n, (0 < n)%nat -> (randbelow be s n < n)%nat) ->
  0 <= w -> 0 <= h ->
  exists frames,
    generate_animation_frames be (w, h) theme creature_index animation_type num_frames
    = Ok frames /\
    len frames = Z.max 0 num_frames /\
    forall i, 0 <= i < num_frames ->
      exists f,
        nth_error frames (Z.to_nat i) = Some f /\
        generate_single_creature be (w, h) theme creature_index animation_type i = Ok f /\
        mode f = RGBA /\ size f = (w, h).
Proof.
  intros Hr Hw Hh. unfold generate_animation_frames.
  destruct (for_append_defined
              (fun i => generate_single_creature be (w, h) theme creature_index
                          animation_type i) (range num_frames)) as [frames Hf].
  { intros i _.
    destruct (single_creature_defined be w h theme creature_index animation_type i
                Hr Hw Hh) as [calls Hc].
    eexists; exact Hc. }
  exists frames. split; [exact Hf |].
  apply for_append_nth in Hf. destruct Hf as [Hlen Hnth].
  split.
  - unfold len. rewrite Hlen, range_length. lia.
  - intros i Hi.
    destruct (Hnth (Z.to_nat i) i) as (f & Hf1 & Hf2).
    { rewrite range_nth by lia. f_equal. lia. }
    exists f. split; [exact Hf1 |]. split; [exact Hf2 |].
    apply single_creature_shape in Hf2. cbn [fst snd] in Hf2. tauto.
Qed.

(** X7: [generate_animation_frames] returns exactly [max(0, num_frames)]
    frames; the frame at position [i] is the creature's frame of index
    [i], an RGBA image of the resolution. *)
Theorem animation_frames_spec (be : Backend) (w h : Z) (theme : ThemeConfig)
  (creature_index : Z) (animation_type : AnimationType) (num_frames : Z) :
  (forall s n, (0 < n)%nat -> (randbelow be s n < n)%nat) ->
  0 <= w -> 0 <= h ->
  exists frames,
    generate_animation_frames be (w, h) theme creature_index animation_type num_frames
    = Ok frames /\
    len frames = Z.max 0 num_frames /\
    forall i, 0 <= i < num_frames ->
      exists f,
        nth_error frames (Z.to_nat i) = Some f /\
        generate_single_creature be (w, h) theme creature_index animation_type i = Ok f /\
        mode f = RGBA /\ size f = (w, h).
Proof.
  exact (animation_frames_helper be w h theme creature_index animation_type num_frames).
Qed.

Lemma animation_frames_spec_witness :
  exists frames,
    generate_animation_frames demo_backend (8, 8) demo_theme 2 ATTACK 4 = Ok frames /\
    len frames = Z.max 0 4 /\
    forall i, 0 <= i < 4 ->
      exists f,
        nth_error frames (Z.to_nat i) = Some f /\
        generate_single_creature demo_backend (8, 8) demo_theme 2 ATTACK i = Ok f /\
        mode f = RGBA /\ size f = (8, 8).
Proof.
  apply (animation_frames_spec demo_backend 8 8 demo_theme 2 ATTACK 4).
  - intros s n H. exact H.
  - lia.
  - lia.
Defined.

(** X8: the animation sheet of a generated animation.  For [n >= 1]
    frames of resolution [(w, h)] and a gap [s >= 0] the pipeline's
    composition succeeds; the sheet is RGBA, [n*w + (n-1)*s] by [h], and
    shows frame [i] of the creature at [(i*(w+s), 0)] over the
    background. *)
Theorem generated_sheet_layout (be : Backend) (w h : Z) (theme : ThemeConfig)
  (creature_index : Z) (animation_type : AnimationType) (n s : Z) (bg : Pixel) :
  (forall sd k, (0 < k)%nat -> (randbelow be sd k < k)%nat) ->
  0 <= w -> 0 <= h -> 1 <= n -> 0 <= s ->
  exists frames sheet,
    generate_animation_frames be (w, h) theme creature_index animation_type n
    = Ok frames /\
    create_animation_sprite_sheet frames s bg = Ok sheet /\
    mode sheet = RGBA /\ size sheet = (n * w + (n - 1) * s, h) /\
    forall i u v, 0 <= i < n -> 0 <= u < w -> 0 <= v < h ->
      exists f,
        generate_single_creature be (w, h) theme creature_index animation_type i = Ok f /\
        load sheet (i * (w + s) + u) v = paste_pixel f u v bg.
Proof.
  intros Hr Hw Hh Hn Hs.
  destruct (animation_frames_helper be w h theme creature_index animation_type n
              Hr Hw Hh) as (frames & Hf & Hlen & Hnth).
  exists frames.
  assert (Hsize : forall g, In g frames -> width g = w /\ height g = h).
  { intros g Hg. apply In_nth_error in Hg. destruct Hg as [k Hk].
    pose proof (nth_error_len _ _ _ Hk) as Hk'.
    destruct (Hnth (Z.of_nat k) ltac:(lia)) as (f & Hf1 & _ & _ & Hf3).
    rewrite Nat2Z.id in Hf1. rewrite Hk in Hf1. injection Hf1 as <-.
    unfold size in Hf3. injection Hf3 as -> ->. auto. }
  destruct frames as [| f0 fs]; [unfold len in Hlen; cbn in Hlen; lia |].
  destruct (Hsize f0 (or_introl eq_refl)) as [Hw0 Hh0].
  assert (Hl : len (f0 :: fs) = n) by lia.
  eexists. split; [exact Hf |].
  split; [apply animation_sheet_eq; rewrite ?Hl, ?Hw0, ?Hh0; nia |].
  destruct (paste_all_shape
              (row_layout (f0 :: fs) 0 0 (width f0 + s))
              (blank RGBA (len (f0 :: fs) * width f0 + (len (f0 :: fs) - 1) * s)
                     (height f0) bg)) as (Hm & Hwd & Hht).
  split; [rewrite Hm; reflexivity |].
  split; [unfold size; rewrite Hwd, Hht, Hl, Hw0, Hh0; reflexivity |].
  intros i u v Hi Hu Hv.
  destruct (Hnth i Hi) as (f & Hf1 & Hf2 & _).
  exists f. split; [exact Hf2 |].
  rewrite Hl, Hw0, Hh0.
  pose proof (row_pixel (f0 :: fs) w h s 0 0
                (blank RGBA (n * w + (n - 1) * s) h bg)
                (Z.to_nat i) f u v Hs Hsize Hf1 Hu Hv) as Hpx.
  rewrite Z2Nat.id in Hpx by lia. cbn [Z.add] in Hpx. apply Hpx.
  unfold inside. cbn [blank width height].
  destruct (Z.leb_spec 0 (i * (w + s) + u)); [| nia].
  destruct (Z.ltb_spec (i * (w + s) + u) (n * w + (n - 1) * s)); [| nia].
  destruct (Z.leb_spec 0 v), (Z.ltb_spec v h); try lia; reflexivity.
Qed.

Lemma generated_sheet_layout_witness :
  exists frames sheet,
    generate_animation_frames demo_backend (8, 8) demo_theme 1 IDLE 4 = Ok frames /\
    create_animation_sprite_sheet frames 2 (0, 0, 0, 0) = Ok sheet /\
    mode sheet = RGBA /\ size sheet = (4 * 8 + (4 - 1) * 2, 8) /\
    forall i u v, 0 <= i < 4 -> 0 <= u < 8 -> 0 <= v < 8 ->
      exists f,
        generate_single_creature demo_backend (8, 8) demo_theme 1 IDLE i = Ok f /\
        load sheet (i * (8 + 2) + u) v = paste_pixel f u v (0, 0, 0, 0).
Proof.
  apply (generated_sheet_layout demo_backend 8 8 demo_theme 1 IDLE 4 2 (0, 0, 0, 0)).
  - intros sd k H. exact H.
  - lia.
  - lia.
  - lia.
  - lia.
Defined.

(** X9: with [num_frames <= 0] the generator returns an empty list, for
    any resolution, and the sheet composer rejects it with [ValueError]. *)
Theorem no_frames_no_sheet (be : Backend) (resolution : Z * Z) (theme : ThemeConfig)
  (creature_index : Z) (animation_type : AnimationType) (num_frames s : Z) (bg : Pixel) :
  num_frames <= 0 ->
  generate_animation_frames be resolution theme creature_index animation_type num_frames
  = Ok [] /\
  (frames <- generate_animation_frames be resolution theme creature_index
               animation_type num_frames ;;
   create_animation_sprite_sheet frames s bg)
  = Raise (ValueError "Cannot create sprite sheet from empty frame list").
Proof.
  intros Hn. unfold generate_animation_frames, range.
  replace (Z.to_nat num_frames) with 0%nat by lia. cbn. split; reflexivity.
Qed.

Lemma no_frames_no_sheet_witness :
  generate_animation_frames demo_backend (8, 8) demo_theme 0 WALK 0 = Ok [] /\
  (frames <- generate_animation_frames demo_backend (8, 8) demo_theme 0 WALK 0 ;;
   create_animation_sprite_sheet frames 2 (0, 0, 0, 0))
  = Raise (ValueError "Cannot create sprite sheet from empty frame list").
Proof.
  apply (no_frames_no_sheet demo_backend (8, 8) demo_theme 0 WALK 0 2 (0, 0, 0, 0)).
  lia.
Defined.

(** X10: for a non-negative resolution every box handed to
    [draw.ellipse] and [draw.rectangle] has [x0 <= x1] and [y0 <= y1],
    for each of the five shapes and every offset. *)
Theorem draw_boxes_ordered (w h : Z) (colors : string * string * string) (offset : Z) :
  0 <= w -> 0 <= h ->
  Forall call_ordered (_draw_blob_creature w h colors offset) /\
  Forall call_ordered (_draw_quadruped_creature w h colors offset) /\
  Forall call_ordered (_draw_biped_creature w h colors offset) /\
  Forall call_ordered (_draw_flying_creature w h colors offset) /\
  Forall call_ordered (_draw_serpent_creature w h colors offset).
Proof.
  intros Hw Hh. destruct colors as [[primary secondary] accent].
  assert (Hm : 0 <= Z.min w h) by lia.
  repeat split; cbn -[Z.div Z.mul Z.add Z.sub Z.min Z.modulo];
    repeat constructor; Z.div_mod_to_equations; lia.
Qed.

Lemma draw_boxes_ordered_witness :
  Forall call_ordered (_draw_blob_creature 32 32 ("a", "b", "c") 1) /\
  Forall call_ordered (_draw_quadruped_creature 32 32 ("a", "b", "c") 1) /\
  Forall call_ordered (_draw_biped_creature 32 32 ("a", "b", "c") 1) /\
  Forall call_ordered (_draw_flying_creature 32 32 ("a", "b", "c") 1) /\
  Forall call_ordered (_draw_serpent_creature 32 32 ("a", "b", "c") 1).
Proof.
  apply (draw_boxes_ordered 32 32 ("a", "b", "c") 1); lia.
Defined.

(** X11: what the pack preview shows of an animation sheet.  The
    preview crops the square [(0, 0, H, H)] of the sheet and upscales it;
    for frames [W] wide and [H <= W] high this is the left [H] columns
    of the first frame over the sheet's background, each pixel blown up
    to a [scale] by [scale] block. *)
Theorem preview_sprite_first_frame (f0 : Image) (fs : list Image)
  (spacing W H scale : Z) (bg : Pixel) :
  0 <= spacing -> 0 <= H -> H <= W -> 1 <= scale ->
  (forall f, In f (f0 :: fs) -> width f = W /\ height f = H) ->
  exists sheet sprite,
    create_animation_sprite_sheet (f0 :: fs) spacing bg = Ok sheet /\
    (first_frame <- crop sheet (0, 0, height sheet, height sheet) ;;
     upscale_nearest_neighbor first_frame scale) = Ok sprite /\
    mode sprite = RGBA /\ size sprite = (H * scale, H * scale) /\
    forall i j u v,
      0 <= i < H -> 0 <= j < H -> 0 <= u < scale -> 0 <= v < scale ->
      load sprite (i * scale + u) (j * scale + v) = paste_pixel f0 i j bg.
Proof.
  intros Hs HH HW Hk Hsize.
  destruct (Hsize f0 (or_introl eq_refl)) as [Hw0 Hh0].
  pose proof (len_nonneg fs) as Hlen.
  assert (Htw : 0 <= len (f0 :: fs) * width f0 + (len (f0 :: fs) - 1) * spacing).
  { rewrite len_cons. nia. }
  pose proof (animation_sheet_eq f0 fs spacing bg Htw ltac:(lia)) as Hsheet.
  set (sheet := paste_all (row_layout (f0 :: fs) 0 0 (width f0 + spacing))
                  (blank RGBA (len (f0 :: fs) * width f0 + (len (f0 :: fs) - 1) * spacing)
                     (height f0) bg)) in *.
  destruct (paste_all_shape
              (row_layout (f0 :: fs) 0 0 (width f0 + spacing))
              (blank RGBA (len (f0 :: fs) * width f0 + (len (f0 :: fs) - 1) * spacing)
                     (height f0) bg)) as (Hm & Hwd & Hht).
  fold sheet in Hm, Hwd, Hht. cbn [blank mode width height] in Hm, Hwd, Hht.
  assert (Hwf : wf sheet) by (unfold wf; lia).
  exists sheet, (sprite_of scale sheet).
  split; [exact Hsheet |]. split; [apply sprite_eq; assumption |].
  destruct (sprite_spec scale sheet Hk Hwf) as (Sm & Sw & Sh & Spx).
  split; [congruence |].
  split; [unfold size; rewrite Sw, Sh, Hht, Hh0; reflexivity |].
  intros i j u v Hi Hj Hu Hv.
  rewrite Spx by lia.
  assert (Hiw : i < width sheet) by (rewrite Hwd, len_cons; nia).
  destruct (Z.ltb_spec i (width sheet)); [| lia].
  pose proof (row_pixel (f0 :: fs) W H spacing 0 0
                (blank RGBA (len (f0 :: fs) * width f0 + (len (f0 :: fs) - 1) * spacing)
                   (height f0) bg)
                0 f0 i j Hs Hsize eq_refl ltac:(lia) ltac:(lia)) as Hpx.
  cbn [Z.of_nat Z.mul Z.add] in Hpx. rewrite Hw0 in Hpx at 1.
  unfold sheet. rewrite Hw0 at 1. apply Hpx.
  unfold inside. cbn [blank width height]. rewrite len_cons.
  destruct (Z.leb_spec 0 i); [| lia].
  destruct (Z.ltb_spec i ((len fs + 1) * width f0 + (len fs + 1 - 1) * spacing)); [| nia].
  destruct (Z.leb_spec 0 j), (Z.ltb_spec j (height f0)); try lia; reflexivity.
Qed.

Lemma preview_sprite_first_frame_witness :
  exists sheet sprite,
    create_animation_sprite_sheet
      (blank RGBA 32 32 (255, 0, 0, 255) :: three_images) 2 (0, 0, 0, 0) = Ok sheet /\
    (first_frame <- crop sheet (0, 0, height sheet, height sheet) ;;
     upscale_nearest_neighbor first_frame 8) = Ok sprite /\
    mode sprite = RGBA /\ size sprite = (32 * 8, 32 * 8) /\
    forall i j u v,
      0 <= i < 32 -> 0 <= j < 32 -> 0 <= u < 8 -> 0 <= v < 8 ->
      load sprite (i * 8 + u) (j * 8 + v)
      = paste_pixel (blank RGBA 32 32 (255, 0, 0, 255)) i j (0, 0, 0, 0).
Proof.
  apply (preview_sprite_first_frame (blank RGBA 32 32 (255, 0, 0, 255)) three_images
           2 32 32 8 (0, 0, 0, 0)); try lia.
  intros f Hin. cbn in Hin.
  destruct Hin as [<- | [<- | [<- | [<- | []]]]]; split; reflexivity.
Defined.

(** ** Strings and formatted integers *)

Lemma all_chars_app (P : ascii -> bool) (a b : string) :
  all_chars P (a ++ b) = all_chars P a && all_chars P b.
Proof.
  induction a as [| c a IH]; cbn [append all_chars]; [reflexivity |].
  rewrite IH. now rewrite andb_assoc.
Qed.

Lemma all_chars_weaken (P Q : ascii -> bool) (s : string) :
  (forall c, P c = true -> Q c = true) ->
  all_chars P s = true -> all_chars Q s = true.
Proof.
  intros H. induction s as [| c s IH]; cbn [all_chars]; [reflexivity |].
  intros E. apply andb_true_iff in E. destruct E as [E1 E2].
  rewrite (H c E1), (IH E2). reflexivity.
Qed.

Lemma numeric_not_slash (c : ascii) : numeric c = true -> not_slash c = true.
Proof.
  unfold numeric, not_slash. destruct (Ascii.eqb_spec c "/") as [-> |]; [| reflexivity].
  vm_compute. discriminate.
Qed.

Lemma uint_numeric (d : Decimal.uint) :
  all_chars numeric (NilEmpty.string_of_uint d) = true.
Proof. induction d; cbn [NilEmpty.string_of_uint all_chars]; rewrite ?IHd; reflexivity. Qed.

Lemma uint_value (d : Decimal.uint) :
  digits_value (NilEmpty.string_of_uint d) = Some (Z.of_uint d).
Proof. unfold digits_value. now rewrite NilEmpty.usu. Qed.

Lemma str_nonneg (n : Z) :
  0 <= n ->
  exists d, str n = NilEmpty.string_of_uint d /\ Z.of_uint d = n /\ str n <> "".
Proof.
  intros H. pose proof (DecimalZ.of_to n) as Hn. unfold str.
  destruct n as [| p | p]; [| | lia].
  - exists (Decimal.D0 Decimal.Nil). repeat split. discriminate.
  - cbn [Z.to_int] in *. exists (Pos.to_uint p).
    cbn [NilZero.string_of_int]. unfold NilZero.string_of_uint.
    pose proof (DecimalPos.Unsigned.to_uint_nonnil p).
    destruct (Pos.to_uint p); [congruence | (repeat split; [exact Hn | discriminate]) ..].
Qed.

Lemma str_neg (n : Z) : n < 0 -> str n = String "-" (str (- n)).
Proof.
  intros H. destruct n as [| p | p]; [lia | lia |]. reflexivity.
Qed.

Lemma str_numeric (n : Z) : all_chars numeric (str n) = true.
Proof.
  destruct (Z.lt_ge_cases n 0) as [H | H].
  - rewrite (str_neg n H). cbn [all_chars].
    destruct (str_nonneg (- n) ltac:(lia)) as (d & -> & _ & _).
    now rewrite uint_numeric.
  - destruct (str_nonneg n H) as (d & -> & _ & _). apply uint_numeric.
Qed.

Lemma str_head (n : Z) : 0 <= n -> startswith (str n) "-" = false.
Proof.
  intros H. destruct (str_nonneg n H) as (d & -> & _ & _).
  destruct d; reflexivity.
Qed.

Lemma zeros_numeric (k : nat) : all_chars numeric (zeros k) = true.
Proof. induction k; cbn [zeros all_chars]; [reflexivity | now rewrite IHk]. Qed.

Lemma zeros_value (k : nat) (s : string) :
  digits_value (zeros k ++ s) = digits_value s.
Proof.
  induction k as [| k IH]; cbn [zeros append]; [reflexivity |].
  rewrite <- IH. unfold digits_value. cbn [NilEmpty.uint_of_string].
  destruct (NilEmpty.uint_of_string (zeros k ++ s)); reflexivity.
Qed.

Lemma zfill_value (w : nat) (n : Z) :
  0 <= n -> digits_value (zfill w (str n)) = Some n.
Proof.
  intros H. unfold zfill. rewrite zeros_value.
  destruct (str_nonneg n H) as (d & -> & <- & _). apply uint_value.
Qed.

Lemma zfill_head (w : nat) (n : Z) :
  0 <= n -> startswith (zfill w (str n)) "-" = false.
Proof.
  intros H. unfold zfill.
  destruct (w - String.length (str n))%nat; cbn [zeros append]; [| reflexivity].
  now apply str_head.
Qed.

Lemma format_0d_value (w : nat) (n : Z) : int_value (format_0d w n) = Some n.
Proof.
  unfold format_0d. destruct (Z.ltb_spec n 0) as [H | H].
  - cbn [append int_value]. change (Ascii.eqb "-" "-") with true. cbv iota.
    rewrite zfill_value by lia. cbn [option_map]. now rewrite Z.opp_involutive.
  - pose proof (zfill_head w n H) as Hh. pose proof (zfill_value w n H) as Hv.
    assert (Hne : zfill w (str n) <> "").
    { unfold zfill. destruct (str_nonneg n H) as (_ & _ & _ & Hs).
      destruct (zeros (w - String.length (str n))); cbn [append]; [exact Hs | discriminate]. }
    destruct (zfill w (str n)) as [| c s]; [congruence |].
    cbn [int_value]. cbn [startswith] in Hh.
    destruct (Ascii.eqb_spec c "-") as [-> |]; [| exact Hv].
    cbn in Hh. destruct s; discriminate Hh.
Qed.

Lemma format_0d_inj (w : nat) (a b : Z) : format_0d w a = format_0d w b -> a = b.
Proof.
  intros H. pose proof (format_0d_value w a) as Ha. rewrite H, format_0d_value in Ha.
  congruence.
Qed.

Lemma format_0d_numeric (w : nat) (n : Z) : all_chars numeric (format_0d w n) = true.
Proof.
  unfold format_0d, zfill. destruct (n <? 0); cbn [append all_chars];
    rewrite all_chars_app, zeros_numeric, str_numeric; reflexivity.
Qed.

Lemma str_value (n : Z) : int_value (str n) = Some n.
Proof.
  rewrite <- (format_0d_value 0 n). unfold format_0d.
  destruct (Z.ltb_spec n 0) as [H | H].
  - now rewrite (str_neg n H).
  - reflexivity.
Qed.

Lemma str_inj (a b : Z) : str a = str b -> a = b.
Proof.
  intros H. pose proof (str_value a) as Ha. rewrite H, str_value in Ha. congruence.
Qed.

Lemma append_inv_head (p a b : string) : p ++ a = p ++ b -> a = b.
Proof.
  induction p as [| c p IH]; cbn [append]; [auto |].
  intros H. injection H as H. auto.
Qed.

(** Two ways to split a string into a run of characters of a class and a
    rest that starts outside the class agree. *)
Lemma span_unique (P : ascii -> bool) (a a' r r' : string) :
  all_chars P a = true -> all_chars P a' = true ->
  (forall c t, r = String c t -> P c = false) ->
  (forall c t, r' = String c t -> P c = false) ->
  a ++ r = a' ++ r' -> a = a' /\ r = r'.
Proof.
  revert a'. induction a as [| c a IH]; intros a' Ha Ha' Hr Hr' H.
  - destruct a' as [| c' a']; cbn [append] in H; [auto |].
    cbn [all_chars] in Ha'. apply andb_true_iff in Ha'. destruct Ha' as [Hc _].
    rewrite (Hr c' (a' ++ r') H) in Hc. discriminate.
  - cbn [all_chars] in Ha. apply andb_true_iff in Ha. destruct Ha as [Hc Ha].
    destruct a' as [| c' a']; cbn [append] in H.
    + rewrite (Hr' c (a ++ r) (eq_sym H)) in Hc. discriminate.
    + injection H as -> H.
      cbn [all_chars] in Ha'. apply andb_true_iff in Ha'. destruct Ha' as [_ Ha'].
      destruct (IH a' Ha Ha' Hr Hr' H) as [-> ->]. auto.
Qed.

Lemma number_then_text (x y : string) (c c' : ascii) (t t' : string) :
  all_chars numeric x = true -> all_chars numeric y = true ->
  numeric c = false -> numeric c' = false ->
  x ++ String c t = y ++ String c' t' -> x = y /\ String c t = String c' t'.
Proof.
  intros Hx Hy Hc Hc' H.
  apply (span_unique numeric x y (String c t) (String c' t') Hx Hy); [| | exact H].
  - intros ? ? [= <- _]. exact Hc.
  - intros ? ? [= <- _]. exact Hc'.
Qed.

Ltac strip H :=
  cbn [append value] in H;
  repeat first [discriminate H | injection H as H].

Lemma frame_filename_inj (i j v v' : Z) :
  frame_filename i v = frame_filename j v' -> i = j /\ Z.max 0 v = Z.max 0 v'.
Proof.
  unfold frame_filename.
  destruct (Z.gtb_spec v 0) as [Hv | Hv], (Z.gtb_spec v' 0) as [Hv' | Hv'];
    intros H; strip H.
  - apply number_then_text in H;
      [| apply format_0d_numeric | apply format_0d_numeric | reflexivity | reflexivity].
    destruct H as [Hi H]. apply format_0d_inj in Hi. strip H.
    apply number_then_text in H;
      [| apply str_numeric | apply str_numeric | reflexivity | reflexivity].
    destruct H as [Hs _]. apply str_inj in Hs. lia.
  - apply number_then_text in H;
      [| apply format_0d_numeric | apply format_0d_numeric | reflexivity | reflexivity].
    destruct H as [_ H]. discriminate H.
  - apply number_then_text in H;
      [| apply format_0d_numeric | apply format_0d_numeric | reflexivity | reflexivity].
    destruct H as [_ H]. discriminate H.
  - apply number_then_text in H;
      [| apply format_0d_numeric | apply format_0d_numeric | reflexivity | reflexivity].
    destruct H as [Hi _]. apply format_0d_inj in Hi. lia.
Qed.

Lemma sheet_filename_inj (k k' : AnimationType) (v v' : Z) (c c' : bool) :
  sheet_filename k v c = sheet_filename k' v' c' ->
  c = c' /\ (c = false -> k = k') /\ Z.max 0 v = Z.max 0 v'.
Proof.
  unfold sheet_filename.
  destruct (Z.gtb_spec v 0) as [Hv | Hv], (Z.gtb_spec v' 0) as [Hv' | Hv'];
    destruct c, c', k, k'; intros H; strip H;
    try (apply number_then_text in H;
         [| apply str_numeric | apply str_numeric | reflexivity | reflexivity];
         destruct H as [Hs _]; apply str_inj in Hs);
    (split; [reflexivity | split; [try reflexivity; discriminate | lia]]).
Qed.

(** ** Paths *)

Lemma split_slash_plain (s : string) :
  all_chars not_slash s = true -> pathlib.split_slash s = [s].
Proof.
  induction s as [| c s IH]; cbn [all_chars pathlib.split_slash]; [reflexivity |].
  intros H. apply andb_true_iff in H. destruct H as [Hc Hs].
  unfold not_slash in Hc. apply negb_true_iff in Hc. rewrite Hc, (IH Hs). reflexivity.
Qed.

Lemma PurePath_plain (s : string) :
  plain s = true -> pathlib.PurePath s = pathlib.mkPath "" [s].
Proof.
  unfold plain. intros H.
  apply andb_true_iff in H. destruct H as [H H3].
  apply andb_true_iff in H. destruct H as [H1 H2].
  unfold pathlib.PurePath. rewrite (split_slash_plain s H1).
  cbn [filter]. unfold pathlib.is_part. rewrite H2, H3. cbn [andb].
  f_equal. unfold pathlib.parse_root.
  destruct s as [| c s]; [reflexivity |].
  cbn [all_chars] in H1. apply andb_true_iff in H1. destruct H1 as [Hc _].
  unfold not_slash in Hc. apply negb_true_iff in Hc.
  cbn [pathlib.leading_slashes]. rewrite Hc. reflexivity.
Qed.

Lemma joinpath_plain (p : pathlib.Path) (s : string) :
  plain s = true ->
  p </> s = pathlib.mkPath (pathlib.root p) (pathlib.parts p ++ [s]).
Proof.
  intros H. unfold pathlib.joinpath. rewrite (PurePath_plain s H). reflexivity.
Qed.

Lemma parts_eqb_eq (a b : list string) : pathlib.parts_eqb a b = true <-> a = b.
Proof.
  revert b. induction a as [| x a IH]; intros [| y b]; cbn [pathlib.parts_eqb];
    try (split; [discriminate | discriminate]); [tauto |].
  rewrite andb_true_iff, String.eqb_eq, IH. split; [intros [-> ->] | intros [= -> ->]]; auto.
Qed.

Lemma path_eqb_eq (p q : pathlib.Path) : pathlib.eqb p q = true <-> p = q.
Proof.
  unfold pathlib.eqb. rewrite andb_true_iff, String.eqb_eq, parts_eqb_eq.
  destruct p, q; cbn. split; [intros [-> ->] | intros [= -> ->]]; auto.
Qed.

Lemma path_eqb_refl (p : pathlib.Path) : pathlib.eqb p p = true.
Proof. now apply path_eqb_eq. Qed.

Lemma path_eqb_neq (p q : pathlib.Path) : p <> q -> pathlib.eqb p q = false.
Proof.
  intros H. destruct (pathlib.eqb p q) eqn:E; [| reflexivity].
  apply path_eqb_eq in E. contradiction.
Qed.

Lemma parent_child (p : pathlib.Path) (s : string) :
  pathlib.parent (pathlib.mkPath (pathlib.root p) (pathlib.parts p ++ [s])) = p.
Proof.
  unfold pathlib.parent. cbn [pathlib.root pathlib.parts].
  rewrite removelast_last. destruct p; reflexivity.
Qed.

Lemma name_child (r : string) (ps : list string) (s : string) :
  pathlib.name (pathlib.mkPath r (ps ++ [s])) = s.
Proof. unfold pathlib.name. cbn [pathlib.parts]. apply last_last. Qed.

Lemma child_inj (p : pathlib.Path) (s t : string) :
  pathlib.mkPath (pathlib.root p) (pathlib.parts p ++ [s])
  = pathlib.mkPath (pathlib.root p) (pathlib.parts p ++ [t]) -> s = t.
Proof.
  intros [= H]. apply app_inv_head in H. congruence.
Qed.

Lemma child_not_parent (p : pathlib.Path) (s : string) :
  pathlib.mkPath (pathlib.root p) (pathlib.parts p ++ [s]) <> p.
Proof.
  destruct p as [r ps]. cbn. intros [= H].
  apply (f_equal (@length string)) in H. rewrite length_app in H. cbn in H. lia.
Qed.

(** ** The disk *)

Lemma stat_cons (d : Disk) (p q : pathlib.Path) (n : Node) :
  pathlib.parts q <> [] ->
  stat ((p, n) :: d) q = if pathlib.eqb p q then Some n else stat d q.
Proof.
  intros H. unfold stat. destruct (pathlib.parts q); [congruence | reflexivity].
Qed.

Lemma stat_cons_other (d : Disk) (p x : pathlib.Path) (n : Node) :
  x <> p -> stat ((p, n) :: d) x = stat d x.
Proof.
  intros H. unfold stat. destruct (pathlib.parts x); [reflexivity |].
  cbn [lookup_path]. rewrite path_eqb_neq by congruence. reflexivity.
Qed.

Lemma stat_cons_same (d : Disk) (p : pathlib.Path) (n : Node) :
  pathlib.parts p <> [] -> stat ((p, n) :: d) p = Some n.
Proof.
  intros H. rewrite stat_cons by exact H. now rewrite path_eqb_refl.
Qed.

Lemma stat_empty_path (d : Disk) (r : string) : stat d (pathlib.mkPath r []) = Some Directory.
Proof. reflexivity. Qed.

Lemma mkdir_each_spec (r : string) (target : list string) (qs : list (list string))
  (d : Disk) :
  (forall q, In q qs -> is_file (stat d (pathlib.mkPath r q)) = false) ->
  exists d1,
    mkdir_each r target qs d = Done tt d1 /\
    (forall q, In q qs -> stat d1 (pathlib.mkPath r q) = Some Directory) /\
    (forall x, stat d1 x = stat d x \/
               (stat d x = None /\ stat d1 x = Some Directory /\
                exists q, In q qs /\ x = pathlib.mkPath r q)).
Proof.
  revert d. induction qs as [| q qs IH]; intros d Hfree; cbn [mkdir_each].
  - exists d. split; [reflexivity |]. split; [intros q [] | intros x; now left].
  - pose proof (Hfree q (or_introl eq_refl)) as Hq.
    destruct (stat d (pathlib.mkPath r q)) as [[| im | t] |] eqn:Eq;
      try discriminate Hq.
    + destruct (IH d) as (d1 & Hrun & Hdirs & Hkeep);
        [intros q' Hq'; apply Hfree; now right |].
      exists d1. split; [exact Hrun |]. split.
      * intros q' [<- | Hq']; [| now apply Hdirs].
        destruct (Hkeep (pathlib.mkPath r q)) as [E | (E & _)]; congruence.
      * intros x. destruct (Hkeep x) as [E | (E1 & E2 & q' & Hq' & ->)]; [now left |].
        right. split; [exact E1 |]. split; [exact E2 |]. exists q'. split; [now right | auto].
    + set (d2 := (pathlib.mkPath r q, Directory) :: d).
      assert (Hq2 : stat d2 (pathlib.mkPath r q) = Some Directory).
      { unfold d2. destruct q as [| a q]; [reflexivity |].
        apply stat_cons_same. discriminate. }
      assert (Hstep : forall x, stat d2 x = stat d x \/
                (stat d x = None /\ stat d2 x = Some Directory /\ x = pathlib.mkPath r q)).
      { intros x. destruct (path_eqb_eq x (pathlib.mkPath r q)) as [Hxq _].
        destruct (pathlib.eqb x (pathlib.mkPath r q)) eqn:Ex.
        - specialize (Hxq eq_refl). subst x. right. split; [exact Eq |].
          split; [exact Hq2 | reflexivity].
        - left. apply stat_cons_other. intros ->. rewrite path_eqb_refl in Ex. discriminate. }
      destruct (IH d2) as (d1 & Hrun & Hdirs & Hkeep).
      { intros q' Hq'. destruct (Hstep (pathlib.mkPath r q')) as [E | (_ & E & _)];
          rewrite E; [apply Hfree; now right | reflexivity]. }
      exists d1. split; [exact Hrun |]. split.
      * intros q' [<- | Hq']; [| now apply Hdirs].
        destruct (Hkeep (pathlib.mkPath r q)) as [E' | (E' & _)]; congruence.
      * intros x.
        destruct (Hkeep x) as [E | (E1 & E2 & q' & Hq' & Hx)];
          destruct (Hstep x) as [E' | (E1' & E2' & Hx')].
        -- left. congruence.
        -- right. split; [exact E1' |]. split; [congruence |].
           exists q. split; [now left | exact Hx'].
        -- right. split; [congruence |]. split; [exact E2 |].
           exists q'. split; [now right | exact Hx].
        -- congruence.
Qed.

Lemma prefixes_self {A : Type} (l : list A) : l <> [] -> In l (prefixes l).
Proof.
  induction l as [| x l IH]; [congruence |]. intros _. cbn [prefixes].
  destruct l as [| y l]; [now left |]. right. apply in_map. apply IH. discriminate.
Qed.

Lemma prefixes_length {A : Type} (l q : list A) :
  In q (prefixes l) -> (length q <= length l)%nat.
Proof.
  revert q. induction l as [| x l IH]; intros q; cbn [prefixes]; [intros [] |].
  intros [<- | H]; [cbn; lia |].
  apply in_map_iff in H. destruct H as (q' & <- & Hq'). cbn. apply IH in Hq'. lia.
Qed.

Lemma mkdir_spec (p : pathlib.Path) (d : Disk) :
  can_mkdir d p = true ->
  exists d1,
    mkdir p d = Done tt d1 /\
    stat d1 p = Some Directory /\
    (forall x, stat d1 x = stat d x \/
               (stat d x = None /\ stat d1 x = Some Directory /\
                (length (pathlib.parts x) <= length (pathlib.parts p))%nat)).
Proof.
  intros H. unfold can_mkdir in H. rewrite forallb_forall in H.
  destruct (mkdir_each_spec (pathlib.root p) (pathlib.parts p)
              (prefixes (pathlib.parts p)) d) as (d1 & Hrun & Hdirs & Hkeep).
  { intros q Hq. apply negb_true_iff. now apply H. }
  exists d1. split; [exact Hrun |]. split.
  - destruct p as [r ps]. destruct ps as [| a ps]; [reflexivity |].
    apply Hdirs. apply prefixes_self. discriminate.
  - intros x. destruct (Hkeep x) as [E | (E1 & E2 & q & Hq & ->)]; [now left |].
    right. split; [exact E1 |]. split; [exact E2 |].
    cbn [pathlib.parts]. now apply prefixes_length.
Qed.

(** ** Saving frames and sheets *)

Lemma numeric_plain_part (s : string) :
  all_chars numeric s = true -> all_chars not_slash s = true.
Proof. apply all_chars_weaken. exact numeric_not_slash. Qed.

Lemma frame_filename_plain (i v : Z) : plain (frame_filename i v) = true.
Proof.
  unfold frame_filename, plain.
  destruct (v >? 0); cbn [append String.eqb Ascii.eqb Bool.eqb andb negb];
    repeat first [ progress cbn [all_chars]
                 | rewrite all_chars_app
                 | rewrite (numeric_plain_part _ (format_0d_numeric 2 i))
                 | rewrite (numeric_plain_part _ (str_numeric v)) ];
    reflexivity.
Qed.

Lemma sheet_filename_plain (k : AnimationType) (v : Z) (c : bool) :
  plain (sheet_filename k v c) = true.
Proof.
  unfold sheet_filename, plain.
  destruct c, (v >? 0), k;
    cbn [value append String.eqb Ascii.eqb Bool.eqb andb negb];
    repeat first [ progress cbn [all_chars]
                 | rewrite all_chars_app
                 | rewrite (numeric_plain_part _ (str_numeric v)) ];
    reflexivity.
Qed.

Lemma value_plain (k : AnimationType) : plain (value k) = true.
Proof. destruct k; reflexivity. Qed.

Lemma frame_path_eq (dir : pathlib.Path) (i v : Z) :
  dir </> frame_filename i v
  = pathlib.mkPath (pathlib.root dir) (pathlib.parts dir ++ [frame_filename i v]).
Proof. apply joinpath_plain, frame_filename_plain. Qed.

Lemma frame_path_inj (dir : pathlib.Path) (i j v v' : Z) :
  dir </> frame_filename i v = dir </> frame_filename j v' ->
  i = j /\ Z.max 0 v = Z.max 0 v'.
Proof.
  rewrite !frame_path_eq. intros H. apply child_inj in H. now apply frame_filename_inj.
Qed.

Lemma frame_paths_In (dir : pathlib.Path) (v i : Z) (frames : list Image)
  (x : pathlib.Path) :
  In x (frame_paths dir v i frames) ->
  exists j, i <= j < i + len frames /\ x = dir </> frame_filename j v.
Proof.
  revert i. induction frames as [| f fs IH]; intros i; cbn [frame_paths]; [intros [] |].
  rewrite len_cons. pose proof (len_nonneg fs) as Hlen.
  intros [<- | H].
  - exists i. split; [lia | reflexivity].
  - destruct (IH (i + 1) H) as (j & Hj & ->). exists j. split; [lia | reflexivity].
Qed.

Lemma frame_paths_length (dir : pathlib.Path) (v i : Z) (frames : list Image) :
  length (frame_paths dir v i frames) = length frames.
Proof.
  revert i. induction frames as [| f fs IH]; intros i; cbn [frame_paths length];
    [reflexivity | now rewrite IH].
Qed.

Lemma frame_paths_nth (dir : pathlib.Path) (v i : Z) (frames : list Image)
  (k : nat) (f : Image) :
  nth_error frames k = Some f ->
  nth_error (frame_paths dir v i frames) k
  = Some (dir </> frame_filename (i + Z.of_nat k) v).
Proof.
  revert i k. induction frames as [| g fs IH]; intros i [| k]; cbn [nth_error frame_paths];
    try discriminate.
  - intros _. now rewrite Z.add_0_r.
  - intros H. rewrite (IH (i + 1) k H). do 3 f_equal. lia.
Qed.

Lemma frame_paths_NoDup (dir : pathlib.Path) (v i : Z) (frames : list Image) :
  NoDup (frame_paths dir v i frames).
Proof.
  revert i. induction frames as [| f fs IH]; intros i; cbn [frame_paths]; constructor.
  - intros H. apply frame_paths_In in H. destruct H as (j & Hj & E).
    apply frame_path_inj in E. lia.
  - apply IH.
Qed.

Lemma written_other (dir : pathlib.Path) (v i : Z) (frames : list Image) (d : Disk)
  (x : pathlib.Path) :
  ~ In x (frame_paths dir v i frames) -> stat (written dir v i frames d) x = stat d x.
Proof.
  revert i d. induction frames as [| f fs IH]; intros i d; cbn [frame_paths written];
    [reflexivity |].
  intros H. rewrite IH by (intros Hin; apply H; now right).
  apply stat_cons_other. intros ->. apply H. now left.
Qed.

Lemma written_nth (dir : pathlib.Path) (v i : Z) (frames : list Image) (d : Disk)
  (k : nat) (f : Image) :
  nth_error frames k = Some f ->
  stat (written dir v i frames d) (dir </> frame_filename (i + Z.of_nat k) v)
  = Some (ImageFile f).
Proof.
  revert i d k. induction frames as [| g fs IH]; intros i d [| k];
    cbn [nth_error written]; try discriminate.
  - intros [= ->]. rewrite Z.add_0_r. rewrite written_other.
    + apply stat_cons_same. rewrite frame_path_eq. cbn [pathlib.parts].
      intros E. apply app_eq_nil in E. destruct E as [_ E]. discriminate.
    + intros H. apply frame_paths_In in H. destruct H as (j & Hj & E).
      apply frame_path_inj in E. lia.
  - intros H. replace (i + Z.of_nat (S k)) with (i + 1 + Z.of_nat k) by lia.
    now apply IH.
Qed.

Lemma image_save_file (im : Image) (dir : pathlib.Path) (s : string) (d : Disk) :
  plain s = true ->
  stat d dir = Some Directory ->
  is_dir (stat d (dir </> s)) = false ->
  png_writable im = true ->
  image_save im (dir </> s) d = Done tt ((dir </> s, ImageFile im) :: d).
Proof.
  intros Hs Hdir Hfree Hw. unfold image_save.
  rewrite (joinpath_plain dir s Hs) in *. rewrite parent_child, Hdir, Hw.
  destruct (stat d (pathlib.mkPath (pathlib.root dir) (pathlib.parts dir ++ [s])))
    as [[| im' | t] |]; try reflexivity. discriminate Hfree.
Qed.

Lemma save_frames_loop (dir : pathlib.Path) (v : Z) (frames : list Image) (i : Z)
  (acc : list pathlib.Path) (d : Disk) :
  stat d dir = Some Directory ->
  forallb png_writable frames = true ->
  (forall j, i <= j < i + len frames ->
             is_dir (stat d (dir </> frame_filename j v)) = false) ->
  io_for_each (enumerate_from i frames)
    (fun saved_paths '(i, frame) =>
       io_bind (image_save frame (dir </> frame_filename i v))
         (fun _ => io_ret (saved_paths ++ [dir </> frame_filename i v])%list))
    acc d
  = Done (acc ++ frame_paths dir v i frames)%list (written dir v i frames d).
Proof.
  revert i acc d. induction frames as [| f fs IH]; intros i acc d Hdir Hw Hfree;
    cbn [enumerate_from io_for_each frame_paths written].
  - unfold io_ret. now rewrite app_nil_r.
  - cbn [forallb] in Hw. apply andb_true_iff in Hw. destruct Hw as [Hf Hfs].
    rewrite len_cons in Hfree. pose proof (len_nonneg fs) as Hlen.
    unfold io_bind at 1. unfold io_bind at 1.
    rewrite (image_save_file f dir (frame_filename i v) d (frame_filename_plain i v)
               Hdir (Hfree i ltac:(lia)) Hf).
    unfold io_ret at 1. rewrite IH.
    + now rewrite <- app_assoc.
    + rewrite stat_cons_other; [exact Hdir |].
      rewrite frame_path_eq. intros E. symmetry in E. revert E. apply child_not_parent.
    + exact Hfs.
    + intros j Hj.
      destruct (path_eqb_eq (dir </> frame_filename j v) (dir </> frame_filename i v))
        as [H1 _].
      destruct (pathlib.eqb (dir </> frame_filename j v) (dir </> frame_filename i v)) eqn:E.
      * rewrite (H1 eq_refl). rewrite stat_cons_same; [reflexivity |].
        rewrite frame_path_eq. cbn [pathlib.parts].
        intros E'. apply app_eq_nil in E'. destruct E' as [_ E']. discriminate.
      * rewrite stat_cons_other; [apply Hfree; lia |].
        intros E'. rewrite E', path_eqb_refl in E. discriminate.
Qed.

Lemma save_frames_eq (frames : list Image) (output_dir : pathlib.Path)
  (creature_id : string) (animation_type : AnimationType) (variant_index : Z)
  (d d1 : Disk) :
  mkdir (output_dir </> creature_id </> value animation_type) d = Done tt d1 ->
  stat d1 (output_dir </> creature_id </> value animation_type) = Some Directory ->
  forallb png_writable frames = true ->
  (forall j, 1 <= j <= len frames ->
     is_dir (stat d1 (output_dir </> creature_id </> value animation_type
                        </> frame_filename j variant_index)) = false) ->
  save_frames_to_disk frames output_dir creature_id animation_type variant_index d
  = Done (frame_paths (output_dir </> creature_id </> value animation_type)
            variant_index 1 frames)
      (written (output_dir </> creature_id </> value animation_type)
         variant_index 1 frames d1).
Proof.
  intros Hmk Hdir Hw Hfree. unfold save_frames_to_disk.
  unfold io_bind at 1. rewrite Hmk.
  apply (save_frames_loop (output_dir </> creature_id </> value animation_type)
           variant_index frames 1 [] d1 Hdir Hw).
  intros j Hj. apply Hfree. lia.
Qed.

Lemma mkdir_child (dir : pathlib.Path) (s : string) (d d1 : Disk) :
  plain s = true ->
  (forall x, stat d1 x = stat d x \/
             (stat d x = None /\ stat d1 x = Some Directory /\
              (length (pathlib.parts x) <= length (pathlib.parts dir))%nat)) ->
  stat d1 (dir </> s) = stat d (dir </> s).
Proof.
  intros Hs Hkeep. destruct (Hkeep (dir </> s)) as [E | (_ & _ & E)]; [exact E |].
  rewrite (joinpath_plain dir s Hs) in E. cbn [pathlib.parts] in E.
  rewrite length_app in E. cbn [length] in E. lia.
Qed.

(** X12: saving the frames of an animation.  When no file stands in the
    way of the directory [output_dir/creature_id/<animation>], the frames
    are images PNG can store and no directory has the name of a frame
    file, [save_frames_to_disk] succeeds: it returns one path per frame,
    pairwise distinct, the [k]-th being [frame_<k+1>.png] (two digits at
    least, with [_variant_<n>] for a variant) in that directory; opening
    it gives back the [k]-th frame; and every other entry of the disk is
    left as it was. *)
Theorem save_frames_round_trip (frames : list Image) (output_dir : pathlib.Path)
  (creature_id : string) (animation_type : AnimationType) (variant_index : Z)
  (d : Disk) :
  can_mkdir d (output_dir </> creature_id </> value animation_type) = true ->
  forallb png_writable frames = true ->
  (forall i, 1 <= i <= len frames ->
     is_dir (stat d (output_dir </> creature_id </> value animation_type
                       </> frame_filename i variant_index)) = false) ->
  exists paths d',
    save_frames_to_disk frames output_dir creature_id animation_type variant_index d
    = Done paths d' /\
    length paths = length frames /\ NoDup paths /\
    (forall k f, nth_error frames k = Some f ->
       exists p,
         nth_error paths k = Some p /\
         p = output_dir </> creature_id </> value animation_type
               </> frame_filename (Z.of_nat k + 1) variant_index /\
         image_open p d' = Done f d') /\
    (forall x, ~ In x paths -> stat d x <> None -> stat d' x = stat d x).
Proof.
  intros Hmk Hw Hfree.
  set (dir := output_dir </> creature_id </> value animation_type) in *.
  destruct (mkdir_spec dir d Hmk) as (d1 & Hrun & Hdir & Hkeep).
  exists (frame_paths dir variant_index 1 frames),
         (written dir variant_index 1 frames d1).
  split.
  { apply save_frames_eq; try assumption.
    intros j Hj. fold dir.
    rewrite (mkdir_child dir _ d d1 (frame_filename_plain j variant_index) Hkeep).
    now apply Hfree. }
  split; [apply frame_paths_length |]. split; [apply frame_paths_NoDup |]. split.
  - intros k f Hk. eexists. split; [apply (frame_paths_nth _ _ _ _ _ _ Hk) |].
    split; [do 2 f_equal; lia |].
    unfold image_open. now rewrite (written_nth dir variant_index 1 frames d1 k f Hk).
  - intros x Hx Hsome. rewrite written_other by exact Hx.
    destruct (Hkeep x) as [E | (E & _)]; [exact E | contradiction].
Qed.

Lemma save_frames_round_trip_witness :
  exists paths d',
    save_frames_to_disk three_images (pathlib.PurePath "out") "creature_001" WALK 1 []
    = Done paths d' /\
    length paths = length three_images /\ NoDup paths /\
    (forall k f, nth_error three_images k = Some f ->
       exists p,
         nth_error paths k = Some p /\
         p = pathlib.PurePath "out" </> "creature_001" </> value WALK
               </> frame_filename (Z.of_nat k + 1) 1 /\
         image_open p d' = Done f d') /\
    (forall x, ~ In x paths -> stat [] x <> None -> stat d' x = stat [] x).
Proof.
  apply (save_frames_round_trip three_images (pathlib.PurePath "out") "creature_001"
           WALK 1 []).
  - reflexivity.
  - reflexivity.
  - intros i _. rewrite frame_path_eq. reflexivity.
Defined.

Lemma sheet_path_eq (dir : pathlib.Path) (k : AnimationType) (v : Z) (c : bool) :
  dir </> sheet_filename k v c
  = pathlib.mkPath (pathlib.root dir) (pathlib.parts dir ++ [sheet_filename k v c]).
Proof. apply joinpath_plain, sheet_filename_plain. Qed.

Lemma save_sheet_helper (sprite_sheet : Image) (output_dir : pathlib.Path)
  (creature_id : string) (animation_type : AnimationType) (variant_index : Z)
  (is_combined : bool) (d : Disk) :
  can_mkdir d (output_dir </> creature_id </> "sprite_sheets") = true ->
  png_writable sprite_sheet = true ->
  is_dir (stat d (output_dir </> creature_id </> "sprite_sheets"
                    </> sheet_filename animation_type variant_index is_combined)) = false ->
  exists d',
    save_sprite_sheet sprite_sheet output_dir creature_id animation_type variant_index
      is_combined d
    = Done (output_dir </> creature_id </> "sprite_sheets"
              </> sheet_filename animation_type variant_index is_combined) d' /\
    stat d' (output_dir </> creature_id </> "sprite_sheets") = Some Directory /\
    stat d' (output_dir </> creature_id </> "sprite_sheets"
               </> sheet_filename animation_type variant_index is_combined)
    = Some (ImageFile sprite_sheet) /\
    (forall x,
        x <> output_dir </> creature_id </> "sprite_sheets"
               </> sheet_filename animation_type variant_index is_combined ->
        stat d' x = stat d x \/
        (stat d x = None /\ stat d' x = Some Directory /\
         (length (pathlib.parts x)
          <= length (pathlib.parts (output_dir </> creature_id </> "sprite_sheets")))%nat)).
Proof.
  intros Hmk Hw Hfree.
  set (dir := output_dir </> creature_id </> "sprite_sheets") in *.
  set (s := sheet_filename animation_type variant_index is_combined) in *.
  assert (Hs : plain s = true) by apply sheet_filename_plain.
  destruct (mkdir_spec dir d Hmk) as (d1 & Hrun & Hdir & Hkeep).
  exists ((dir </> s, ImageFile sprite_sheet) :: d1).
  assert (Hne : pathlib.parts (dir </> s) <> []).
  { rewrite (joinpath_plain dir s Hs). cbn [pathlib.parts].
    intros E. apply app_eq_nil in E. destruct E as [_ E]. discriminate. }
  split.
  { unfold save_sprite_sheet. fold dir. unfold io_bind at 1. rewrite Hrun.
    change (io_bind (image_save sprite_sheet (dir </> s)) (fun _ => io_ret (dir </> s))
              d1 = Done (dir </> s) ((dir </> s, ImageFile sprite_sheet) :: d1)).
    unfold io_bind. rewrite (image_save_file sprite_sheet dir s d1 Hs Hdir); [reflexivity | | exact Hw].
    rewrite (mkdir_child dir s d d1 Hs Hkeep). exact Hfree. }
  split.
  { rewrite stat_cons_other; [exact Hdir |].
    rewrite (joinpath_plain dir s Hs). intros E. symmetry in E. revert E.
    apply child_not_parent. }
  split; [now apply stat_cons_same |].
  intros x Hx. rewrite stat_cons_other by exact Hx. apply Hkeep.
Qed.

(** X13: saving a sprite sheet.  When no file stands in the way of
    [output_dir/creature_id/sprite_sheets], the sheet is an image PNG can
    store and the target is not a directory, [save_sprite_sheet] succeeds
    and returns the path of the file in that directory; opening it gives
    back the sheet, entries that existed elsewhere are left as they were,
    and for a combined sheet the animation type plays no role. *)
Theorem save_sheet_round_trip (sprite_sheet : Image) (output_dir : pathlib.Path)
  (creature_id : string) (animation_type : AnimationType) (variant_index : Z)
  (is_combined : bool) (d : Disk) :
  can_mkdir d (output_dir </> creature_id </> "sprite_sheets") = true ->
  png_writable sprite_sheet = true ->
  is_dir (stat d (output_dir </> creature_id </> "sprite_sheets"
                    </> sheet_filename animation_type variant_index is_combined)) = false ->
  exists p d',
    save_sprite_sheet sprite_sheet output_dir creature_id animation_type variant_index
      is_combined d = Done p d' /\
    pathlib.parent p = output_dir </> creature_id </> "sprite_sheets" /\
    pathlib.name p = sheet_filename animation_type variant_index is_combined /\
    image_open p d' = Done sprite_sheet d' /\
    (forall x, x <> p -> stat d x <> None -> stat d' x = stat d x) /\
    (forall other,
        is_combined = true ->
        save_sprite_sheet sprite_sheet output_dir creature_id other variant_index
          is_combined d = Done p d').
Proof.
  intros Hmk Hw Hfree.
  destruct (save_sheet_helper sprite_sheet output_dir creature_id animation_type
              variant_index is_combined d Hmk Hw Hfree) as (d' & Hrun & _ & Hfile & Hkeep).
  eexists. exists d'. split; [exact Hrun |].
  rewrite sheet_path_eq. split; [apply parent_child |]. split; [apply name_child |].
  rewrite <- sheet_path_eq. split.
  - unfold image_open. now rewrite Hfile.
  - split.
    + intros x Hx Hsome. destruct (Hkeep x Hx) as [E | (E & _)]; [exact E | contradiction].
    + intros other ->. exact Hrun.
Qed.

Lemma save_sheet_round_trip_witness :
  exists p d',
    save_sprite_sheet demo_sheet (pathlib.PurePath "/tmp/out") "creature_001" ATTACK 0
      true [] = Done p d' /\
    pathlib.parent p = pathlib.PurePath "/tmp/out" </> "creature_001" </> "sprite_sheets" /\
    pathlib.name p = sheet_filename ATTACK 0 true /\
    image_open p d' = Done demo_sheet d' /\
    (forall x, x <> p -> stat [] x <> None -> stat d' x = stat [] x) /\
    (forall other,
        true = true ->
        save_sprite_sheet demo_sheet (pathlib.PurePath "/tmp/out") "creature_001" other 0
          true [] = Done p d').
Proof.
  apply (save_sheet_round_trip demo_sheet (pathlib.PurePath "/tmp/out") "creature_001"
           ATTACK 0 true []); reflexivity.
Defined.

Lemma save_sheet_path (sprite_sheet : Image) (output_dir : pathlib.Path)
  (creature_id : string) (animation_type : AnimationType) (variant_index : Z)
  (is_combined : bool) (d d' : Disk) (p : pathlib.Path) :
  save_sprite_sheet sprite_sheet output_dir creature_id animation_type variant_index
    is_combined d = Done p d' ->
  p = output_dir </> creature_id </> "sprite_sheets"
        </> sheet_filename animation_type variant_index is_combined.
Proof.
  unfold save_sprite_sheet, io_bind, io_ret.
  destruct (mkdir _ d) as [[] d1 | e]; [| discriminate].
  destruct (image_save _ _ d1) as [[] d2 | e]; [| discriminate].
  intros [= <- _]. reflexivity.
Qed.

Lemma save_frames_loop_paths (dir : pathlib.Path) (v : Z) (frames : list Image) (i : Z)
  (acc paths : list pathlib.Path) (d d' : Disk) :
  io_for_each (enumerate_from i frames)
    (fun saved_paths '(i, frame) =>
       io_bind (image_save frame (dir </> frame_filename i v))
         (fun _ => io_ret (saved_paths ++ [dir </> frame_filename i v])%list))
    acc d
  = Done paths d' ->
  paths = (acc ++ frame_paths dir v i frames)%list.
Proof.
  revert i acc d. induction frames as [| f fs IH]; intros i acc d;
    cbn [enumerate_from io_for_each frame_paths].
  - unfold io_ret. intros [= <- _]. now rewrite app_nil_r.
  - unfold io_bind at 1. unfold io_bind at 1.
    destruct (image_save f _ d) as [[] d1 | e]; [| discriminate].
    unfold io_ret at 1. intros H. apply IH in H. now rewrite <- app_assoc in H.
Qed.

Lemma save_frames_paths (frames : list Image) (output_dir : pathlib.Path)
  (creature_id : string) (animation_type : AnimationType) (variant_index : Z)
  (d d' : Disk) (paths : list pathlib.Path) :
  save_frames_to_disk frames output_dir creature_id animation_type variant_index d
  = Done paths d' ->
  paths = frame_paths (output_dir </> creature_id </> value animation_type)
            variant_index 1 frames.
Proof.
  unfold save_frames_to_disk. unfold io_bind at 1.
  destruct (mkdir _ d) as [[] d1 | e]; [| discriminate].
  intros H.
  apply (save_frames_loop_paths (output_dir </> creature_id </> value animation_type)
           variant_index frames 1 [] paths d1 d') in H.
  exact H.
Qed.

Lemma grandchild_inj (p : pathlib.Path) (a b s t : string) :
  plain a = true -> plain b = true -> plain s = true -> plain t = true ->
  p </> a </> s = p </> b </> t -> a = b /\ s = t.
Proof.
  intros Ha Hb Hs Ht. rewrite (joinpath_plain p a Ha), (joinpath_plain p b Hb).
  rewrite (joinpath_plain _ s Hs), (joinpath_plain _ t Ht).
  cbn [pathlib.root pathlib.parts]. intros [= H].
  rewrite <- !app_assoc in H. apply app_inv_head in H. cbn in H.
  injection H as -> ->. auto.
Qed.

(** X14: the sheets of a creature never overwrite each other: two
    successful calls of [save_sprite_sheet] for the same output directory
    and creature write the same path only if both are combined or both
    are not, their variant indices are equal or both not positive, and,
    unless combined, their animation types are the same. *)
Theorem sheet_paths_distinct (sheet1 sheet2 : Image) (output_dir : pathlib.Path)
  (creature_id : string) (k1 k2 : AnimationType) (v1 v2 : Z) (c1 c2 : bool)
  (d1 d1' d2 d2' : Disk) (p : pathlib.Path) :
  save_sprite_sheet sheet1 output_dir creature_id k1 v1 c1 d1 = Done p d1' ->
  save_sprite_sheet sheet2 output_dir creature_id k2 v2 c2 d2 = Done p d2' ->
  c1 = c2 /\ (c1 = false -> k1 = k2) /\ Z.max 0 v1 = Z.max 0 v2.
Proof.
  intros H1 H2. apply save_sheet_path in H1, H2. rewrite H1 in H2.
  rewrite !sheet_path_eq in H2. apply child_inj in H2.
  now apply sheet_filename_inj.
Qed.

(** X15: frames and sheets never overwrite each other: for the same
    output directory and creature, a path written by
    [save_frames_to_disk] is never the path written by
    [save_sprite_sheet], and two calls of [save_frames_to_disk] share a
    path only for the same animation type and variant indices that are
    equal or both not positive. *)
Theorem frame_paths_apart (frames1 frames2 : list Image) (sheet : Image)
  (output_dir : pathlib.Path) (creature_id : string) (k1 k2 k3 : AnimationType)
  (v1 v2 v3 : Z) (c : bool) (d1 d1' d2 d2' d3 d3' : Disk)
  (paths1 paths2 : list pathlib.Path) (p : pathlib.Path) :
  save_frames_to_disk frames1 output_dir creature_id k1 v1 d1 = Done paths1 d1' ->
  save_frames_to_disk frames2 output_dir creature_id k2 v2 d2 = Done paths2 d2' ->
  save_sprite_sheet sheet output_dir creature_id k3 v3 c d3 = Done p d3' ->
  ~ In p paths1 /\
  (forall x, In x paths1 -> In x paths2 -> k1 = k2 /\ Z.max 0 v1 = Z.max 0 v2).
Proof.
  intros H1 H2 H3.
  apply save_frames_paths in H1, H2. apply save_sheet_path in H3. subst.
  split.
  - intros H. apply frame_paths_In in H. destruct H as (j & _ & E).
    apply grandchild_inj in E;
      [| reflexivity | apply value_plain | apply sheet_filename_plain
       | apply frame_filename_plain].
    destruct E as [E _]. destruct k1; discriminate E.
  - intros x Hx1 Hx2. apply frame_paths_In in Hx1, Hx2.
    destruct Hx1 as (i & _ & ->). destruct Hx2 as (j & _ & E).
    apply grandchild_inj in E;
      [| apply value_plain | apply value_plain | apply frame_filename_plain
       | apply frame_filename_plain].
    destruct E as [Ek Ef]. apply frame_filename_inj in Ef.
    split; [| tauto]. destruct k1, k2; try reflexivity; discriminate Ek.
Qed.

Lemma sheet_paths_distinct_witness :
  false = false /\ (false = false -> IDLE = IDLE) /\ Z.max 0 0 = Z.max 0 (-3).
Proof.
  eapply (sheet_paths_distinct demo_sheet small_frame (pathlib.PurePath "out")
            "creature_001" IDLE IDLE 0 (-3) false false [] _ [] _ _);
    vm_compute; reflexivity.
Defined.

Lemma frame_paths_apart_witness :
  ~ In (pathlib.PurePath "out" </> "creature_001" </> "sprite_sheets" </> "walk.png")
       (frame_paths (pathlib.PurePath "out" </> "creature_001" </> "walk") 0 1 three_images)
  /\
  (forall x,
      In x (frame_paths (pathlib.PurePath "out" </> "creature_001" </> "walk") 0 1
              three_images) ->
      In x (frame_paths (pathlib.PurePath "out" </> "creature_001" </> "walk") (-1) 1
              [small_frame]) ->
      WALK = WALK /\ Z.max 0 0 = Z.max 0 (-1)).
Proof.
  eapply (frame_paths_apart three_images [small_frame] demo_sheet
            (pathlib.PurePath "out") "creature_001" WALK WALK WALK 0 (-1) 0 false
            [] _ [] _ [] _ _ _ _); vm_compute; reflexivity.
Defined.

(** ** The showcase *)

Lemma column_loop (sheets : list Image) (spacing y0 : Z) (showcase : Image) :
  mode showcase = RGBA ->
  Forall (fun s => mode s = RGBA) sheets ->
  for_each sheets
    (fun '(showcase, y_offset) sheet =>
       showcase <- paste showcase sheet (0, y_offset) (Some sheet) ;;
       Ok (showcase, y_offset + (height sheet + spacing)))
    (showcase, y0)
  = Ok (paste_all (column_layout sheets y0 spacing) showcase,
        y0 + column_offset sheets spacing (length sheets)).
Proof.
  revert y0 showcase. induction sheets as [| s ss IH]; intros y0 showcase Hm Hs;
    cbn [for_each column_layout column_offset length].
  - now rewrite Z.add_0_r.
  - inversion Hs as [| ? ? Hs1 Hs2]; subst.
    rewrite (self_mask showcase s 0 y0 Hm Hs1). cbn [bind].
    rewrite IH by (cbn; assumption).
    unfold paste_all. cbn [fold_left fst snd]. do 2 f_equal. lia.
Qed.

Lemma column_below (sheets : list Image) (spacing y0 x y : Z) (p : placement) :
  0 <= spacing -> Forall (fun s => 0 <= height s) sheets ->
  In p (column_layout sheets y0 spacing) -> y < y0 -> covers p x y = false.
Proof.
  intros Hsp. revert y0. induction sheets as [| s ss IH]; intros y0 Hh; cbn [column_layout];
    [intros [] |].
  inversion Hh as [| ? ? Hh1 Hh2]; subst.
  intros [<- | Hin] Hy.
  - unfold covers, inside. cbn [fst snd].
    destruct (Z.leb_spec 0 (y - y0)); [lia |]. now rewrite andb_false_r.
  - apply (IH (y0 + (height s + spacing)) Hh2 Hin). lia.
Qed.

Lemma column_pixel (sheets : list Image) (spacing y0 : Z) (showcase : Image)
  (i : nat) (s : Image) (x y : Z) :
  0 <= spacing -> Forall (fun s => 0 <= height s) sheets ->
  nth_error sheets i = Some s ->
  0 <= x < width s -> 0 <= y < height s ->
  inside showcase x (y0 + column_offset sheets spacing i + y) = true ->
  load (paste_all (column_layout sheets y0 spacing) showcase)
       x (y0 + column_offset sheets spacing i + y)
  = paste_pixel s x y (load showcase x (y0 + column_offset sheets spacing i + y)).
Proof.
  intros Hsp. revert y0 showcase i.
  induction sheets as [| s0 ss IH]; intros y0 showcase i Hh Hi Hx Hy Hin;
    [destruct i; discriminate |].
  inversion Hh as [| ? ? Hh1 Hh2]; subst.
  cbn [column_layout]. unfold paste_all. cbn [fold_left fst snd]. fold (paste_all).
  change (fold_left _ ?ps ?sh) with (paste_all ps sh).
  destruct i as [| i]; cbn [nth_error column_offset] in *.
  - injection Hi as ->. rewrite Z.add_0_r in *.
    rewrite paste_all_untouched.
    + cbn [pasted load]. rewrite Hin.
      unfold inside at 1.
      replace (x - 0) with x by lia. replace (y0 + y - y0) with y by lia.
      destruct (Z.leb_spec 0 x), (Z.ltb_spec x (width s)), (Z.leb_spec 0 y),
        (Z.ltb_spec y (height s)); try lia. reflexivity.
    + intros p Hp. apply (column_below ss spacing (y0 + (height s + spacing)) x (y0 + y) p
                            Hsp Hh2 Hp). lia.
  - replace (y0 + (height s0 + spacing + column_offset ss spacing i) + y)
      with (y0 + (height s0 + spacing) + column_offset ss spacing i + y) in * by lia.
    rewrite (IH (y0 + (height s0 + spacing)) (pasted showcase s0 0 y0) i Hh2 Hi Hx Hy).
    + f_equal. cbn [pasted load].
      assert (Hoff : 0 <= column_offset ss spacing i).
      { clear - Hsp Hh2. revert i. induction ss as [| a ss IHs]; intros [| i];
          cbn [column_offset]; try lia.
        inversion Hh2; subst. specialize (IHs ltac:(assumption) i). lia. }
      unfold inside at 2.
      destruct (Z.ltb_spec (y0 + (height s0 + spacing) + column_offset ss spacing i + y - y0)
                  (height s0)); [lia |].
      now rewrite !andb_false_r.
    + exact Hin.
Qed.

Lemma showcase_load_loop (d : Disk) (files : list pathlib.Path) (acc sheets : list Image) :
  Forall2 (fun p im => stat d p = Some (ImageFile im))
    (filter (fun p => showcase_keeps (pathlib.name p)) files) sheets ->
  io_for_each files
    (fun sprite_sheets sheet_file =>
       if negb (contains "combined" (pathlib.name sheet_file))
          && negb (contains "variant" (pathlib.name sheet_file))
       then io_bind (image_open sheet_file)
              (fun sheet => io_ret (sprite_sheets ++ [sheet])%list)
       else io_ret sprite_sheets)
    acc d
  = Done (acc ++ sheets)%list d.
Proof.
  revert acc sheets. induction files as [| p files IH]; intros acc sheets H;
    cbn [filter io_for_each] in *.
  - inversion H. unfold io_ret. now rewrite app_nil_r.
  - unfold showcase_keeps in H at 1. unfold io_bind at 1.
    destruct (negb (contains "combined" (pathlib.name p))
              && negb (contains "variant" (pathlib.name p))).
    + inversion H as [| ? im ? sheets' Hp Hrest]; subst.
      unfold io_bind at 1, image_open. rewrite Hp. unfold io_ret at 1.
      rewrite (IH _ _ Hrest). now rewrite <- app_assoc.
    + unfold io_ret at 1. now apply IH.
Qed.

Lemma py_sum_cons (x : Z) (xs : list Z) : py_sum (x :: xs) = x + py_sum xs.
Proof.
  unfold py_sum. cbn [fold_left].
  assert (H : forall l a, fold_left Z.add l a = a + fold_left Z.add l 0).
  { induction l as [| y l IHl]; intros a; cbn [fold_left]; [lia |].
    rewrite (IHl (a + y)), (IHl (0 + y)). lia. }
  rewrite (H xs (0 + x)). lia.
Qed.

Lemma column_offset_total (sheets : list Image) (spacing : Z) :
  column_offset sheets spacing (length sheets)
  = py_sum (map height sheets) + spacing * len sheets.
Proof.
  induction sheets as [| s ss IH]; cbn [column_offset length map].
  - unfold py_sum, len. cbn. lia.
  - rewrite py_sum_cons, len_cons, IH. lia.
Qed.

Lemma column_offset_bound (sheets : list Image) (spacing : Z) (i : nat) (s : Image) :
  0 <= spacing -> Forall (fun s => 0 <= height s) sheets ->
  nth_error sheets i = Some s ->
  0 <= column_offset sheets spacing i /\
  column_offset sheets spacing i + height s + spacing
  <= column_offset sheets spacing (length sheets).
Proof.
  intros Hsp. revert i. induction sheets as [| a ss IH]; intros i Hh Hi;
    [destruct i; discriminate |].
  inversion Hh as [| ? ? Hh1 Hh2]; subst.
  destruct i as [| i]; cbn [nth_error column_offset length] in *.
  - injection Hi as ->.
    assert (0 <= column_offset ss spacing (length ss)).
    { rewrite column_offset_total. pose proof (len_nonneg ss).
      assert (0 <= py_sum (map height ss)).
      { clear - Hh2. induction ss as [| b ss IHs]; [cbn; lia |].
        cbn [map]. rewrite py_sum_cons. inversion Hh2; subst.
        specialize (IHs ltac:(assumption)). lia. }
      nia. }
    lia.
  - destruct (IH i Hh2 Hi). lia.
Qed.

Lemma column_offset_scaled (sheets : list Image) (scale : Z) (i : nat) :
  1 <= scale ->
  column_offset (map (fun s => upscaled s scale) sheets) (4 * scale) i
  = column_offset sheets 4 i * scale.
Proof.
  intros Hk. revert i. induction sheets as [| s ss IH]; intros [| i];
    cbn [map column_offset]; try reflexivity.
  rewrite IH. destruct (upscaled_spec s scale Hk) as (_ & _ & -> & _). lia.
Qed.

Lemma py_sum_scaled (sheets : list Image) (scale : Z) :
  1 <= scale ->
  py_sum (map height (map (fun s => upscaled s scale) sheets))
  = py_sum (map height sheets) * scale.
Proof.
  intros Hk. induction sheets as [| s ss IH]; cbn [map]; [reflexivity |].
  rewrite !py_sum_cons, IH. destruct (upscaled_spec s scale Hk) as (_ & _ & -> & _). lia.
Qed.

(** X16: the showcase of a creature.  Let the sheets be the images of
    the [.png] entries of [creature_dir/sprite_sheets] whose name contains
    neither [combined] nor [variant], sorted by name.  If there is at
    least one, they are RGBA with at least one pixel, [scale >= 1] and
    the output path can be written, [create_creature_showcase] succeeds
    and saves what it returns: an RGBA image as wide as the widest
    upscaled sheet, in which the upscaled sheets are stacked from the top
    in that order, left-aligned, [4 * scale] pixels apart, over the
    background. *)
Theorem showcase_layout (creature_dir output_path : pathlib.Path) (scale : Z) (d : Disk)
  (sheets : list Image) :
  Forall2 (fun p im => stat d p = Some (ImageFile im))
    (showcase_files d creature_dir) sheets ->
  sheets <> [] ->
  Forall (fun s => mode s = RGBA /\ 1 <= width s /\ 1 <= height s) sheets ->
  1 <= scale ->
  stat d (pathlib.parent output_path) = Some Directory ->
  is_dir (stat d output_path) = false ->
  exists showcase,
    create_creature_showcase creature_dir output_path scale d
    = Done showcase ((output_path, ImageFile showcase) :: d) /\
    mode showcase = RGBA /\
    py_max (map (fun s => width s * scale) sheets) = Ok (width showcase) /\
    height showcase = py_sum (map height sheets) * scale + 4 * scale * (len sheets - 1) /\
    forall i s x y,
      nth_error sheets i = Some s ->
      0 <= x < width s * scale -> 0 <= y < height s * scale ->
      load showcase x (column_offset sheets 4 i * scale + y)
      = paste_pixel (upscaled s scale) x y showcase_background.
Proof.
  intros Hfiles Hne Hsheets Hk Hparent Hfree.
  set (U := map (fun s => upscaled s scale) sheets).
  assert (HU : for_append sheets (fun sheet => upscale_nearest_neighbor sheet scale) = Ok U).
  { apply for_append_total. intros s Hs.
    rewrite Forall_forall in Hsheets. destruct (Hsheets s Hs) as (_ & Hw & Hh).
    apply upscale_eq; [exact Hk | left; lia]. }
  assert (HUm : Forall (fun s => mode s = RGBA) U).
  { unfold U. rewrite Forall_map. eapply Forall_impl; [| exact Hsheets].
    intros s (Hm & _). destruct (upscaled_spec s scale Hk) as (-> & _). exact Hm. }
  assert (HUh : Forall (fun s => 0 <= height s) U).
  { unfold U. rewrite Forall_map. eapply Forall_impl; [| exact Hsheets].
    intros s (_ & _ & Hh). destruct (upscaled_spec s scale Hk) as (_ & _ & -> & _). nia. }
  assert (HUw : map width U = map (fun s => width s * scale) sheets).
  { unfold U. rewrite map_map. apply map_ext. intros s.
    destruct (upscaled_spec s scale Hk) as (_ & -> & _). reflexivity. }
  destruct sheets as [| s0 ss]; [congruence |].
  destruct (py_max_spec (width s0 * scale) (map (fun s => width s * scale) ss))
    as (M & HM & HMin & HMall).
  change (width s0 * scale :: map (fun s => width s * scale) ss)
    with (map (fun s => width s * scale) (s0 :: ss)) in HM, HMin, HMall.
  set (sheets := s0 :: ss) in *.
  set (T := py_sum (map height sheets) * scale + 4 * scale * (len sheets - 1)).
  assert (HM1 : 1 <= M).
  { apply in_map_iff in HMin. destruct HMin as (s & <- & Hs).
    rewrite Forall_forall in Hsheets. destruct (Hsheets s Hs) as (_ & Hw & _). nia. }
  assert (Hsum : 1 <= py_sum (map height sheets) * scale).
  { unfold sheets. cbn [map]. rewrite py_sum_cons.
    inversion Hsheets as [| ? ? (_ & _ & Hh0) Hrest]; subst.
    assert (0 <= py_sum (map height ss)).
    { clear - Hrest. induction ss as [| b ss IHs]; [cbn; lia |].
      cbn [map]. rewrite py_sum_cons. inversion Hrest as [| ? ? (_ & _ & Hb) Hr]; subst.
      specialize (IHs Hr). lia. }
    nia. }
  assert (HT : 1 <= T).
  { unfold T. assert (0 <= len sheets - 1) by (unfold sheets; rewrite len_cons;
      pose proof (len_nonneg ss); lia). nia. }
  set (showcase := paste_all (column_layout U 0 (4 * scale))
                     (blank RGBA M T showcase_background)).
  destruct (paste_all_shape (column_layout U 0 (4 * scale))
              (blank RGBA M T showcase_background)) as (Sm & Sw & Sh).
  fold showcase in Sm, Sw, Sh. cbn [blank mode width height] in Sm, Sw, Sh.
  exists showcase. split.
  { unfold create_creature_showcase.
    unfold io_bind at 1. unfold glob_suffix at 1.
    unfold io_bind at 1.
    rewrite (showcase_load_loop d _ [] sheets Hfiles).
    cbn [app]. unfold sheets at 1. cbn [is_empty].
    fold sheets. unfold io_bind at 1. unfold lift at 1. rewrite HU.
    unfold io_bind at 1. unfold lift at 1. rewrite HUw, HM.
    unfold io_bind at 1. unfold lift at 1.
    replace (py_sum (map height U) + 4 * scale * (len U - 1)) with T.
    2:{ unfold T, U. rewrite py_sum_scaled by exact Hk.
        unfold len. now rewrite length_map. }
    rewrite new_blank by lia.
    unfold io_bind at 1. unfold lift at 1.
    rewrite (column_loop U (4 * scale) 0 (blank RGBA M T (26, 26, 26, 255)) eq_refl HUm).
    fold showcase_background. fold showcase.
    unfold io_bind, image_save, io_ret. rewrite Hparent.
    assert (Hw : png_writable showcase = true).
    { unfold png_writable. rewrite Sm, Sw, Sh. cbn [mode_eqb negb andb].
      destruct (Z.leb_spec 1 M), (Z.leb_spec 1 T); first [reflexivity | lia]. }
    rewrite Hw.
    destruct (stat d output_path) as [[| im | t] |]; try reflexivity.
    discriminate Hfree. }
  split; [exact Sm |]. split; [rewrite Sw; exact HM |]. split; [exact Sh |].
  intros i s x y Hi Hx Hy.
  assert (HiU : nth_error U i = Some (upscaled s scale)).
  { unfold U. rewrite nth_error_map, Hi. reflexivity. }
  destruct (upscaled_spec s scale Hk) as (_ & Uw & Uh & _).
  destruct (column_offset_bound U (4 * scale) i (upscaled s scale) ltac:(lia) HUh HiU)
    as [Hlo Hhi].
  rewrite column_offset_total in Hhi.
  pose proof (column_pixel U (4 * scale) 0 (blank RGBA M T showcase_background)
                i (upscaled s scale) x y ltac:(lia) HUh HiU ltac:(lia) ltac:(lia)) as Hpx.
  assert (Hoff : column_offset U (4 * scale) i = column_offset sheets 4 i * scale)
    by (apply column_offset_scaled; exact Hk).
  cbn [Z.add] in Hpx. rewrite Hoff in Hpx, Hlo, Hhi.
  fold showcase in Hpx. rewrite Hpx; [reflexivity |].
  unfold inside. cbn [blank width height].
  assert (HxM : x < M).
  { rewrite Forall_forall in HMall.
    specialize (HMall (width s * scale)
                  (in_map (fun s => width s * scale) sheets s (nth_error_In _ _ Hi))).
    lia. }
  assert (HyT : column_offset sheets 4 i * scale + y < T).
  { assert (Hs' : py_sum (map height U) = py_sum (map height sheets) * scale)
      by (apply py_sum_scaled; exact Hk).
    assert (Hl' : len U = len sheets) by (unfold len, U; now rewrite length_map).
    unfold T. rewrite Hs', Hl' in Hhi. lia. }
  destruct (Z.leb_spec 0 x), (Z.ltb_spec x M),
    (Z.leb_spec 0 (column_offset sheets 4 i * scale + y)),
    (Z.ltb_spec (column_offset sheets 4 i * scale + y) T); first [reflexivity | lia].
Qed.

Lemma showcase_layout_witness :
  exists showcase,
    create_creature_showcase (pathlib.PurePath "out/creature_001")
      (pathlib.PurePath "out/showcase.png") 6 demo_disk
    = Done showcase ((pathlib.PurePath "out/showcase.png", ImageFile showcase) :: demo_disk) /\
    mode showcase = RGBA /\
    py_max (map (fun s => width s * 6) demo_base_sheets) = Ok (width showcase) /\
    height showcase
    = py_sum (map height demo_base_sheets) * 6 + 4 * 6 * (len demo_base_sheets - 1) /\
    forall i s x y,
      nth_error demo_base_sheets i = Some s ->
      0 <= x < width s * 6 -> 0 <= y < height s * 6 ->
      load showcase x (column_offset demo_base_sheets 4 i * 6 + y)
      = paste_pixel (upscaled s 6) x y showcase_background.
Proof.
  apply (showcase_layout (pathlib.PurePath "out/creature_001")
           (pathlib.PurePath "out/showcase.png") 6 demo_disk demo_base_sheets).
  - repeat constructor.
  - discriminate.
  - repeat constructor; cbn; lia.
  - lia.
  - reflexivity.
  - reflexivity.
Defined.

Lemma contains_skip (sub : string) (c : ascii) (s : string) :
  contains sub s = true -> contains sub (String c s) = true.
Proof. intros H. cbn [contains]. rewrite H. apply orb_true_r. Qed.

Lemma sheet_filename_kept (k : AnimationType) (v : Z) (c : bool) :
  showcase_keeps (sheet_filename k v c) = negb c && (v <=? 0).
Proof.
  unfold showcase_keeps, sheet_filename.
  destruct (Z.gtb_spec v 0) as [Hv | Hv].
  - destruct (Z.leb_spec v 0); [lia |]. rewrite andb_false_r.
    apply andb_false_iff. right. apply negb_false_iff.
    destruct c, k; cbn [value append]; repeat (reflexivity || apply contains_skip).
  - destruct (Z.leb_spec v 0); [| lia]. destruct c, k; reflexivity.
Qed.

(** X17: which saved sheets the showcase loads.  The name of the file a
    successful [save_sprite_sheet] writes passes the showcase's filter
    exactly when the sheet is not combined and its variant index is not
    positive. *)
Theorem showcase_skips_variants (sprite_sheet : Image) (output_dir : pathlib.Path)
  (creature_id : string) (animation_type : AnimationType) (variant_index : Z)
  (is_combined : bool) (d d' : Disk) (p : pathlib.Path) :
  save_sprite_sheet sprite_sheet output_dir creature_id animation_type variant_index
    is_combined d = Done p d' ->
  (negb (contains "combined" (pathlib.name p)) && negb (contains "variant" (pathlib.name p)))
  = negb is_combined && (variant_index <=? 0).
Proof.
  intros H. apply save_sheet_path in H. subst p.
  rewrite sheet_path_eq, name_child. apply sheet_filename_kept.
Qed.

Lemma showcase_skips_variants_witness :
  (negb (contains "combined"
           (pathlib.name (demo_sheets_dir </> "idle_variant_1.png")))
   && negb (contains "variant"
              (pathlib.name (demo_sheets_dir </> "idle_variant_1.png"))))
  = negb false && (1 <=? 0).
Proof.
  eapply (showcase_skips_variants demo_sheet (pathlib.PurePath "out") "creature_001"
            IDLE 1 false [] _ _).
  vm_compute. reflexivity.
Defined.

(** X18: without a base sheet there is no showcase.  When the
    [sprite_sheets] directory of the creature has no [.png] entry whose
    name is free of [combined] and [variant] (the directory may be
    missing), [create_creature_showcase] raises [ValueError] and names
    the directory. *)
Theorem showcase_without_sheets (creature_dir output_path : pathlib.Path) (scale : Z)
  (d : Disk) :
  showcase_files d creature_dir = [] ->
  create_creature_showcase creature_dir output_path scale d
  = Failed (Py (ValueError ("No sprite sheets found in "
                            ++ pathlib.to_str (creature_dir </> "sprite_sheets")))).
Proof.
  intros H. unfold create_creature_showcase.
  unfold io_bind at 1. unfold glob_suffix at 1. unfold io_bind at 1.
  rewrite (showcase_load_loop d _ [] []); [reflexivity |].
  unfold showcase_files in H. rewrite H. constructor.
Qed.

Lemma showcase_without_sheets_witness :
  create_creature_showcase (pathlib.PurePath "out/creature_002")
    (pathlib.PurePath "out/showcase.png") 6 demo_disk
  = Failed (Py (ValueError ("No sprite sheets found in "
                            ++ pathlib.to_str (pathlib.PurePath "out/creature_002"
                                                 </> "sprite_sheets")))).
Proof.
  apply (showcase_without_sheets (pathlib.PurePath "out/creature_002")
           (pathlib.PurePath "out/showcase.png") 6 demo_disk).
  reflexivity.
Defined.

(** ** The assets of a creature *)

Lemma grows_refl (n : nat) (d : Disk) : grows n [] d d.
Proof. intros x. now left. Qed.

Lemma grows_trans (n : nat) (files1 files2 : list pathlib.Path) (d1 d2 d3 : Disk) :
  grows n files1 d1 d2 -> grows n files2 d2 d3 -> grows n (files1 ++ files2) d1 d3.
Proof.
  intros H12 H23 x.
  destruct (H23 x) as [E | [(E1 & E2 & E3) | (im & E1 & E2 & E3)]].
  - rewrite E. destruct (H12 x) as [E' | [H | (im & E1 & E2 & E3)]]; [now left | tauto |].
    right. right. exists im. repeat split; try assumption. apply in_app_iff. now left.
  - destruct (H12 x) as [E' | [(_ & E' & _) | (im & E' & _)]]; [| congruence | congruence].
    right. left. repeat split; try assumption. congruence.
  - right. right. exists im. repeat split; try assumption. apply in_app_iff. now right.
Qed.

Lemma ready_grows (d d' : Disk) (creature_dir : pathlib.Path) (files : list pathlib.Path) :
  assets_ready d creature_dir ->
  grows (length (pathlib.parts creature_dir)) files d d' ->
  assets_ready d' creature_dir.
Proof.
  intros (H1 & H2 & H3) Hg. unfold assets_ready. repeat split.
  - unfold can_mkdir in *. rewrite forallb_forall in *. intros q Hq.
    specialize (H1 q Hq). apply prefixes_length in Hq.
    destruct (Hg (pathlib.mkPath (pathlib.root creature_dir) q))
      as [E | [(_ & E & _) | (im & _ & E & _)]].
    + now rewrite E.
    + now rewrite E.
    + cbn [pathlib.parts] in E. lia.
  - intros a. specialize (H2 a).
    destruct (Hg (pathlib.mkPath (pathlib.root creature_dir)
                    (pathlib.parts creature_dir ++ [a])))
      as [E | [(_ & E & _) | (im & _ & E & _)]].
    + now rewrite E.
    + now rewrite E.
    + cbn [pathlib.parts] in E. rewrite length_app in E. cbn in E. lia.
  - intros a b. specialize (H3 a b).
    destruct (Hg (pathlib.mkPath (pathlib.root creature_dir)
                    (pathlib.parts creature_dir ++ [a; b])))
      as [E | [(_ & _ & E) | (im & E & _)]].
    + now rewrite E.
    + cbn [pathlib.parts] in E. rewrite length_app in E. cbn in E. lia.
    + now rewrite E.
Qed.

Lemma prefixes_app_one {A : Type} (l : list A) (a : A) :
  prefixes (l ++ [a]) = (prefixes l ++ [l ++ [a]])%list.
Proof.
  induction l as [| x l IH]; cbn [prefixes app map]; [reflexivity |].
  rewrite IH, map_app. reflexivity.
Qed.

Lemma ready_subdir (d : Disk) (creature_dir : pathlib.Path) (a : string) :
  plain a = true ->
  assets_ready d creature_dir ->
  can_mkdir d (creature_dir </> a) = true /\
  forall b, plain b = true -> is_dir (stat d (creature_dir </> a </> b)) = false.
Proof.
  intros Ha (H1 & H2 & H3). rewrite (joinpath_plain creature_dir a Ha). split.
  - unfold can_mkdir in *. cbn [pathlib.root pathlib.parts].
    rewrite prefixes_app_one, forallb_app, H1. cbn [forallb].
    now rewrite H2.
  - intros b Hb. rewrite (joinpath_plain _ b Hb). cbn [pathlib.root pathlib.parts].
    rewrite <- app_assoc. apply H3.
Qed.

Lemma written_In (dir : pathlib.Path) (v i : Z) (frames : list Image) (d : Disk)
  (x : pathlib.Path) :
  In x (frame_paths dir v i frames) ->
  exists im, stat (written dir v i frames d) x = Some (ImageFile im).
Proof.
  revert i d. induction frames as [| f fs IH]; intros i d; cbn [frame_paths written];
    [intros [] |].
  intros [<- | H]; [| now apply IH].
  exists f. rewrite written_other.
  - apply stat_cons_same. rewrite frame_path_eq. cbn [pathlib.parts].
    intros E. apply app_eq_nil in E. destruct E as [_ E]. discriminate.
  - intros H. apply frame_paths_In in H. destruct H as (j & Hj & E).
    apply frame_path_inj in E. lia.
Qed.

Lemma path_in_dec (x : pathlib.Path) (l : list pathlib.Path) : In x l \/ ~ In x l.
Proof.
  induction l as [| q l IH]; [right; intros [] |].
  destruct (pathlib.eqb q x) eqn:E.
  - left. left. now apply path_eqb_eq.
  - destruct IH as [IH | IH]; [left; now right |].
    right. intros [<- | Hin]; [rewrite path_eqb_refl in E; discriminate | tauto].
Qed.

Lemma save_frames_grows (frames : list Image) (output_dir : pathlib.Path)
  (creature_id : string) (animation_type : AnimationType) (variant_index : Z)
  (d : Disk) :
  assets_ready d (output_dir </> creature_id) ->
  forallb png_writable frames = true ->
  exists paths d',
    save_frames_to_disk frames output_dir creature_id animation_type variant_index d
    = Done paths d' /\
    paths = frame_paths (output_dir </> creature_id </> value animation_type)
              variant_index 1 frames /\
    (forall i f, nth_error frames i = Some f ->
       stat d' (output_dir </> creature_id </> value animation_type
                  </> frame_filename (1 + Z.of_nat i) variant_index)
       = Some (ImageFile f)) /\
    stat d' (output_dir </> creature_id </> value animation_type) = Some Directory /\
    grows (length (pathlib.parts (output_dir </> creature_id))) paths d d'.
Proof.
  intros Hready Hw.
  set (cdir := output_dir </> creature_id) in *.
  destruct (ready_subdir d cdir (value animation_type) (value_plain animation_type) Hready)
    as [Hmk Hfree].
  set (dir := cdir </> value animation_type) in *.
  destruct (mkdir_spec dir d Hmk) as (d1 & Hrun & Hdir & Hkeep).
  assert (Hlen : length (pathlib.parts dir) = (length (pathlib.parts cdir) + 1)%nat).
  { unfold dir. rewrite (joinpath_plain cdir _ (value_plain animation_type)).
    cbn [pathlib.parts]. rewrite length_app. reflexivity. }
  exists (frame_paths dir variant_index 1 frames),
         (written dir variant_index 1 frames d1).
  split.
  { apply save_frames_eq; try assumption.
    intros j Hj. fold cdir. fold dir.
    rewrite (mkdir_child dir _ d d1 (frame_filename_plain j variant_index) Hkeep).
    apply Hfree, frame_filename_plain. }
  split; [reflexivity |].
  split; [intros i f Hi; now apply written_nth |].
  split.
  { rewrite written_other; [exact Hdir |].
    intros Hin. apply frame_paths_In in Hin. destruct Hin as (j & _ & E).
    rewrite frame_path_eq in E. symmetry in E. revert E. apply child_not_parent. }
  intros x. destruct (path_in_dec x (frame_paths dir variant_index 1 frames)) as [Hin | Hout].
  - right. right. destruct (written_In dir variant_index 1 frames d1 x Hin) as [im Him].
    exists im. split; [exact Him |]. split; [| exact Hin].
    apply frame_paths_In in Hin. destruct Hin as (j & _ & ->).
    rewrite frame_path_eq. cbn [pathlib.parts]. rewrite length_app, Hlen. cbn. lia.
  - rewrite written_other by exact Hout.
    destruct (Hkeep x) as [E | (E0 & E & Hl)]; [now left |].
    right. left. split; [exact E0 |]. split; [exact E | lia].
Qed.

Lemma save_sheet_grows (sprite_sheet : Image) (output_dir : pathlib.Path)
  (creature_id : string) (animation_type : AnimationType) (variant_index : Z)
  (is_combined : bool) (d : Disk) :
  assets_ready d (output_dir </> creature_id) ->
  png_writable sprite_sheet = true ->
  exists d',
    save_sprite_sheet sprite_sheet output_dir creature_id animation_type variant_index
      is_combined d
    = Done (output_dir </> creature_id </> "sprite_sheets"
              </> sheet_filename animation_type variant_index is_combined) d' /\
    stat d' (output_dir </> creature_id </> "sprite_sheets"
               </> sheet_filename animation_type variant_index is_combined)
    = Some (ImageFile sprite_sheet) /\
    stat d' (output_dir </> creature_id </> "sprite_sheets") = Some Directory /\
    grows (length (pathlib.parts (output_dir </> creature_id)))
      [output_dir </> creature_id </> "sprite_sheets"
         </> sheet_filename animation_type variant_index is_combined] d d'.
Proof.
  intros Hready Hw.
  set (cdir := output_dir </> creature_id) in *.
  destruct (ready_subdir d cdir "sprite_sheets" eq_refl Hready) as [Hmk Hfree].
  destruct (save_sheet_helper sprite_sheet output_dir creature_id animation_type
              variant_index is_combined d Hmk Hw
              (Hfree _ (sheet_filename_plain animation_type variant_index is_combined)))
    as (d' & Hrun & Hsdir & Hfile & Hkeep).
  exists d'. split; [exact Hrun |]. split; [exact Hfile |]. split; [exact Hsdir |].
  fold cdir in Hfile, Hkeep.
  assert (Hlen : length (pathlib.parts (cdir </> "sprite_sheets"))
                 = (length (pathlib.parts cdir) + 1)%nat).
  { rewrite (joinpath_plain cdir "sprite_sheets" eq_refl).
    cbn [pathlib.parts]. rewrite length_app. reflexivity. }
  intros x.
  destruct (pathlib.eqb x (cdir </> "sprite_sheets"
                             </> sheet_filename animation_type variant_index is_combined))
    eqn:E.
  - apply path_eqb_eq in E. subst x. right. right. exists sprite_sheet.
    split; [exact Hfile |]. split; [| now left].
    rewrite sheet_path_eq. cbn [pathlib.parts]. rewrite length_app, Hlen. cbn. lia.
  - assert (Hx : x <> cdir </> "sprite_sheets"
                        </> sheet_filename animation_type variant_index is_combined).
    { intros ->. rewrite path_eqb_refl in E. discriminate. }
    destruct (Hkeep x Hx) as [E' | (E0 & E' & Hl)]; [now left |].
    right. left. split; [exact E0 |]. split; [exact E' | lia].
Qed.

Lemma sheet_relative (output_dir : pathlib.Path) (pack_name creature_id file_name : string) :
  plain pack_name = true -> plain creature_id = true -> plain file_name = true ->
  pathlib.relative_to
    (output_dir </> pack_name </> "creatures" </> creature_id </> "sprite_sheets"
       </> file_name) output_dir
  = Ok (pathlib.mkPath "" [pack_name; "creatures"; creature_id; "sprite_sheets"; file_name]).
Proof.
  intros Hp Hc Hf.
  rewrite (joinpath_plain output_dir pack_name Hp).
  rewrite (joinpath_plain _ "creatures" eq_refl).
  rewrite (joinpath_plain _ creature_id Hc).
  rewrite (joinpath_plain _ "sprite_sheets" eq_refl).
  rewrite (joinpath_plain _ file_name Hf).
  cbn [pathlib.root pathlib.parts]. rewrite <- !app_assoc. cbn [app].
  unfold pathlib.relative_to. cbn [pathlib.root pathlib.parts].
  rewrite String.eqb_refl.
  rewrite firstn_app, firstn_all, Nat.sub_diag. cbn [firstn]. rewrite app_nil_r.
  rewrite (proj2 (parts_eqb_eq _ _) eq_refl). cbn [andb].
  rewrite skipn_app, skipn_all, Nat.sub_diag. reflexivity.
Qed.

Lemma writable_size (im : Image) :
  png_writable im = true -> mode im <> HSV /\ 1 <= width im /\ 1 <= height im.
Proof.
  unfold png_writable. intros H.
  apply andb_true_iff in H. destruct H as [H H3].
  apply andb_true_iff in H. destruct H as [H1 H2].
  apply Z.leb_le in H2, H3. split; [| lia].
  intros E. rewrite E in H1. discriminate.
Qed.

Lemma animation_sheet_writable (frames : list Image) (spacing : Z) (bg : Pixel) :
  frames <> [] -> 0 <= spacing ->
  forallb png_writable frames = true ->
  exists sheet,
    create_animation_sprite_sheet frames spacing bg = Ok sheet /\
    png_writable sheet = true.
Proof.
  intros Hne Hs Hw. destruct frames as [| f0 fs]; [congruence |].
  cbn [forallb] in Hw. apply andb_true_iff in Hw. destruct Hw as [Hw0 _].
  apply writable_size in Hw0. destruct Hw0 as (_ & Hw0 & Hh0).
  pose proof (len_nonneg fs) as Hlen.
  assert (Htw : 1 <= len (f0 :: fs) * width f0 + (len (f0 :: fs) - 1) * spacing).
  { rewrite len_cons. nia. }
  eexists. split; [apply animation_sheet_eq; lia |].
  destruct (paste_all_shape
              (row_layout (f0 :: fs) 0 0 (width f0 + spacing))
              (blank RGBA (len (f0 :: fs) * width f0 + (len (f0 :: fs) - 1) * spacing)
                     (height f0) bg)) as (Hm & Hwd & Hht).
  unfold png_writable. rewrite Hm, Hwd, Hht. cbn [blank mode width height mode_eqb negb andb].
  destruct (Z.leb_spec 1 (len (f0 :: fs) * width f0 + (len (f0 :: fs) - 1) * spacing)),
    (Z.leb_spec 1 (height f0)); first [reflexivity | lia].
Qed.

Lemma combined_sheet_writable (animation_frames : dict AnimationType (list Image))
  (spacing : Z) (bg : Pixel) :
  animation_frames <> [] -> 0 <= spacing ->
  (forall k frames, In (k, frames) animation_frames ->
     frames <> [] /\ forallb png_writable frames = true) ->
  exists sheet,
    create_combined_sprite_sheet animation_frames spacing bg = Ok sheet /\
    png_writable sheet = true.
Proof.
  intros Hne Hs Hall. destruct animation_frames as [| [k0 frames0] rest]; [congruence |].
  destruct (Hall k0 frames0 (or_introl eq_refl)) as [Hne0 Hw0].
  destruct frames0 as [| f0 fs0]; [congruence |].
  cbn [forallb] in Hw0. apply andb_true_iff in Hw0. destruct Hw0 as [Hw0 _].
  apply writable_size in Hw0. destruct Hw0 as (_ & Hw0 & Hh0).
  set (d := (k0, f0 :: fs0) :: rest) in *.
  destruct (py_max_spec (len (f0 :: fs0)) (map len (values rest))) as (M & HM & _ & HMall).
  change (len (f0 :: fs0) :: map len (values rest)) with (map len (values d)) in HM, HMall.
  assert (HM1 : 1 <= M).
  { inversion HMall as [| ? ? HM0 _]; subst. rewrite len_cons in HM0.
    pose proof (len_nonneg fs0). lia. }
  assert (Hd1 : 1 <= len d).
  { unfold d. rewrite len_cons. pose proof (len_nonneg rest). lia. }
  eexists. split.
  { apply (combined_sheet_eq d k0 f0 fs0 rest spacing M bg eq_refl HM); nia. }
  match goal with
  | |- png_writable (paste_all ?ps ?sh) = true =>
      destruct (paste_all_shape ps sh) as (Hm & Hwd & Hht)
  end.
  unfold png_writable. rewrite Hm, Hwd, Hht. cbn [blank mode width height mode_eqb negb andb].
  destruct (Z.leb_spec 1 (M * width f0 + (M - 1) * spacing)),
    (Z.leb_spec 1 (len d * height f0 + (len d - 1) * spacing)); first [reflexivity | nia].
Qed.

Lemma grows_keeps (n : nat) (files : list pathlib.Path) (d d' : Disk)
  (x : pathlib.Path) (im : Image) :
  grows n files d d' -> ~ In x files ->
  stat d x = Some (ImageFile im) -> stat d' x = Some (ImageFile im).
Proof.
  intros Hg Hx Hs. destruct (Hg x) as [E | [(E & _) | (im' & _ & _ & E)]];
    [congruence | congruence | contradiction].
Qed.

Lemma dir_kept (n : nat) (files : list pathlib.Path) (d d' : Disk) (x : pathlib.Path) :
  grows n files d d' -> length (pathlib.parts x) <> (n + 2)%nat ->
  stat d x = Some Directory -> stat d' x = Some Directory.
Proof.
  intros Hg Hx Hs. destruct (Hg x) as [E | [(E & _) | (im & _ & E & _)]];
    [congruence | congruence | contradiction].
Qed.

Lemma subdir_depth (creature_dir : pathlib.Path) (a : string) :
  plain a = true ->
  length (pathlib.parts (creature_dir </> a))
  <> (length (pathlib.parts creature_dir) + 2)%nat.
Proof.
  intros Ha. rewrite (joinpath_plain creature_dir a Ha). cbn [pathlib.parts].
  rewrite length_app. cbn. lia.
Qed.

Lemma frame_vs_sheet (creature_dir : pathlib.Path) (k k' : AnimationType) (i v v' : Z)
  (c : bool) :
  creature_dir </> value k </> frame_filename i v
  <> creature_dir </> "sprite_sheets" </> sheet_filename k' v' c.
Proof.
  intros E. apply grandchild_inj in E;
    [| apply value_plain | reflexivity | apply frame_filename_plain
     | apply sheet_filename_plain].
  destruct E as [E _]. destruct k; discriminate E.
Qed.

Lemma frame_vs_frame (creature_dir : pathlib.Path) (k k' : AnimationType) (i j v : Z) :
  creature_dir </> value k </> frame_filename i v
  = creature_dir </> value k' </> frame_filename j v -> k = k' /\ i = j.
Proof.
  intros E. apply grandchild_inj in E;
    [| apply value_plain | apply value_plain | apply frame_filename_plain
     | apply frame_filename_plain].
  destruct E as [Ek Ef]. apply frame_filename_inj in Ef.
  split; [| tauto]. destruct k, k'; try reflexivity; discriminate Ek.
Qed.

Lemma sheet_vs_sheet (creature_dir : pathlib.Path) (k k' : AnimationType) (v : Z)
  (c c' : bool) :
  creature_dir </> "sprite_sheets" </> sheet_filename k v c
  = creature_dir </> "sprite_sheets" </> sheet_filename k' v c' ->
  c = c' /\ (c = false -> k = k').
Proof.
  rewrite !sheet_path_eq. intros E. apply child_inj in E.
  apply sheet_filename_inj in E. tauto.
Qed.

Lemma entry_paths_In (creature_dir : pathlib.Path) (v : Z)
  (entries : dict AnimationType (list Image)) (x : pathlib.Path) :
  In x (flat_map (fun entry : AnimationType * list Image =>
                    (frame_paths (creature_dir </> value (fst entry)) v 1 (snd entry)
                    ++ [creature_dir </> "sprite_sheets"
                          </> sheet_filename (fst entry) v false])%list)
                 entries) ->
  exists k frames,
    In (k, frames) entries /\
    (In x (frame_paths (creature_dir </> value k) v 1 frames) \/
     x = creature_dir </> "sprite_sheets" </> sheet_filename k v false).
Proof.
  intros H. apply in_flat_map in H. destruct H as ([k frames] & Hin & Hx).
  cbn [fst snd] in Hx. apply in_app_iff in Hx.
  exists k, frames. split; [exact Hin |].
  destruct Hx as [Hx | [<- | []]]; [now left | now right].
Qed.

Lemma entry_sheet_fresh (creature_dir : pathlib.Path) (v : Z) (k : AnimationType) (c : bool)
  (entries : dict AnimationType (list Image)) :
  (c = false -> ~ In k (keys entries)) ->
  ~ In (creature_dir </> "sprite_sheets" </> sheet_filename k v c)
       (flat_map (fun entry : AnimationType * list Image =>
                    (frame_paths (creature_dir </> value (fst entry)) v 1 (snd entry)
                    ++ [creature_dir </> "sprite_sheets"
                          </> sheet_filename (fst entry) v false])%list)
                 entries).
Proof.
  intros Hk H. apply entry_paths_In in H. destruct H as (k' & frames & Hin & [Hx | Hx]).
  - apply frame_paths_In in Hx. destruct Hx as (j & _ & E).
    symmetry in E. revert E. apply frame_vs_sheet.
  - apply sheet_vs_sheet in Hx. destruct Hx as [-> Hx].
    apply (Hk eq_refl). rewrite (Hx eq_refl).
    unfold keys. apply (in_map fst _ _ Hin).
Qed.

Lemma entry_frame_fresh (creature_dir : pathlib.Path) (v i : Z) (k : AnimationType)
  (entries : dict AnimationType (list Image)) :
  ~ In k (keys entries) ->
  ~ In (creature_dir </> value k </> frame_filename i v)
       (flat_map (fun entry : AnimationType * list Image =>
                    (frame_paths (creature_dir </> value (fst entry)) v 1 (snd entry)
                    ++ [creature_dir </> "sprite_sheets"
                          </> sheet_filename (fst entry) v false])%list)
                 entries).
Proof.
  intros Hk H. apply entry_paths_In in H. destruct H as (k' & frames & Hin & [Hx | Hx]).
  - apply frame_paths_In in Hx. destruct Hx as (j & _ & E).
    apply frame_vs_frame in E. destruct E as [-> _].
    apply Hk. unfold keys. apply (in_map fst _ _ Hin).
  - revert Hx. apply frame_vs_sheet.
Qed.

Lemma assets_loop (output_dir : pathlib.Path) (pack_name creature_id : string)
  (variant_index : Z) (entries : dict AnimationType (list Image))
  (acc : dict string string) (d : Disk) :
  plain pack_name = true -> plain creature_id = true ->
  assets_ready d (output_dir </> pack_name </> "creatures" </> creature_id) ->
  NoDup (keys entries) ->
  (forall k frames, In (k, frames) entries ->
     frames <> [] /\ forallb png_writable frames = true) ->
  exists d',
    io_for_each entries
      (fun sprite_sheet_paths '(anim_type, frames) =>
         (_ <- save_frames_to_disk frames (output_dir </> pack_name </> "creatures")
                 creature_id anim_type variant_index ;;
          sprite_sheet <- lift (create_animation_sprite_sheet frames 2 transparent) ;;
          sheet_path <- save_sprite_sheet sprite_sheet
                          (output_dir </> pack_name </> "creatures") creature_id anim_type
                          variant_index false ;;
          relative <- lift (pathlib.relative_to sheet_path output_dir) ;;
          io_ret (dict_set String.eqb sprite_sheet_paths (value anim_type)
                    (pathlib.to_str relative)))%io)
      acc d
    = Done (fold_left
              (fun paths (entry : AnimationType * list Image) =>
                 dict_set String.eqb paths (value (fst entry))
                   (sheet_entry pack_name creature_id
                      (sheet_filename (fst entry) variant_index false)))
              entries acc) d' /\
    grows (length (pathlib.parts (output_dir </> pack_name </> "creatures" </> creature_id)))
      (flat_map (fun entry : AnimationType * list Image =>
                   (frame_paths (output_dir </> pack_name </> "creatures" </> creature_id
                                  </> value (fst entry)) variant_index 1 (snd entry)
                   ++ [output_dir </> pack_name </> "creatures" </> creature_id
                         </> "sprite_sheets"
                         </> sheet_filename (fst entry) variant_index false])%list)
                entries)
      d d' /\
    (forall k frames, In (k, frames) entries ->
       (forall sheet, create_animation_sprite_sheet frames 2 transparent = Ok sheet ->
          stat d' (output_dir </> pack_name </> "creatures" </> creature_id
                     </> "sprite_sheets" </> sheet_filename k variant_index false)
          = Some (ImageFile sheet)) /\
       (forall i f, nth_error frames i = Some f ->
          stat d' (output_dir </> pack_name </> "creatures" </> creature_id </> value k
                     </> frame_filename (1 + Z.of_nat i) variant_index)
          = Some (ImageFile f)) /\
       stat d' (output_dir </> pack_name </> "creatures" </> creature_id </> value k)
       = Some Directory).
Proof.
  intros Hp Hc. revert acc d.
  induction entries as [| [k frames] entries IH]; intros acc d Hready Hnd Hall;
    cbn [io_for_each fold_left fst snd flat_map].
  - exists d. split; [reflexivity |]. split; [apply grows_refl | intros ? ? []].
  - cbn [keys map fst] in Hnd. inversion Hnd as [| ? ? Hk Hnd']; subst.
    destruct (Hall k frames (or_introl eq_refl)) as [Hne Hw].
    destruct (save_frames_grows frames (output_dir </> pack_name </> "creatures")
                creature_id k variant_index d Hready Hw)
      as (paths & d1 & Hrun1 & -> & Hback1 & Hdir1 & Hg1).
    pose proof (ready_grows d d1 _ _ Hready Hg1) as Hready1.
    destruct (animation_sheet_writable frames 2 transparent Hne ltac:(lia) Hw)
      as (sheet & Hsheet & Hsw).
    destruct (save_sheet_grows sheet (output_dir </> pack_name </> "creatures")
                creature_id k variant_index false d1 Hready1 Hsw)
      as (d2 & Hrun2 & Hback2 & _ & Hg2).
    pose proof (ready_grows d1 d2 _ _ Hready1 Hg2) as Hready2.
    destruct (IH (dict_set String.eqb acc (value k)
                    (sheet_entry pack_name creature_id
                       (sheet_filename k variant_index false))) d2 Hready2 Hnd')
      as (d' & Hrun & Hg & Hback).
    { intros k' frames' Hin. apply (Hall k' frames'). now right. }
    exists d'. split; [| split].
    + unfold io_bind at 1. unfold io_bind at 1. rewrite Hrun1.
      unfold io_bind at 1. unfold lift at 1. rewrite Hsheet.
      unfold io_bind at 1. rewrite Hrun2.
      unfold io_bind at 1. unfold lift at 1.
      rewrite (sheet_relative output_dir pack_name creature_id _ Hp Hc
                 (sheet_filename_plain k variant_index false)).
      unfold io_ret at 1. exact Hrun.
    + exact (grows_trans _ _ _ _ _ _ (grows_trans _ _ _ _ _ _ Hg1 Hg2) Hg).
    + intros k' frames' [[= <- <-] | Hin]; [| now apply Hback].
      split; [| split].
      * intros sheet' Hs'. rewrite Hsheet in Hs'. injection Hs' as <-.
        apply (grows_keeps _ _ d2 d' _ _ Hg); [| exact Hback2].
        apply entry_sheet_fresh. intros _. exact Hk.
      * intros i f Hi.
        apply (grows_keeps _ _ d2 d' _ _ Hg); [now apply entry_frame_fresh |].
        apply (grows_keeps _ _ d1 d2 _ _ Hg2); [| now apply Hback1].
        intros [E | []]. symmetry in E. revert E. apply frame_vs_sheet.
      * apply (dir_kept _ _ d2 d' _ Hg); [apply subdir_depth, value_plain |].
        apply (dir_kept _ _ d1 d2 _ Hg2); [apply subdir_depth, value_plain |].
        exact Hdir1.
Qed.

Lemma value_inj (k k' : AnimationType) : value k = value k' -> k = k'.
Proof. destruct k, k'; intros H; try reflexivity; discriminate H. Qed.

Lemma dict_set_fresh (paths : dict string string) (k v : string) :
  ~ In k (keys paths) -> dict_set String.eqb paths k v = (paths ++ [(k, v)])%list.
Proof.
  induction paths as [| [k' v'] paths IH]; intros H; cbn [dict_set app]; [reflexivity |].
  cbn [keys map fst] in H.
  destruct (String.eqb_spec k' k) as [-> | _]; [exfalso; apply H; now left |].
  rewrite IH; [reflexivity |]. intros Hin. apply H. now right.
Qed.

Lemma entries_fold (pack_name creature_id : string) (variant_index : Z)
  (entries : dict AnimationType (list Image)) (acc : dict string string) :
  NoDup (keys entries) ->
  (forall k, In k (keys entries) -> ~ In (value k) (keys acc)) ->
  fold_left
    (fun paths (entry : AnimationType * list Image) =>
       dict_set String.eqb paths (value (fst entry))
         (sheet_entry pack_name creature_id (sheet_filename (fst entry) variant_index false)))
    entries acc
  = (acc ++ map (fun entry : AnimationType * list Image =>
                   (value (fst entry),
                    sheet_entry pack_name creature_id
                      (sheet_filename (fst entry) variant_index false)))
            entries)%list.
Proof.
  revert acc. induction entries as [| [k frames] entries IH]; intros acc Hnd Hfresh;
    cbn [fold_left map fst]; [now rewrite app_nil_r |].
  cbn [keys map fst] in Hnd. inversion Hnd as [| ? ? Hk Hnd']; subst.
  rewrite dict_set_fresh by (apply (Hfresh k); now left).
  rewrite IH.
  - now rewrite <- app_assoc.
  - exact Hnd'.
  - intros k' Hk' Hin. unfold keys in Hin. rewrite map_app in Hin. apply in_app_iff in Hin.
    destruct Hin as [Hin | [Hin | []]].
    + apply (Hfresh k'); [now right | exact Hin].
    + cbn in Hin. apply value_inj in Hin. subst k'. now apply Hk.
Qed.

Lemma mkdir_each_keeps_dir (r : string) (target : list string) (qs : list (list string))
  (d d1 : Disk) (x : pathlib.Path) :
  mkdir_each r target qs d = Done tt d1 ->
  stat d x = Some Directory -> stat d1 x = Some Directory.
Proof.
  revert d. induction qs as [| q qs IH]; intros d Hrun Hx; cbn [mkdir_each] in Hrun.
  - injection Hrun as <-. exact Hx.
  - destruct (stat d (pathlib.mkPath r q)) as [[| im | t] |] eqn:Eq; try discriminate Hrun.
    + now apply (IH d).
    + apply (IH _ Hrun). rewrite stat_cons_other; [exact Hx |]. intros E.
      rewrite E in Hx. congruence.
Qed.

Lemma mkdir_each_dirs (r : string) (target : list string) (qs : list (list string))
  (d d1 : Disk) :
  mkdir_each r target qs d = Done tt d1 ->
  forall q, In q qs -> stat d1 (pathlib.mkPath r q) = Some Directory.
Proof.
  revert d. induction qs as [| q qs IH]; intros d Hrun q' Hq'; [destruct Hq' |].
  cbn [mkdir_each] in Hrun.
  destruct (stat d (pathlib.mkPath r q)) as [[| im | t] |] eqn:Eq; try discriminate Hrun.
  - destruct Hq' as [<- | Hq']; [| now apply (IH d)].
    now apply (mkdir_each_keeps_dir r target qs d d1).
  - destruct Hq' as [<- | Hq']; [| now apply (IH _ Hrun)].
    apply (mkdir_each_keeps_dir r target qs _ d1 _ Hrun).
    apply stat_cons_same. cbn [pathlib.parts]. intros E. rewrite E in Eq.
    discriminate Eq.
Qed.

Lemma prefixes_init {A : Type} (l : list A) (a : A) :
  l <> [] -> In l (prefixes (l ++ [a])).
Proof.
  induction l as [| x l IH]; [congruence |]. intros _. cbn [app prefixes].
  destruct l as [| y l]; [now left |]. right. apply in_map. apply IH. discriminate.
Qed.

(** [mkdir(parents=True)] leaves the parent a directory. *)
Lemma mkdir_parent (p : pathlib.Path) (s : string) (d d1 : Disk) :
  plain s = true -> mkdir (p </> s) d = Done tt d1 -> stat d1 p = Some Directory.
Proof.
  intros Hs Hrun. rewrite (joinpath_plain p s Hs) in Hrun. unfold mkdir in Hrun.
  destruct p as [r ps]. cbn [pathlib.root pathlib.parts] in Hrun.
  destruct ps as [| a ps]; [reflexivity |].
  apply (mkdir_each_dirs _ _ _ _ _ Hrun). apply prefixes_init. discriminate.
Qed.

Lemma image_save_done (im : Image) (p : pathlib.Path) (d d' : Disk) (u : unit) :
  image_save im p d = Done u d' -> d' = (p, ImageFile im) :: d.
Proof.
  unfold image_save. intros H.
  destruct (stat d (pathlib.parent p)) as [[| im' | t] |]; try discriminate H.
  destruct (stat d p) as [[| im' | t] |]; try discriminate H;
    destruct (png_writable im); try discriminate H; now injection H as <-.
Qed.

Lemma grandchild_not_self (p : pathlib.Path) (a b : string) :
  plain a = true -> plain b = true -> p <> p </> a </> b.
Proof.
  intros Ha Hb. rewrite (joinpath_plain _ b Hb), (joinpath_plain p a Ha).
  destruct p as [r ps]. cbn [pathlib.root pathlib.parts]. intros [= H].
  apply (f_equal (@length string)) in H. rewrite !length_app in H. cbn in H. lia.
Qed.

(** A sheet that was saved stands two levels below a directory. *)
Lemma save_sheet_creature_dir (sprite_sheet : Image) (output_dir : pathlib.Path)
  (creature_id : string) (animation_type : AnimationType) (variant_index : Z)
  (is_combined : bool) (d d' : Disk) (p : pathlib.Path) :
  save_sprite_sheet sprite_sheet output_dir creature_id animation_type variant_index
    is_combined d = Done p d' ->
  stat d' (output_dir </> creature_id) = Some Directory.
Proof.
  intros Hrun. unfold save_sprite_sheet, io_bind in Hrun.
  destruct (mkdir (output_dir </> creature_id </> "sprite_sheets") d) as [[] d1 |] eqn:Hmk;
    [| discriminate Hrun].
  apply mkdir_parent in Hmk; [| reflexivity].
  destruct (image_save sprite_sheet _ d1) as [u d2 |] eqn:Hs; [| discriminate Hrun].
  apply image_save_done in Hs. unfold io_ret in Hrun. injection Hrun as _ <-. subst d2.
  rewrite stat_cons_other; [exact Hmk |].
  apply (grandchild_not_self (output_dir </> creature_id) "sprite_sheets"
           (sheet_filename animation_type variant_index is_combined));
    [reflexivity | apply sheet_filename_plain].
Qed.

Lemma save_assets_helper (config : Config.GenerationConfig) (creature_id : string)
  (animation_frames : dict AnimationType (list Image)) (variant_index : Z) (d : Disk) :
  plain (Config.pack_name config) = true -> plain creature_id = true ->
  assets_ready d (Config.output_dir config </> Config.pack_name config </> "creatures"
                    </> creature_id) ->
  animation_frames <> [] -> NoDup (keys animation_frames) ->
  (forall k frames, In (k, frames) animation_frames ->
     frames <> [] /\ forallb png_writable frames = true) ->
  exists d',
    save_creature_assets config creature_id animation_frames variant_index d
    = Done (sheet_entries (Config.pack_name config) creature_id variant_index
              animation_frames) d' /\
    grows (length (pathlib.parts (Config.output_dir config </> Config.pack_name config
                                    </> "creatures" </> creature_id)))
      (asset_paths (Config.output_dir config </> Config.pack_name config
                      </> "creatures" </> creature_id) variant_index animation_frames)
      d d' /\
    assets_ready d' (Config.output_dir config </> Config.pack_name config </> "creatures"
                       </> creature_id) /\
    (forall k frames, In (k, frames) animation_frames ->
       (forall sheet, create_animation_sprite_sheet frames 2 transparent = Ok sheet ->
          stat d' (Config.output_dir config </> Config.pack_name config </> "creatures"
                     </> creature_id </> "sprite_sheets"
                     </> sheet_filename k variant_index false)
          = Some (ImageFile sheet)) /\
       (forall i f, nth_error frames i = Some f ->
          stat d' (Config.output_dir config </> Config.pack_name config </> "creatures"
                     </> creature_id </> value k
                     </> frame_filename (1 + Z.of_nat i) variant_index)
          = Some (ImageFile f)) /\
       stat d' (Config.output_dir config </> Config.pack_name config </> "creatures"
                  </> creature_id </> value k)
       = Some Directory) /\
    stat d' (Config.output_dir config </> Config.pack_name config </> "creatures"
               </> creature_id </> "sprite_sheets")
    = Some Directory /\
    stat d' (Config.output_dir config </> Config.pack_name config </> "creatures"
               </> creature_id)
    = Some Directory /\
    (forall sheet, create_combined_sprite_sheet animation_frames 2 transparent = Ok sheet ->
       stat d' (Config.output_dir config </> Config.pack_name config </> "creatures"
                  </> creature_id </> "sprite_sheets"
                  </> sheet_filename IDLE variant_index true)
       = Some (ImageFile sheet)).
Proof.
  intros Hp Hc Hready Hne Hnd Hall.
  destruct (assets_loop (Config.output_dir config) (Config.pack_name config) creature_id
              variant_index animation_frames [] d Hp Hc Hready Hnd Hall)
    as (d1 & Hrun1 & Hg1 & Hback1).
  pose proof (ready_grows d d1 _ _ Hready Hg1) as Hready1.
  destruct (combined_sheet_writable animation_frames 2 transparent Hne ltac:(lia) Hall)
    as (sheet & Hsheet & Hsw).
  destruct (save_sheet_grows sheet
              (Config.output_dir config </> Config.pack_name config </> "creatures")
              creature_id IDLE variant_index true d1 Hready1 Hsw)
    as (d2 & Hrun2 & Hback2 & Hsdir & Hg2).
  exists d2. split; [| split; [exact (grows_trans _ _ _ _ _ _ Hg1 Hg2) | split;
    [exact (ready_grows d1 d2 _ _ Hready1 Hg2) | split; [| split; [exact Hsdir | split;
    [exact (save_sheet_creature_dir _ _ _ _ _ _ _ _ _ Hrun2) |]]]]]].
  - unfold save_creature_assets.
    unfold io_bind at 1. rewrite Hrun1.
    unfold io_bind at 1. unfold lift at 1. rewrite Hsheet.
    unfold io_bind at 1. rewrite Hrun2.
    unfold io_bind at 1. unfold lift at 1.
    rewrite (sheet_relative (Config.output_dir config) (Config.pack_name config) creature_id _
               Hp Hc (sheet_filename_plain IDLE variant_index true)).
    unfold io_ret. f_equal.
    rewrite entries_fold; [| exact Hnd | intros k _ []].
    cbn [app]. rewrite dict_set_fresh; [reflexivity |].
    unfold keys. rewrite map_map. cbn [fst]. intros Hin.
    apply in_map_iff in Hin. destruct Hin as ([k frames] & Hk & _).
    cbn [fst] in Hk. destruct k; discriminate Hk.
  - intros k frames Hin. destruct (Hback1 k frames Hin) as (Hs & Hf & Hkd).
    split; [| split].
    + intros sheet' Hs'. apply (grows_keeps _ _ d1 d2 _ _ Hg2); [| now apply Hs].
      intros [E | []]. apply sheet_vs_sheet in E. destruct E as [E _]. discriminate E.
    + intros i f Hi. apply (grows_keeps _ _ d1 d2 _ _ Hg2); [| now apply Hf].
      intros [E | []]. symmetry in E. revert E. apply frame_vs_sheet.
    + apply (dir_kept _ _ d1 d2 _ Hg2); [apply subdir_depth, value_plain | exact Hkd].
  - intros sheet' Hs'. rewrite Hsheet in Hs'. injection Hs' as <-. exact Hback2.
Qed.

(** X19: saving the assets of a creature.  Let the pack name and the
    creature id be single path components, the directory of the creature
    be ready, and every animation of a non-empty mapping (keys pairwise
    distinct) have at least one frame, each an image PNG can store.
    Then [save_creature_assets] succeeds; it returns one entry per
    animation, in the order of the mapping, and [combined] last, each
    with the path of the sheet relative to the output directory; on the
    disk only the frame files and sheet files of this creature and
    variant are written, besides new directories, and the creature's
    directory is ready for the next variant. *)
Theorem save_assets_spec (config : Config.GenerationConfig) (creature_id : string)
  (animation_frames : dict AnimationType (list Image)) (variant_index : Z) (d : Disk) :
  plain (Config.pack_name config) = true -> plain creature_id = true ->
  assets_ready d (Config.output_dir config </> Config.pack_name config </> "creatures"
                    </> creature_id) ->
  animation_frames <> [] -> NoDup (keys animation_frames) ->
  (forall k frames, In (k, frames) animation_frames ->
     frames <> [] /\ forallb png_writable frames = true) ->
  exists d',
    save_creature_assets config creature_id animation_frames variant_index d
    = Done (sheet_entries (Config.pack_name config) creature_id variant_index
              animation_frames) d' /\
    grows (length (pathlib.parts (Config.output_dir config </> Config.pack_name config
                                    </> "creatures" </> creature_id)))
      (asset_paths (Config.output_dir config </> Config.pack_name config
                      </> "creatures" </> creature_id) variant_index animation_frames)
      d d' /\
    assets_ready d' (Config.output_dir config </> Config.pack_name config </> "creatures"
                       </> creature_id).
Proof.
  intros Hp Hc Hready Hne Hnd Hall.
  destruct (save_assets_helper config creature_id animation_frames variant_index d
              Hp Hc Hready Hne Hnd Hall) as (d' & H1 & H2 & H3 & _).
  exists d'. auto.
Qed.

Lemma ready_empty (creature_dir : pathlib.Path) : assets_ready [] creature_dir.
Proof.
  unfold assets_ready, can_mkdir. repeat split.
  - apply forallb_forall. intros q _. unfold stat. cbn. now destruct q.
  - intros a. unfold stat. cbn [pathlib.parts]. now destruct (_ ++ [a])%list.
  - intros a b. unfold stat. cbn [pathlib.parts].
    destruct (pathlib.parts creature_dir ++ [a; b])%list eqn:E; [| reflexivity].
    apply app_eq_nil in E. destruct E as [_ E]. discriminate.
Qed.

Lemma three_animations_ok :
  three_animations <> [] /\ NoDup (keys three_animations) /\
  (forall k frames, In (k, frames) three_animations ->
     frames <> [] /\ forallb png_writable frames = true).
Proof.
  split; [discriminate |]. split.
  - repeat constructor; cbn; intuition discriminate.
  - intros k frames Hin. cbn in Hin.
    destruct Hin as [[= <- <-] | [[= <- <-] | [[= <- <-] | []]]];
      (split; [discriminate | reflexivity]).
Qed.

Lemma save_assets_spec_witness :
  exists d',
    save_creature_assets demo_config "creature_001" three_animations 1 []
    = Done (sheet_entries (Config.pack_name demo_config) "creature_001" 1 three_animations)
        d' /\
    grows (length (pathlib.parts (Config.output_dir demo_config
                                    </> Config.pack_name demo_config
                                    </> "creatures" </> "creature_001")))
      (asset_paths (Config.output_dir demo_config </> Config.pack_name demo_config
                      </> "creatures" </> "creature_001") 1 three_animations)
      [] d' /\
    assets_ready d' (Config.output_dir demo_config </> Config.pack_name demo_config
                       </> "creatures" </> "creature_001").
Proof.
  apply (save_assets_spec demo_config "creature_001" three_animations 1 []).
  - reflexivity.
  - reflexivity.
  - apply ready_empty.
  - apply three_animations_ok.
  - apply three_animations_ok.
  - apply three_animations_ok.
Defined.

(** X20: the saved assets can be read back.  Under the conditions of
    X19, after [save_creature_assets] every animation's sheet file holds
    the sheet [create_animation_sprite_sheet] makes of its frames with
    spacing 2, the file of frame [i + 1] holds the [i]-th frame, and the
    combined file holds the combined sheet: no asset of the call is
    overwritten by another. *)
Theorem saved_assets_read_back (config : Config.GenerationConfig) (creature_id : string)
  (animation_frames : dict AnimationType (list Image)) (variant_index : Z) (d : Disk) :
  plain (Config.pack_name config) = true -> plain creature_id = true ->
  assets_ready d (Config.output_dir config </> Config.pack_name config </> "creatures"
                    </> creature_id) ->
  animation_frames <> [] -> NoDup (keys animation_frames) ->
  (forall k frames, In (k, frames) animation_frames ->
     frames <> [] /\ forallb png_writable frames = true) ->
  exists paths d',
    save_creature_assets config creature_id animation_frames variant_index d
    = Done paths d' /\
    (forall k frames, In (k, frames) animation_frames ->
       (exists sheet,
          create_animation_sprite_sheet frames 2 transparent = Ok sheet /\
          image_open (Config.output_dir config </> Config.pack_name config </> "creatures"
                        </> creature_id </> "sprite_sheets"
                        </> sheet_filename k variant_index false) d'
          = Done sheet d') /\
       (forall i f, nth_error frames i = Some f ->
          image_open (Config.output_dir config </> Config.pack_name config </> "creatures"
                        </> creature_id </> value k
                        </> frame_filename (1 + Z.of_nat i) variant_index) d'
          = Done f d')) /\
    (exists combined,
       create_combined_sprite_sheet animation_frames 2 transparent = Ok combined /\
       image_open (Config.output_dir config </> Config.pack_name config </> "creatures"
                     </> creature_id </> "sprite_sheets"
                     </> sheet_filename IDLE variant_index true) d'
       = Done combined d').
Proof.
  intros Hp Hc Hready Hne Hnd Hall.
  destruct (save_assets_helper config creature_id animation_frames variant_index d
              Hp Hc Hready Hne Hnd Hall) as (d' & H1 & _ & _ & Hback & _ & _ & Hcomb).
  eexists. exists d'. split; [exact H1 |]. split.
  - intros k frames Hin. destruct (Hback k frames Hin) as (Hs & Hf & _).
    destruct (Hall k frames Hin) as [Hne' Hw].
    destruct (animation_sheet_writable frames 2 transparent Hne' ltac:(lia) Hw)
      as (sheet & Hsheet & _).
    split.
    + exists sheet. split; [exact Hsheet |]. unfold image_open. now rewrite (Hs sheet Hsheet).
    + intros i f Hi. unfold image_open. now rewrite (Hf i f Hi).
  - destruct (combined_sheet_writable animation_frames 2 transparent Hne ltac:(lia) Hall)
      as (sheet & Hsheet & _).
    exists sheet. split; [exact Hsheet |]. unfold image_open. now rewrite (Hcomb sheet Hsheet).
Qed.

Lemma saved_assets_read_back_witness :
  exists paths d',
    save_creature_assets demo_config "creature_001" three_animations 0 []
    = Done paths d' /\
    (forall k frames, In (k, frames) three_animations ->
       (exists sheet,
          create_animation_sprite_sheet frames 2 transparent = Ok sheet /\
          image_open (Config.output_dir demo_config </> Config.pack_name demo_config
                        </> "creatures" </> "creature_001" </> "sprite_sheets"
                        </> sheet_filename k 0 false) d'
          = Done sheet d') /\
       (forall i f, nth_error frames i = Some f ->
          image_open (Config.output_dir demo_config </> Config.pack_name demo_config
                        </> "creatures" </> "creature_001" </> value k
                        </> frame_filename (1 + Z.of_nat i) 0) d'
          = Done f d')) /\
    (exists combined,
       create_combined_sprite_sheet three_animations 2 transparent = Ok combined /\
       image_open (Config.output_dir demo_config </> Config.pack_name demo_config
                     </> "creatures" </> "creature_001" </> "sprite_sheets"
                     </> sheet_filename IDLE 0 true) d'
       = Done combined d').
Proof.
  apply (saved_assets_read_back demo_config "creature_001" three_animations 0 []).
  - reflexivity.
  - reflexivity.
  - apply ready_empty.
  - apply three_animations_ok.
  - apply three_animations_ok.
  - apply three_animations_ok.
Defined.

(** ** One creature of the pack *)

Lemma variant_frames (variant_index w h : Z) (frames0 : list Image) :
  variant_defined variant_index ->
  (forall f, In f frames0 -> mode f = RGBA /\ width f = w /\ height f = h) ->
  exists frames,
    (if variant_index >? 0 then
       let hue_shift := variant_hue_shift variant_index in
       saturation_factor <- variant_saturation_factor variant_index ;;
       for_append frames0
         (fun frame => apply_color_variant frame hue_shift saturation_factor)
     else Ok frames0) = Ok frames /\
    length frames = length frames0 /\
    (forall f, In f frames -> mode f = RGBA /\ width f = w /\ height f = h).
Proof.
  intros Hv Hsize. destruct (Z.gtb_spec variant_index 0) as [Hpos | Hneg].
  - destruct Hv as [Hv | (sf & Hsf & Hdef)]; [lia |].
    cbv zeta. rewrite Hsf. cbn [bind].
    destruct (for_append_defined
                (fun frame => apply_color_variant frame (variant_hue_shift variant_index) sf)
                frames0) as [frames Hf].
    { intros x _. apply apply_color_variant_defined. exact Hdef. }
    exists frames. split; [exact Hf |].
    apply for_append_nth in Hf. destruct Hf as [Hlen Hnth].
    split; [exact Hlen |].
    intros f Hin. apply In_nth_error in Hin. destruct Hin as [i Hi].
    assert (Hi0 : (i < length frames0)%nat).
    { rewrite <- Hlen. apply nth_error_Some. congruence. }
    destruct (nth_error frames0 i) as [g |] eqn:Eg;
      [| apply nth_error_None in Eg; lia].
    destruct (Hnth i g Eg) as (y & Hy1 & Hy2).
    rewrite Hi in Hy1. injection Hy1 as <-.
    apply apply_color_variant_spec in Hy2. destruct Hy2 as (Hm & Hw & Hh & _).
    destruct (Hsize g (nth_error_In _ _ Eg)) as (_ & Hgw & Hgh).
    repeat split; congruence.
  - exists frames0. auto.
Qed.

Lemma uniform_writable (w h : Z) (frames : list Image) :
  1 <= w -> 1 <= h ->
  (forall f, In f frames -> mode f = RGBA /\ width f = w /\ height f = h) ->
  forallb png_writable frames = true.
Proof.
  intros Hw Hh H. apply forallb_forall. intros f Hf.
  destruct (H f Hf) as (Hm & Hfw & Hfh). unfold png_writable. rewrite Hm, Hfw, Hfh.
  cbn [mode_eqb negb andb].
  destruct (Z.leb_spec 1 w), (Z.leb_spec 1 h); first [reflexivity | lia].
Qed.

Lemma creature_id_plain (creature_index : Z) : plain (creature_id_of creature_index) = true.
Proof.
  unfold creature_id_of, plain. cbn [append String.eqb Ascii.eqb Bool.eqb andb negb].
  repeat first [ progress cbn [all_chars]
               | rewrite (numeric_plain_part _ (format_0d_numeric 3 (creature_index + 1))) ].
  reflexivity.
Qed.

Lemma creature_id_inj (i j : Z) : creature_id_of i = creature_id_of j -> i = j.
Proof.
  unfold creature_id_of. intros H. apply append_inv_head in H.
  apply format_0d_inj in H. lia.
Qed.

Lemma generated_creature (be : Backend) (config : Config.GenerationConfig)
  (theme_config : ThemeConfig) (creature_index variant_index w h : Z) :
  (forall s n, (0 < n)%nat -> (randbelow be s n < n)%nat) ->
  Config.resolution config = (w, h) -> 1 <= w -> 1 <= h ->
  1 <= Config.frames_per_animation config ->
  variant_defined variant_index ->
  exists idle walk attack,
    CreaturePackPipeline_generate_creature be config theme_config creature_index
      variant_index
    = Ok (creature_id_of creature_index, [(IDLE, idle); (WALK, walk); (ATTACK, attack)]) /\
    (forall frames, In frames [idle; walk; attack] ->
       len frames = Config.frames_per_animation config /\
       forall f, In f frames -> mode f = RGBA /\ width f = w /\ height f = h).
Proof.
  intros Hr Hres Hw Hh Hn Hv.
  assert (Hone : forall k, exists frames,
             (frames0 <- generate_animation_frames be (Config.resolution config) theme_config
                           creature_index k (Config.frames_per_animation config) ;;
              (if variant_index >? 0 then
                 let hue_shift := variant_hue_shift variant_index in
                 saturation_factor <- variant_saturation_factor variant_index ;;
                 for_append frames0
                   (fun frame => apply_color_variant frame hue_shift saturation_factor)
               else Ok frames0)) = Ok frames /\
             len frames = Config.frames_per_animation config /\
             forall f, In f frames -> mode f = RGBA /\ width f = w /\ height f = h).
  { intros k. rewrite Hres.
    destruct (animation_frames_helper be w h theme_config creature_index k
                (Config.frames_per_animation config) Hr ltac:(lia) ltac:(lia))
      as (frames0 & Hf0 & Hlen0 & Hnth0).
    rewrite Hf0. cbn [bind].
    assert (Hsize0 : forall f, In f frames0 -> mode f = RGBA /\ width f = w /\ height f = h).
    { intros f Hin. apply In_nth_error in Hin. destruct Hin as [i Hi].
      pose proof (nth_error_len _ _ _ Hi) as Hi'.
      destruct (Hnth0 (Z.of_nat i) ltac:(lia)) as (g & Hg1 & _ & Hg2 & Hg3).
      rewrite Nat2Z.id, Hi in Hg1. injection Hg1 as <-.
      unfold size in Hg3. injection Hg3 as -> ->. auto. }
    destruct (variant_frames variant_index w h frames0 Hv Hsize0) as (frames & Hf & Hlen & Hsz).
    exists frames. split; [exact Hf |]. split; [| exact Hsz].
    unfold len in *. rewrite Hlen. lia. }
  destruct (Hone IDLE) as (idle & Hi1 & Hi2 & Hi3).
  destruct (Hone WALK) as (walk & Hw1 & Hw2 & Hw3).
  destruct (Hone ATTACK) as (attack & Ha1 & Ha2 & Ha3).
  exists idle, walk, attack. split.
  - unfold CreaturePackPipeline_generate_creature, generate_creature, animation_types.
    cbn [for_each].
    unfold bind in Hi1, Hw1, Ha1 |- *.
    destruct (generate_animation_frames be (Config.resolution config) theme_config
                creature_index IDLE _); [| discriminate]. rewrite Hi1.
    destruct (generate_animation_frames be (Config.resolution config) theme_config
                creature_index WALK _); [| discriminate]. rewrite Hw1.
    destruct (generate_animation_frames be (Config.resolution config) theme_config
                creature_index ATTACK _); [| discriminate]. rewrite Ha1.
    reflexivity.
  - intros frames [<- | [<- | [<- | []]]]; auto.
Qed.

Lemma animation_sheet_size (frames : list Image) (spacing w h : Z) (bg : Pixel)
  (sheet : Image) :
  0 <= spacing -> 0 <= w -> 0 <= h -> 1 <= len frames ->
  (forall f, In f frames -> width f = w /\ height f = h) ->
  create_animation_sprite_sheet frames spacing bg = Ok sheet ->
  mode sheet = RGBA /\ size sheet = (len frames * w + (len frames - 1) * spacing, h).
Proof.
  intros Hs Hw Hh Hn Hsize Hrun.
  destruct frames as [| f0 fs]; [unfold len in Hn; cbn in Hn; lia |].
  destruct (Hsize f0 (or_introl eq_refl)) as [Hw0 Hh0].
  rewrite animation_sheet_eq in Hrun by (rewrite ?Hw0, ?Hh0; nia).
  injection Hrun as <-.
  match goal with
  | |- mode (paste_all ?ps ?sh) = _ /\ _ =>
      destruct (paste_all_shape ps sh) as (Hm & Hwd & Hht)
  end.
  unfold size. rewrite Hm, Hwd, Hht, Hw0, Hh0. split; reflexivity.
Qed.

(** X21: one iteration of the pack generation.  With the placeholder
    generator, a resolution of at least one pixel each way, at least one
    frame per animation, a variant whose colour transform is defined, a
    pack name that is one path component and a creature directory that
    is ready, generating the creature and saving its assets succeeds:
    the creature is [creature_<index + 1>] on three digits, its
    animations are idle, walk and attack in this order, and the idle
    sheet file, which the pack preview opens for the base variant, holds
    an RGBA sheet of size [(n*w + (n-1)*2, h)]. *)
Theorem creature_pipeline (be : Backend) (config : Config.GenerationConfig)
  (theme_config : ThemeConfig) (creature_index variant_index w h : Z) (d : Disk) :
  (forall s n, (0 < n)%nat -> (randbelow be s n < n)%nat) ->
  Config.resolution config = (w, h) -> 1 <= w -> 1 <= h ->
  1 <= Config.frames_per_animation config ->
  variant_defined variant_index ->
  plain (Config.pack_name config) = true ->
  assets_ready d (Config.output_dir config </> Config.pack_name config </> "creatures"
                    </> creature_id_of creature_index) ->
  exists animation_frames d' idle_sheet,
    CreaturePackPipeline_generate_creature be config theme_config creature_index
      variant_index
    = Ok (creature_id_of creature_index, animation_frames) /\
    keys animation_frames = [IDLE; WALK; ATTACK] /\
    save_creature_assets config (creature_id_of creature_index) animation_frames
      variant_index d
    = Done (sheet_entries (Config.pack_name config) (creature_id_of creature_index)
              variant_index animation_frames) d' /\
    image_open (Config.output_dir config </> Config.pack_name config </> "creatures"
                  </> creature_id_of creature_index </> "sprite_sheets"
                  </> sheet_filename IDLE variant_index false) d'
    = Done idle_sheet d' /\
    mode idle_sheet = RGBA /\
    size idle_sheet
    = (Config.frames_per_animation config * w
       + (Config.frames_per_animation config - 1) * 2, h).
Proof.
  intros Hr Hres Hw Hh Hn Hv Hp Hready.
  destruct (generated_creature be config theme_config creature_index variant_index w h
              Hr Hres Hw Hh Hn Hv) as (idle & walk & attack & Hgen & Hframes).
  set (af := [(IDLE, idle); (WALK, walk); (ATTACK, attack)]) in *.
  assert (Hall : forall k frames, In (k, frames) af ->
                   frames <> [] /\ forallb png_writable frames = true).
  { intros k frames Hin.
    assert (Hf : In frames [idle; walk; attack]).
    { cbn in Hin. cbn. intuition congruence. }
    destruct (Hframes frames Hf) as [Hlen Hsize]. split.
    - intros ->. unfold len in Hlen. cbn in Hlen. lia.
    - apply (uniform_writable w h frames Hw Hh Hsize). }
  destruct (save_assets_helper config (creature_id_of creature_index) af variant_index d
              Hp (creature_id_plain creature_index) Hready)
    as (d' & Hrun & _ & _ & Hback & _).
  { discriminate. }
  { repeat constructor; cbn; intuition discriminate. }
  { exact Hall. }
  destruct (Hall IDLE idle (or_introl eq_refl)) as [Hne Hwr].
  destruct (animation_sheet_writable idle 2 transparent Hne ltac:(lia) Hwr)
    as (sheet & Hsheet & _).
  destruct (Hframes idle (or_introl eq_refl)) as [Hlen Hsize].
  exists af, d', sheet. split; [exact Hgen |]. split; [reflexivity |].
  split; [exact Hrun |]. split.
  - destruct (Hback IDLE idle (or_introl eq_refl)) as (Hs & _).
    unfold image_open. now rewrite (Hs sheet Hsheet).
  - rewrite <- Hlen.
    apply (animation_sheet_size idle 2 w h transparent sheet); try lia; [| exact Hsheet].
    intros f Hf. destruct (Hsize f Hf) as (_ & ? & ?). auto.
Qed.

Lemma creature_pipeline_witness :
  exists animation_frames d' idle_sheet,
    CreaturePackPipeline_generate_creature demo_backend demo_config demo_theme 0 1
    = Ok (creature_id_of 0, animation_frames) /\
    keys animation_frames = [IDLE; WALK; ATTACK] /\
    save_creature_assets demo_config (creature_id_of 0) animation_frames 1 []
    = Done (sheet_entries (Config.pack_name demo_config) (creature_id_of 0) 1
              animation_frames) d' /\
    image_open (Config.output_dir demo_config </> Config.pack_name demo_config
                  </> "creatures" </> creature_id_of 0 </> "sprite_sheets"
                  </> sheet_filename IDLE 1 false) d'
    = Done idle_sheet d' /\
    mode idle_sheet = RGBA /\
    size idle_sheet
    = (Config.frames_per_animation demo_config * 32
       + (Config.frames_per_animation demo_config - 1) * 2, 32).
Proof.
  apply (creature_pipeline demo_backend demo_config demo_theme 0 1 32 32 []).
  - intros s n H. exact H.
  - reflexivity.
  - lia.
  - lia.
  - cbn. lia.
  - right. eexists. split; [vm_compute; reflexivity | vm_compute; reflexivity].
  - reflexivity.
  - apply ready_empty.
Defined.

Lemma asset_paths_In (creature_dir : pathlib.Path) (v : Z)
  (animation_frames : dict AnimationType (list Image)) (x : pathlib.Path) :
  In x (asset_paths creature_dir v animation_frames) ->
  (exists k i, x = creature_dir </> value k </> frame_filename i v) \/
  (exists k c, x = creature_dir </> "sprite_sheets" </> sheet_filename k v c).
Proof.
  unfold asset_paths. intros H. apply in_app_iff in H. destruct H as [H | [<- | []]].
  - apply entry_paths_In in H. destruct H as (k & frames & _ & [H | ->]).
    + apply frame_paths_In in H. destruct H as (i & _ & ->). left. now exists k, i.
    + right. now exists k, false.
  - right. now exists IDLE, true.
Qed.

Lemma asset_path_inj (pack_dir : pathlib.Path) (c1 c2 a1 a2 b1 b2 : string) :
  plain c1 = true -> plain c2 = true -> plain a1 = true -> plain a2 = true ->
  plain b1 = true -> plain b2 = true ->
  pack_dir </> c1 </> a1 </> b1 = pack_dir </> c2 </> a2 </> b2 ->
  c1 = c2 /\ a1 = a2 /\ b1 = b2.
Proof.
  intros Hc1 Hc2 Ha1 Ha2 Hb1 Hb2.
  rewrite (joinpath_plain pack_dir c1 Hc1), (joinpath_plain pack_dir c2 Hc2).
  rewrite (joinpath_plain _ a1 Ha1), (joinpath_plain _ a2 Ha2).
  rewrite (joinpath_plain _ b1 Hb1), (joinpath_plain _ b2 Hb2).
  cbn [pathlib.root pathlib.parts]. intros [= H].
  rewrite <- !app_assoc in H. apply app_inv_head in H. cbn in H.
  injection H as -> -> ->. auto.
Qed.

(** X22: no asset of a pack overwrites another.  The files written for
    creature [i], variant [v] and for creature [j], variant [v'] (variant
    indices not negative, as [range] gives them) have a path in common
    only if [i = j] and [v = v']. *)
Theorem pack_assets_disjoint (be : Backend) (config : Config.GenerationConfig)
  (theme_config : ThemeConfig) (pack_dir : pathlib.Path) (i j v v' : Z)
  (id1 id2 : string) (frames1 frames2 : dict AnimationType (list Image))
  (x : pathlib.Path) :
  CreaturePackPipeline_generate_creature be config theme_config i v = Ok (id1, frames1) ->
  CreaturePackPipeline_generate_creature be config theme_config j v' = Ok (id2, frames2) ->
  0 <= v -> 0 <= v' ->
  In x (asset_paths (pack_dir </> id1) v frames1) ->
  In x (asset_paths (pack_dir </> id2) v' frames2) ->
  i = j /\ v = v'.
Proof.
  intros H1 H2 Hv Hv' Hx1 Hx2.
  unfold CreaturePackPipeline_generate_creature, bind in H1, H2.
  destruct (generate_creature _ v) in H1; [| discriminate].
  destruct (generate_creature _ v') in H2; [| discriminate].
  injection H1 as <- _. injection H2 as <- _.
  fold (creature_id_of i) in Hx1. fold (creature_id_of j) in Hx2.
  apply asset_paths_In in Hx1, Hx2.
  destruct Hx1 as [(k1 & n1 & ->) | (k1 & c1 & ->)];
    destruct Hx2 as [(k2 & n2 & E) | (k2 & c2 & E)].
  - apply (asset_path_inj pack_dir _ _ _ _ _ _ (creature_id_plain i) (creature_id_plain j)
             (value_plain k1) (value_plain k2) (frame_filename_plain n1 v)
             (frame_filename_plain n2 v')) in E.
    destruct E as (Ei & _ & Eb). apply creature_id_inj in Ei.
    apply frame_filename_inj in Eb. lia.
  - apply (asset_path_inj pack_dir _ _ _ _ _ _ (creature_id_plain i) (creature_id_plain j)
             (value_plain k1) (eq_refl : plain "sprite_sheets" = true)
             (frame_filename_plain n1 v) (sheet_filename_plain k2 v' c2)) in E.
    destruct E as (_ & Ea & _). destruct k1; discriminate Ea.
  - apply (asset_path_inj pack_dir _ _ _ _ _ _ (creature_id_plain i) (creature_id_plain j)
             (eq_refl : plain "sprite_sheets" = true) (value_plain k2)
             (sheet_filename_plain k1 v c1) (frame_filename_plain n2 v')) in E.
    destruct E as (_ & Ea & _). destruct k2; discriminate Ea.
  - apply (asset_path_inj pack_dir _ _ _ _ _ _ (creature_id_plain i) (creature_id_plain j)
             (eq_refl : plain "sprite_sheets" = true)
             (eq_refl : plain "sprite_sheets" = true)
             (sheet_filename_plain k1 v c1) (sheet_filename_plain k2 v' c2)) in E.
    destruct E as (Ei & _ & Eb). apply creature_id_inj in Ei.
    apply sheet_filename_inj in Eb. lia.
Qed.

Lemma pack_assets_disjoint_witness : 0 = 0 /\ 1 = 1.
Proof.
  destruct (generated_creature demo_backend demo_config demo_theme 0 1 32 32)
    as (idle & walk & attack & Hgen & _).
  - intros s n H. exact H.
  - reflexivity.
  - lia.
  - lia.
  - cbn. lia.
  - right. eexists. split; [vm_compute; reflexivity | vm_compute; reflexivity].
  - apply (pack_assets_disjoint demo_backend demo_config demo_theme
             (pathlib.PurePath "out/demo/creatures") 0 0 1 1 _ _ _ _
             (pathlib.PurePath "out/demo/creatures" </> creature_id_of 0
                </> "sprite_sheets" </> sheet_filename IDLE 1 true) Hgen Hgen).
    + lia.
    + lia.
    + unfold asset_paths. apply in_or_app. right. left. reflexivity.
    + unfold asset_paths. apply in_or_app. right. left. reflexivity.
Defined.

(** ** Themes and prompts *)

Lemma cyclic_item {A : Type} (l : list A) (i : Z) :
  l <> [] ->
  exists x, (j <- pymod i (len l) ;; getitem_int l j) = Ok x /\ In x l.
Proof.
  intros Hne. unfold pymod.
  assert (Hlen : 0 < len l).
  { destruct l; [congruence |]. rewrite len_cons. pose proof (len_nonneg l). lia. }
  destruct (Z.eqb_spec (len l) 0) as [E | _]; [lia |]. cbn [bind].
  pose proof (Z.mod_pos_bound i (len l) Hlen) as Hb.
  rewrite getitem_int_nat by lia. unfold getitem.
  destruct (nth_error l (Z.to_nat (i mod len l))) as [x |] eqn:E.
  - exists x. split; [reflexivity | eapply nth_error_In; exact E].
  - apply nth_error_None in E. unfold len in *. lia.
Qed.

Lemma cyclic_empty {A : Type} (i : Z) :
  (j <- pymod i (len (@nil A)) ;; getitem_int (@nil A) j) = Raise ZeroDivisionError.
Proof. reflexivity. Qed.

Lemma cyclic_period {A : Type} (l : list A) (i k : Z) :
  pymod (i + k * len l) (len l) = pymod i (len l).
Proof.
  unfold pymod. destruct (Z.eqb_spec (len l) 0) as [E | E]; [reflexivity |].
  now rewrite Z_mod_plus_full.
Qed.

Lemma build_prompt_defined (self : ThemeConfig) (creature_index : Z) :
  mood_adjectives self <> [] -> color_palette_hints self <> [] ->
  exists mood color_hint,
    In mood (mood_adjectives self) /\ In color_hint (color_palette_hints self) /\
    build_prompt self creature_index
    = Ok (base_description self ++ ", " ++ mood ++ " style, pixel art, "
          ++ color_hint ++ " color scheme, "
          ++ "game sprite, transparent background, simple design").
Proof.
  intros Hm Hc. unfold build_prompt.
  destruct (cyclic_item (mood_adjectives self) creature_index Hm) as (mood & Hmood & Hin1).
  destruct (cyclic_item (color_palette_hints self) creature_index Hc)
    as (hint & Hhint & Hin2).
  exists mood, hint. split; [exact Hin1 |]. split; [exact Hin2 |].
  unfold bind in *.
  destruct (pymod creature_index (len (mood_adjectives self))); [| discriminate].
  rewrite Hmood.
  destruct (pymod creature_index (len (color_palette_hints self))); [| discriminate].
  rewrite Hhint. reflexivity.
Qed.

Lemma build_prompt_shift (self : ThemeConfig) (creature_index n : Z) :
  len (mood_adjectives self) = n -> len (color_palette_hints self) = n ->
  build_prompt self (creature_index + n) = build_prompt self creature_index.
Proof.
  intros Hm Hc. unfold build_prompt.
  pose proof (cyclic_period (mood_adjectives self) creature_index 1) as E1.
  pose proof (cyclic_period (color_palette_hints self) creature_index 1) as E2.
  rewrite Z.mul_1_l, Hm in E1. rewrite Z.mul_1_l, Hc in E2.
  rewrite Hm, Hc, E1, ?E2. reflexivity.
Qed.

(** X23: [build_prompt] never raises [IndexError]: with a mood and a
    colour hint to choose from it returns the prompt built from one of
    each, for every integer index; with an empty list of moods it raises
    [ZeroDivisionError], as it does with moods but no colour hint; and
    the prompt repeats with period [len(moods) * len(hints)]. *)
Theorem build_prompt_cycles (self : ThemeConfig) (creature_index : Z) :
  (mood_adjectives self <> [] -> color_palette_hints self <> [] ->
   exists mood color_hint,
     In mood (mood_adjectives self) /\ In color_hint (color_palette_hints self) /\
     build_prompt self creature_index
     = Ok (base_description self ++ ", " ++ mood ++ " style, pixel art, "
           ++ color_hint ++ " color scheme, "
           ++ "game sprite, transparent background, simple design")) /\
  (mood_adjectives self = [] \/ color_palette_hints self = [] ->
   build_prompt self creature_index = Raise ZeroDivisionError) /\
  build_prompt self
    (creature_index + len (mood_adjectives self) * len (color_palette_hints self))
  = build_prompt self creature_index.
Proof.
  split; [| split].
  - apply build_prompt_defined.
  - intros [E | E]; unfold build_prompt; rewrite E.
    + reflexivity.
    + destruct (mood_adjectives self) as [| m ms] eqn:Em; [reflexivity |].
      destruct (cyclic_item (m :: ms) creature_index ltac:(discriminate))
        as (mood & Hmood & _).
      unfold bind in *.
      destruct (pymod creature_index (len (m :: ms))); [| discriminate].
      rewrite Hmood. reflexivity.
  - unfold build_prompt.
    rewrite (cyclic_period (color_palette_hints self) creature_index
               (len (mood_adjectives self))).
    rewrite (Z.mul_comm (len (mood_adjectives self)) (len (color_palette_hints self))).
    rewrite (cyclic_period (mood_adjectives self) creature_index
               (len (color_palette_hints self))).
    reflexivity.
Qed.

(** X24: the default themes are consistent with the generator.  Each
    of the default themes is stored under its own name, [get_theme]
    finds it, its prompt is defined for every creature index and repeats
    every five creatures, and the placeholder generator has a colour
    table of five schemes for it, so the fallback to [cute_forest] is
    not used for a default theme. *)
Theorem default_themes_consistent (repr_keys : list string -> string) (key : string)
  (theme : ThemeConfig) :
  In (key, theme) DEFAULT_THEMES ->
  name theme = key /\
  get_theme repr_keys DEFAULT_THEMES key = Ok theme /\
  (forall i, exists prompt,
      build_prompt theme i = Ok prompt /\ build_prompt theme (i + 5) = Ok prompt) /\
  (exists colors,
      dict_get String.eqb color_schemes (name theme) = Some colors /\
      length colors = 5%nat).
Proof.
  intros Hin. cbn in Hin.
  destruct Hin as [[= <- <-] | [[= <- <-] | [[= <- <-] | [[= <- <-] | []]]]];
    (split; [reflexivity |]); (split; [reflexivity |]);
    (split; [| eexists; split; reflexivity]);
    intros i;
    match goal with
    | |- exists prompt, build_prompt ?t i = _ /\ _ =>
        destruct (build_prompt_defined t i ltac:(discriminate) ltac:(discriminate))
          as (mood & hint & _ & _ & Hp);
        eexists; split; [exact Hp |];
        rewrite (build_prompt_shift t i 5 eq_refl eq_refl); exact Hp
    end.
Qed.

Lemma default_themes_consistent_witness :
  name demo_theme = "cute_forest" /\
  get_theme (String.concat ", ") DEFAULT_THEMES "cute_forest" = Ok demo_theme /\
  (forall i, exists prompt,
      build_prompt demo_theme i = Ok prompt /\ build_prompt demo_theme (i + 5) = Ok prompt) /\
  (exists colors,
      dict_get String.eqb color_schemes (name demo_theme) = Some colors /\
      length colors = 5%nat).
Proof.
  apply (default_themes_consistent (String.concat ", ") "cute_forest" demo_theme).
  left. reflexivity.
Defined.

(** ** The README and the archive name *)

Lemma append_assoc_s (a b c : string) : ((a ++ b) ++ c = a ++ (b ++ c))%string.
Proof. induction a as [| x a IH]; cbn [append]; [reflexivity | now rewrite IH]. Qed.

Lemma startswith_self (sub b : string) : startswith (sub ++ b) sub = true.
Proof.
  induction sub as [| c sub IH]; cbn [append startswith]; [now destruct b |].
  now rewrite Ascii.eqb_refl, IH.
Qed.

Lemma contains_here (sub b : string) : contains sub (sub ++ b) = true.
Proof.
  destruct (sub ++ b)%string eqn:E; cbn [contains]; rewrite <- E, startswith_self;
    reflexivity.
Qed.

Lemma contains_app_r (sub a b : string) :
  contains sub b = true -> contains sub (a ++ b) = true.
Proof.
  intros H. induction a as [| c a IH]; cbn [append]; [exact H |].
  now apply contains_skip.
Qed.

Lemma startswith_app (a b sub : string) :
  startswith a sub = true -> startswith (a ++ b) sub = true.
Proof.
  revert sub. induction a as [| c a IH]; intros [| x sub]; cbn [append startswith];
    try discriminate; try reflexivity.
  - now destruct b.
  - intros H. apply andb_true_iff in H. destruct H as [H1 H2].
    now rewrite H1, (IH sub H2).
Qed.

Lemma contains_app_l (sub a b : string) :
  contains sub a = true -> contains sub (a ++ b) = true.
Proof.
  induction a as [| c a IH]; cbn [append contains].
  - rewrite orb_false_r. intros H. destruct sub; [| discriminate H].
    destruct b; reflexivity.
  - intros H. apply orb_true_iff in H. destruct H as [H | H].
    + change (String c (a ++ b)) with (String c a ++ b)%string.
      rewrite (startswith_app (String c a) b sub H). reflexivity.
    + rewrite (IH H). apply orb_true_r.
Qed.

Lemma contains_mid (sub a b : string) : contains sub (a ++ sub ++ b) = true.
Proof. apply contains_app_r, contains_here. Qed.

Lemma append_nil_r (s : string) : (s ++ "" = s)%string.
Proof. induction s as [| c s IH]; cbn [append]; [reflexivity | now rewrite IH]. Qed.

Lemma readme_lines (f : string -> string) (l : list string) (acc : string) :
  fold_left (fun readme a => (readme ++ f a)%string) l acc
  = (acc ++ String.concat "" (map f l))%string.
Proof.
  revert acc. induction l as [| a l IH]; intros acc; cbn [fold_left map].
  - cbn [String.concat]. now rewrite append_nil_r.
  - rewrite IH, append_assoc_s. f_equal.
    destruct (map f l) eqn:E; cbn [String.concat].
    + now rewrite append_nil_r.
    + reflexivity.
Qed.

Lemma concat_In (f : string -> string) (l : list string) (a : string) :
  In a l -> exists before after, String.concat "" (map f l) = (before ++ f a ++ after)%string.
Proof.
  induction l as [| b l IH]; [intros [] |].
  assert (Hc : String.concat "" (map f (b :: l)) = (f b ++ String.concat "" (map f l))%string).
  { cbn [map]. destruct (map f l) eqn:E; cbn [String.concat]; [| reflexivity].
    now rewrite append_nil_r. }
  intros [-> | Hin].
  - exists EmptyString, (String.concat "" (map f l)). rewrite Hc. reflexivity.
  - destruct (IH Hin) as (before & after & E).
    exists (f b ++ before)%string, after. rewrite Hc, E. now rewrite append_assoc_s.
Qed.

(** X25: what the README says.  Whatever the pack, the text starts with
    the pack name as its title and lists every animation type of the
    metadata with [4 frames]; the placeholders of its second part are
    never filled in: the file tree is headed by the literal
    [{pack_name}/] and the Pygame example reads
    [frame_width = {pack_metadata.resolution[0]}]. *)
Theorem readme_contents (capitalize : string -> string) (pack_metadata : PackMetadata) :
  startswith (generate_readme capitalize pack_metadata)
    ("# " ++ pack_name pack_metadata) = true /\
  (forall anim_type, In anim_type (animation_type_names pack_metadata) ->
     contains ("- **" ++ capitalize anim_type ++ "**: 4 frames")
       (generate_readme capitalize pack_metadata) = true) /\
  contains "{pack_name}/" (generate_readme capitalize pack_metadata) = true /\
  contains "frame_width = {pack_metadata.resolution[0]}"
    (generate_readme capitalize pack_metadata) = true.
Proof.
  unfold generate_readme. cbv zeta. rewrite readme_lines.
  split; [| split; [| split]].
  - apply startswith_app, startswith_app.
    rewrite <- (append_assoc_s "# " (pack_name pack_metadata)).
    apply startswith_self.
  - intros a Hin.
    destruct (concat_In (fun anim_type => "- **" ++ capitalize anim_type ++ "**: 4 frames
") (animation_type_names pack_metadata) a Hin) as (before & after & E).
    rewrite E. apply contains_app_l, contains_app_r, contains_app_r, contains_app_l.
    replace ("- **" ++ capitalize a ++ "**: 4 frames
")%string with (("- **" ++ capitalize a ++ "**: 4 frames") ++ "
")%string.
    + apply contains_here.
    + change ("- **" ++ capitalize a ++ "**: 4 frames")%string
        with ("- **" ++ (capitalize a ++ "**: 4 frames"))%string.
      rewrite (append_assoc_s "- **"), (append_assoc_s (capitalize a)). reflexivity.
  - apply contains_app_r. vm_compute. reflexivity.
  - apply contains_app_r. vm_compute. reflexivity.
Qed.

Lemma replace_char_clean (s : string) : contains " " (replace_char " " "_" s) = false.
Proof.
  induction s as [| c s IH]; [reflexivity |].
  cbn [replace_char contains startswith]. rewrite IH, orb_false_r.
  destruct (Ascii.eqb_spec c " ") as [-> | Hc]; [reflexivity |].
  destruct (Ascii.eqb_spec " " c) as [<- | _]; [congruence | reflexivity].
Qed.

(** X26: the name of the archive.  [generate_pack_filename] never uses
    the pack name: the result is [pixel_creatures], the pack id when it
    is given and not empty (taken as it is), the theme name lower-cased
    with every space replaced, which therefore holds no space, and
    [<w>x<h>], joined by underscores. *)
Theorem pack_filename_parts (lower : string -> string) (pack_name other_name theme_name : string)
  (w h : Z) (pack_id : option string) :
  generate_pack_filename lower pack_name theme_name (w, h) pack_id
  = generate_pack_filename lower other_name theme_name (w, h) pack_id /\
  generate_pack_filename lower pack_name theme_name (w, h) pack_id
  = ("pixel_creatures_"
     ++ match pack_id with
        | Some id => if (id =? "")%string then "" else id ++ "_"
        | None => ""
        end
     ++ replace_char " " "_" (lower theme_name) ++ "_" ++ str w ++ "x" ++ str h)%string /\
  contains " " (replace_char " " "_" (lower theme_name)) = false.
Proof.
  split; [reflexivity |]. split; [| apply replace_char_clean].
  unfold generate_pack_filename. cbn [fst snd].
  destruct pack_id as [id |]; [destruct (String.eqb_spec id "") as [-> | Hne] |].
  - reflexivity.
  - cbn [app String.concat]. cbn [append]. do 16 f_equal.
    now rewrite append_assoc_s.
  - reflexivity.
Qed.

(** ** Errors of the showcase and of the saving functions *)

Lemma paste_self_mask (dst src : Image) (box : Z * Z) :
  mode dst = RGBA ->
  (mode src = RGBA \/ mode src = L ->
   exists out, paste dst src box (Some src) = Ok out /\ mode out = RGBA) /\
  (mode src = RGB \/ mode src = HSV ->
   paste dst src box (Some src) = Raise (ValueError "bad transparency mask")).
Proof.
  intros Hd. destruct box as [x y]. split.
  - intros [Hs | Hs].
    + rewrite (self_mask dst src x y Hd Hs). eexists. split; [reflexivity | exact Hd].
    + unfold paste. rewrite Hd. unfold convert. rewrite Hs. cbn [mode_eqb bind].
      cbn [map_pixels mode width height]. rewrite !Z.eqb_refl. cbn [andb].
      eexists. split; [reflexivity | reflexivity].
  - intros [Hs | Hs]; unfold paste; rewrite Hd; unfold convert; rewrite Hs;
      cbn [mode_eqb bind]; reflexivity.
Qed.

Lemma column_loop_fails (sheets : list Image) (spacing y0 : Z) (showcase : Image) :
  mode showcase = RGBA ->
  Exists (fun s => mode s = RGB \/ mode s = HSV) sheets ->
  for_each sheets
    (fun '(showcase, y_offset) sheet =>
       showcase <- paste showcase sheet (0, y_offset) (Some sheet) ;;
       Ok (showcase, y_offset + (height sheet + spacing)))
    (showcase, y0)
  = Raise (ValueError "bad transparency mask").
Proof.
  revert y0 showcase. induction sheets as [| s ss IH]; intros y0 showcase Hm Hex;
    [inversion Hex |].
  cbn [for_each].
  destruct (paste_self_mask showcase s (0, y0) Hm) as [Hok Hbad].
  assert (Hcase : (mode s = RGBA \/ mode s = L) \/ (mode s = RGB \/ mode s = HSV))
    by (destruct (mode s); tauto).
  destruct Hcase as [Hgood | Hb].
  - destruct (Hok Hgood) as (out & Hout & Hmo). rewrite Hout. cbn [bind].
    apply IH; [exact Hmo |].
    inversion Hex as [? ? Hhere | ? ? Hlater]; subst; [| exact Hlater].
    destruct Hgood as [E | E], Hhere as [E' | E']; congruence.
  - rewrite (Hbad Hb). reflexivity.
Qed.

(** X27: the showcase needs sheets with an alpha band.  Each sheet is
    pasted with itself as mask; when one of the loaded sheets (at least
    one pixel each, [scale >= 1]) has mode RGB or HSV,
    [create_creature_showcase] raises [ValueError] for the bad
    transparency mask, and nothing is saved. *)
Theorem showcase_bad_mask (creature_dir output_path : pathlib.Path) (scale : Z) (d : Disk)
  (sheets : list Image) :
  Forall2 (fun p im => stat d p = Some (ImageFile im))
    (showcase_files d creature_dir) sheets ->
  Forall (fun s => 1 <= width s /\ 1 <= height s) sheets ->
  Exists (fun s => mode s = RGB \/ mode s = HSV) sheets ->
  1 <= scale ->
  create_creature_showcase creature_dir output_path scale d
  = Failed (Py (ValueError "bad transparency mask")).
Proof.
  intros Hfiles Hsheets Hbad Hk.
  set (U := map (fun s => upscaled s scale) sheets).
  assert (HU : for_append sheets (fun sheet => upscale_nearest_neighbor sheet scale) = Ok U).
  { apply for_append_total. intros s Hs.
    rewrite Forall_forall in Hsheets. destruct (Hsheets s Hs) as (Hw & Hh).
    apply upscale_eq; [exact Hk | left; lia]. }
  assert (HUbad : Exists (fun s => mode s = RGB \/ mode s = HSV) U).
  { unfold U. apply Exists_exists in Hbad. destruct Hbad as (s & Hs & Hm).
    apply Exists_exists. exists (upscaled s scale).
    split; [exact (in_map (fun s => upscaled s scale) sheets s Hs) |].
    destruct (upscaled_spec s scale Hk) as (-> & _). exact Hm. }
  assert (HUw : map width U = map (fun s => width s * scale) sheets).
  { unfold U. rewrite map_map. apply map_ext. intros s.
    destruct (upscaled_spec s scale Hk) as (_ & -> & _). reflexivity. }
  destruct sheets as [| s0 ss]; [inversion Hbad |].
  destruct (py_max_spec (width s0 * scale) (map (fun s => width s * scale) ss))
    as (M & HM & HMin & HMall).
  change (width s0 * scale :: map (fun s => width s * scale) ss)
    with (map (fun s => width s * scale) (s0 :: ss)) in HM, HMin, HMall.
  set (sheets := s0 :: ss) in *.
  assert (HM1 : 1 <= M).
  { apply in_map_iff in HMin. destruct HMin as (s & <- & Hs).
    rewrite Forall_forall in Hsheets. destruct (Hsheets s Hs) as (Hw & _). nia. }
  assert (Hsum : 1 <= py_sum (map height U)).
  { assert (Hs' : py_sum (map height U) = py_sum (map height sheets) * scale)
      by (apply py_sum_scaled; exact Hk).
    rewrite Hs'. unfold sheets. cbn [map]. rewrite py_sum_cons.
    inversion Hsheets as [| ? ? (_ & Hh0) Hrest]; subst.
    assert (0 <= py_sum (map height ss)).
    { clear - Hrest. induction ss as [| b ss IHs]; [cbn; lia |].
      cbn [map]. rewrite py_sum_cons. inversion Hrest as [| ? ? (_ & Hb) Hr]; subst.
      specialize (IHs Hr). lia. }
    nia. }
  assert (HlenU : 0 <= len U - 1).
  { unfold len, U, sheets. rewrite length_map. cbn [length]. lia. }
  unfold create_creature_showcase.
  unfold io_bind at 1. unfold glob_suffix at 1.
  unfold io_bind at 1.
  rewrite (showcase_load_loop d _ [] sheets Hfiles).
  cbn [app]. unfold sheets at 1. cbn [is_empty].
  fold sheets. unfold io_bind at 1. unfold lift at 1. rewrite HU.
  unfold io_bind at 1. unfold lift at 1. rewrite HUw, HM.
  unfold io_bind at 1. unfold lift at 1.
  rewrite new_blank by nia.
  unfold io_bind at 1. unfold lift at 1.
  rewrite (column_loop_fails U (4 * scale) 0 (blank RGBA _ _ _) eq_refl HUbad).
  reflexivity.
Qed.

Lemma showcase_bad_mask_witness :
  create_creature_showcase (pathlib.PurePath "out/creature_001")
    (pathlib.PurePath "out/showcase.png") 2
    [(demo_sheets_dir </> "idle.png", ImageFile (blank RGB 2 2 (0, 255, 0, 255)));
     (demo_sheets_dir </> "attack.png", ImageFile (blank RGBA 3 2 (255, 0, 0, 255)))]
  = Failed (Py (ValueError "bad transparency mask")).
Proof.
  apply (showcase_bad_mask (pathlib.PurePath "out/creature_001")
           (pathlib.PurePath "out/showcase.png") 2 _
           [blank RGBA 3 2 (255, 0, 0, 255); blank RGB 2 2 (0, 255, 0, 255)]).
  - repeat constructor.
  - repeat constructor; cbn; lia.
  - apply Exists_cons_tl. apply Exists_cons_hd. left. reflexivity.
  - lia.
Defined.

Lemma mkdir_each_fails (r : string) (target : list string) (qs : list (list string))
  (d : Disk) :
  (exists q, In q qs /\ is_file (stat d (pathlib.mkPath r q)) = true) ->
  exists e,
    mkdir_each r target qs d = Failed (Os e) /\
    (e = FileExistsError \/ e = NotADirectoryError).
Proof.
  revert d. induction qs as [| q qs IH]; intros d (q0 & Hin & Hfile); [destruct Hin |].
  cbn [mkdir_each].
  destruct (stat d (pathlib.mkPath r q)) as [[| im | t] |] eqn:Eq.
  - apply IH. destruct Hin as [-> | Hin]; [rewrite Eq in Hfile; discriminate |].
    exists q0. auto.
  - destruct (pathlib.parts_eqb q target); eexists; split; try reflexivity; auto.
  - destruct (pathlib.parts_eqb q target); eexists; split; try reflexivity; auto.
  - apply IH. destruct Hin as [-> | Hin]; [rewrite Eq in Hfile; discriminate |].
    exists q0. split; [exact Hin |].
    rewrite stat_cons_other; [exact Hfile |].
    intros E. rewrite E, Eq in Hfile. discriminate.
Qed.

Lemma mkdir_fails (p : pathlib.Path) (d : Disk) :
  can_mkdir d p = false ->
  exists e, mkdir p d = Failed (Os e) /\ (e = FileExistsError \/ e = NotADirectoryError).
Proof.
  intros H. unfold mkdir. apply mkdir_each_fails.
  unfold can_mkdir in H.
  destruct (existsb (fun q => is_file (stat d (pathlib.mkPath (pathlib.root p) q)))
              (prefixes (pathlib.parts p))) eqn:E.
  - apply existsb_exists in E. exact E.
  - exfalso. assert (Hall : forallb
        (fun q => negb (is_file (stat d (pathlib.mkPath (pathlib.root p) q))))
        (prefixes (pathlib.parts p)) = true).
    { apply forallb_forall. intros q Hq. apply negb_true_iff.
      destruct (is_file (stat d (pathlib.mkPath (pathlib.root p) q))) eqn:Ef;
        [| reflexivity].
      assert (existsb (fun q => is_file (stat d (pathlib.mkPath (pathlib.root p) q)))
                (prefixes (pathlib.parts p)) = true)
        by (apply existsb_exists; exists q; auto).
      congruence. }
    congruence.
Qed.

(** X28: a file in the way.  When a file stands where the directory of
    the frames, or of the sheets, or one of its ancestors should be,
    [save_frames_to_disk], respectively [save_sprite_sheet], raises
    [FileExistsError] or [NotADirectoryError] from [mkdir], before any
    image is written. *)
Theorem saving_blocked_by_file (frames : list Image) (sprite_sheet : Image)
  (output_dir : pathlib.Path) (creature_id : string) (animation_type : AnimationType)
  (variant_index : Z) (is_combined : bool) (d : Disk) :
  (can_mkdir d (output_dir </> creature_id </> value animation_type) = false ->
   exists e,
     save_frames_to_disk frames output_dir creature_id animation_type variant_index d
     = Failed (Os e) /\
     (e = FileExistsError \/ e = NotADirectoryError)) /\
  (can_mkdir d (output_dir </> creature_id </> "sprite_sheets") = false ->
   exists e,
     save_sprite_sheet sprite_sheet output_dir creature_id animation_type variant_index
       is_combined d
     = Failed (Os e) /\
     (e = FileExistsError \/ e = NotADirectoryError)).
Proof.
  split; intros H; destruct (mkdir_fails _ d H) as (e & He & Hcase); exists e;
    (split; [| exact Hcase]).
  - unfold save_frames_to_disk. unfold io_bind at 1. now rewrite He.
  - unfold save_sprite_sheet. unfold io_bind at 1. now rewrite He.
Qed.

(** ** The structure of a pack *)

Lemma path_exists_run (p : pathlib.Path) (d : Disk) :
  path_exists p d = Done (present d p) d.
Proof. unfold path_exists, present. now destruct (stat d p). Qed.

Lemma path_is_dir_run (p : pathlib.Path) (d : Disk) :
  path_is_dir p d = Done (is_dir (stat d p)) d.
Proof. unfold path_is_dir, is_dir. now destruct (stat d p) as [[| im | t] |]. Qed.

Lemma io_all_run {A : Type} (test : A -> IO bool) (t : A -> bool) (l : list A) (d : Disk) :
  (forall a, test a d = Done (t a) d) ->
  io_all test l d = Done (forallb t l) d.
Proof.
  intros H. induction l as [| a l IH]; [reflexivity |].
  cbn [io_all forallb]. unfold io_bind. rewrite H.
  destruct (t a); [exact IH | reflexivity].
Qed.

Lemma io_filter_run {A : Type} (test : A -> IO bool) (t : A -> bool) (l : list A)
  (d : Disk) :
  (forall a, test a d = Done (t a) d) ->
  io_filter test l d = Done (filter t l) d.
Proof.
  intros H. induction l as [| a l IH]; [reflexivity |].
  cbn [io_filter filter]. unfold io_bind at 1. rewrite H.
  unfold io_bind. rewrite IH. reflexivity.
Qed.

(** The run of the validation, one listing at a time. *)
Lemma validate_run (listing : list pathlib.Path -> list pathlib.Path)
  (pack_dir : pathlib.Path) (d : Disk) :
  validate_pack_structure listing pack_dir d
  = if present d (pack_dir </> "creatures") && present d (pack_dir </> "metadata.json")
       && present d (pack_dir </> "README.txt")
    then
      match stat d (pack_dir </> "creatures") with
      | Some Directory =>
          match filter (fun c => is_dir (stat d c))
                       (listing (iterdir d (pack_dir </> "creatures"))) with
          | [] => Done false d
          | first_creature :: _ =>
              Done (forallb (fun subdir => present d (first_creature </> subdir))
                            ["idle"; "walk"; "attack"; "sprite_sheets"]) d
          end
      | Some _ => Failed (Os NotADirectoryError)
      | None => Failed (Os FileNotFoundError)
      end
    else Done false d.
Proof.
  unfold validate_pack_structure. unfold io_bind at 1.
  rewrite (io_all_run path_exists (present d) _ d (fun p => path_exists_run p d)).
  cbn [forallb]. rewrite andb_true_r, andb_assoc.
  destruct (present d (pack_dir </> "creatures") && present d (pack_dir </> "metadata.json")
            && present d (pack_dir </> "README.txt")); [| reflexivity].
  cbn [negb]. unfold io_bind at 1, path_iterdir at 1.
  destruct (stat d (pack_dir </> "creatures")) as [[| im | t] |]; try reflexivity.
  unfold io_bind at 1.
  rewrite (io_filter_run path_is_dir (fun c => is_dir (stat d c)) _ d
             (fun c => path_is_dir_run c d)).
  destruct (filter _ _) as [| first_creature rest]; [reflexivity |].
  apply (io_all_run (fun subdir => path_exists (first_creature </> subdir))
           (fun subdir => present d (first_creature </> subdir))).
  intros a. apply path_exists_run.
Qed.

Lemma is_dir_stat (d : Disk) (p : pathlib.Path) :
  is_dir (stat d p) = true <-> stat d p = Some Directory.
Proof.
  destruct (stat d p) as [[| im | t] |]; cbn; split; congruence.
Qed.

(** X29: the directories of a creature.  After [save_creature_assets]
    the directory of the creature, its [sprite_sheets] directory and one
    directory per animation saved stand on the disk; when all three
    animations are saved, the creature has the four directories
    [validate_pack_structure] asks for. *)
Theorem saved_assets_directories (config : Config.GenerationConfig) (creature_id : string)
  (animation_frames : dict AnimationType (list Image)) (variant_index : Z) (d : Disk) :
  plain (Config.pack_name config) = true -> plain creature_id = true ->
  assets_ready d (Config.output_dir config </> Config.pack_name config </> "creatures"
                    </> creature_id) ->
  animation_frames <> [] -> NoDup (keys animation_frames) ->
  (forall k frames, In (k, frames) animation_frames ->
     frames <> [] /\ forallb png_writable frames = true) ->
  exists paths d',
    save_creature_assets config creature_id animation_frames variant_index d
    = Done paths d' /\
    stat d' (Config.output_dir config </> Config.pack_name config </> "creatures"
               </> creature_id) = Some Directory /\
    stat d' (Config.output_dir config </> Config.pack_name config </> "creatures"
               </> creature_id </> "sprite_sheets") = Some Directory /\
    (forall k, In k (keys animation_frames) ->
       stat d' (Config.output_dir config </> Config.pack_name config </> "creatures"
                  </> creature_id </> value k) = Some Directory) /\
    ((forall k, In k (keys animation_frames)) ->
     complete_creature d' (Config.output_dir config </> Config.pack_name config
                             </> "creatures" </> creature_id)).
Proof.
  intros Hp Hc Hready Hne Hnd Hall.
  destruct (save_assets_helper config creature_id animation_frames variant_index d
              Hp Hc Hready Hne Hnd Hall)
    as (d' & H1 & _ & _ & Hback & Hsdir & Hcdir & _).
  assert (Hkinds : forall k, In k (keys animation_frames) ->
            stat d' (Config.output_dir config </> Config.pack_name config </> "creatures"
                       </> creature_id </> value k) = Some Directory).
  { intros k Hk. unfold keys in Hk. apply in_map_iff in Hk.
    destruct Hk as ([k' frames] & E & Hin). cbn in E. subst k'.
    now destruct (Hback k frames Hin) as (_ & _ & Hd). }
  eexists. exists d'. split; [exact H1 |]. split; [exact Hcdir |].
  split; [exact Hsdir |]. split; [exact Hkinds |].
  intros Hfull subdir Hsub. unfold present.
  destruct Hsub as [<- | [<- | [<- | [<- | []]]]].
  - pose proof (Hkinds IDLE (Hfull IDLE)) as E. cbn [value] in E. now rewrite E.
  - pose proof (Hkinds WALK (Hfull WALK)) as E. cbn [value] in E. now rewrite E.
  - pose proof (Hkinds ATTACK (Hfull ATTACK)) as E. cbn [value] in E. now rewrite E.
  - now rewrite Hsdir.
Qed.

Lemma saved_assets_directories_witness :
  exists paths d',
    save_creature_assets demo_config "creature_000" three_animations 0 [] = Done paths d' /\
    stat d' (pathlib.PurePath "out" </> "demo" </> "creatures" </> "creature_000")
    = Some Directory /\
    complete_creature d' (pathlib.PurePath "out" </> "demo" </> "creatures"
                            </> "creature_000").
Proof.
  destruct three_animations_ok as (Hne & Hnd & Hall).
  destruct (saved_assets_directories demo_config "creature_000" three_animations 0 []
              eq_refl eq_refl (ready_empty _) Hne Hnd Hall)
    as (paths & d' & Hrun & Hc & _ & _ & Hfull).
  exists paths, d'. split; [exact Hrun |]. split; [exact Hc |].
  apply Hfull. intros [| |]; cbn; auto.
Defined.

(** X30: [validate_pack_structure], in whatever order the system lists
    the entries of [creatures].  With [creatures] a directory the answer
    is a boolean and the disk is left as it was: [True] only if
    [metadata.json] and [README.txt] are there and some directory under
    [creatures] has the four directories, and [True] as soon as both
    files are there, there is a creature directory and every creature
    directory has the four.  Without [creatures] the answer is [False];
    with a file named [creatures] and both other files there, the call
    raises [NotADirectoryError] instead of answering. *)
Theorem validate_pack_spec (listing : list pathlib.Path -> list pathlib.Path)
  (pack_dir : pathlib.Path) (d : Disk) :
  (forall l, Permutation (listing l) l) ->
  (stat d (pack_dir </> "creatures") = Some Directory ->
   exists b,
     validate_pack_structure listing pack_dir d = Done b d /\
     (b = true ->
      present d (pack_dir </> "metadata.json") = true /\
      present d (pack_dir </> "README.txt") = true /\
      exists c, creature_dir_of d pack_dir c /\ complete_creature d c) /\
     (present d (pack_dir </> "metadata.json") = true ->
      present d (pack_dir </> "README.txt") = true ->
      (exists c, creature_dir_of d pack_dir c) ->
      (forall c, creature_dir_of d pack_dir c -> complete_creature d c) ->
      b = true)) /\
  (stat d (pack_dir </> "creatures") = None ->
   validate_pack_structure listing pack_dir d = Done false d) /\
  (is_file (stat d (pack_dir </> "creatures")) = true ->
   validate_pack_structure listing pack_dir d
   = if present d (pack_dir </> "metadata.json") && present d (pack_dir </> "README.txt")
     then Failed (Os NotADirectoryError) else Done false d).
Proof.
  intros Hperm. rewrite validate_run.
  split; [| split].
  - intros Hdir.
    assert (Hp : present d (pack_dir </> "creatures") = true)
      by (unfold present; now rewrite Hdir).
    rewrite Hp, Hdir. cbn [andb].
    set (dirs := filter (fun c => is_dir (stat d c))
                   (listing (iterdir d (pack_dir </> "creatures")))).
    assert (Hdirs : forall c, In c dirs <-> creature_dir_of d pack_dir c).
    { intros c. unfold dirs, creature_dir_of. rewrite filter_In, is_dir_stat.
      split; intros [H1 H2]; (split; [| exact H2]).
      - exact (Permutation_in _ (Hperm _) H1).
      - exact (Permutation_in _ (Permutation_sym (Hperm _)) H1). }
    destruct (present d (pack_dir </> "metadata.json")) eqn:Hm;
      [destruct (present d (pack_dir </> "README.txt")) eqn:Hr |]; cbn [andb].
    + destruct dirs as [| first_creature rest] eqn:Edirs.
      * exists false. split; [reflexivity |]. split; [discriminate |].
        intros _ _ (c & Hc) _. apply Hdirs in Hc. destruct Hc.
      * eexists. split; [reflexivity |]. split.
        -- intros Hall. split; [reflexivity |]. split; [reflexivity |].
           exists first_creature. split; [apply Hdirs; now left |].
           intros subdir Hsub. rewrite forallb_forall in Hall. now apply Hall.
        -- intros _ _ _ Hall. apply forallb_forall. intros subdir Hsub.
           apply (Hall first_creature); [apply Hdirs; now left | exact Hsub].
    + exists false. split; [reflexivity |]. split; [discriminate |].
      intros _ E. discriminate E.
    + exists false. split; [reflexivity |]. split; [discriminate |].
      intros E. discriminate E.
  - intros Hnone.
    assert (Hp : present d (pack_dir </> "creatures") = false)
      by (unfold present; now rewrite Hnone).
    rewrite Hp. reflexivity.
  - intros Hfile.
    assert (Hp : present d (pack_dir </> "creatures") = true)
      by (unfold present; destruct (stat d (pack_dir </> "creatures"));
          [reflexivity | discriminate Hfile]).
    rewrite Hp. cbn [andb].
    destruct (present d (pack_dir </> "metadata.json") && present d (pack_dir </> "README.txt"));
      [| reflexivity].
    destruct (stat d (pack_dir </> "creatures")) as [[| im | t] |];
      try discriminate Hfile; reflexivity.
Qed.

Lemma validate_pack_spec_witness :
  validate_pack_structure (fun l => l) (pathlib.PurePath "packs/demo") demo_pack
  = Done true demo_pack.
Proof.
  destruct (validate_pack_spec (fun l => l) (pathlib.PurePath "packs/demo") demo_pack
              (fun l => Permutation_refl l)) as (Hdir & _ & _).
  destruct (Hdir eq_refl) as (b & Hrun & _ & Hb).
  rewrite Hrun. f_equal. apply Hb; [reflexivity | reflexivity | |].
  - exists (pathlib.PurePath "packs/demo/creatures/creature_000"). split; [| reflexivity].
    vm_compute. now left.
  - intros c [Hin Hc]. vm_compute in Hin.
    destruct Hin as [<- | [<- | []]]; [| discriminate Hc].
    intros subdir Hsub. destruct Hsub as [<- | [<- | [<- | [<- | []]]]]; reflexivity.
Defined.
